(** * ED pain audit pipeline: a shallow embedding of [data_utils.py]

    The pandas tables of the program are modelled column by column, the way
    the code manipulates them: a [Series] is the list of the cells of one
    column, a [DataFrame] an ordered list of named series together with the
    length of its index.  Exceptions and [print] are explicit: a computation
    of type [Py A] carries the lines it printed and either a result or the
    exception it raised. *)

From stdpp Require Import base strings list sets numbers pretty sorting.
From Stdlib Require Import Ascii QArith Qcanon Lqa.

Local Open Scope Z_scope.
Set Warnings "-clear-no-such-hyp".

(** ** Cells

    [VNull] stands for NaN / NaT / None.  A finite float is a rational
    ([Qc], canonical fractions, so that equality of cells is equality of
    numbers).  The timestamp format of the program has no field below the
    minute, hence a timestamp is a number of minutes since the epoch. *)

Inductive cell :=
  | VNull
  | VStr (s : string)
  | VNum (q : Qc)
  | VTime (t : Z).

#[global] Instance cell_eq_dec : EqDecision cell.
Proof. solve_decision. Defined.

Abbreviation Series := (list cell).

Record DataFrame := mkDataFrame {
  nrows : nat;
  cols : list (string * Series)
}.

Definition columns (df : DataFrame) : list string := (cols df).*1.

(** [pd.DataFrame()] *)
Definition empty_frame : DataFrame := mkDataFrame 0 [].

(** [df.empty]: some axis has length zero. *)
Definition is_empty (df : DataFrame) : bool :=
  bool_decide (nrows df = 0%nat) || bool_decide (cols df = []).

(** Every series of a table has the length of the index. *)
Definition well_formed (df : DataFrame) : Prop :=
  Forall (λ c, length c.2 = nrows df) (cols df).

(** ** Exceptions and printed lines *)

Inductive exn :=
  | KeyError (k : string)
  | TypeError
  | ValueError
  | AttributeError
  | IndexError
  | OtherError (n : nat).

Inductive message :=
  | Error_loading_IMD_data (e : exn)
  | Warning_missing_date_columns (missing : list string)
  | Error_processing_file (e : exn).

Inductive res (A : Type) :=
  | Ok (a : A)
  | Raise (e : exn).
Arguments Ok {A} a.
Arguments Raise {A} e.

Record Py (A : Type) := mkPy { printed : list message; outcome : res A }.
Arguments mkPy {A} printed outcome.
Arguments printed {A} p.
Arguments outcome {A} p.

Definition ret {A} (a : A) : Py A := mkPy [] (Ok a).
Definition raise {A} (e : exn) : Py A := mkPy [] (Raise e).
Definition print (m : message) : Py unit := mkPy [m] (Ok tt).
Definition lift {A} (r : res A) : Py A := mkPy [] r.

Definition bind {A B} (m : Py A) (f : A → Py B) : Py B :=
  match outcome m with
  | Ok a => let r := f a in mkPy (printed m ++ printed r) (outcome r)
  | Raise e => mkPy (printed m) (Raise e)
  end.

#[global] Instance Py_ret : MRet Py := @ret.
#[global] Instance Py_bind : MBind Py := λ A B f m, bind m f.

(** [try: body except Exception as e: handler(e)] *)
Definition try_except {A} (body : Py A) (handler : exn → Py A) : Py A :=
  match outcome body with
  | Ok a => body
  | Raise e => let r := handler e in mkPy (printed body ++ printed r) (outcome r)
  end.

Fixpoint mapM {A B} (f : A → Py B) (l : list A) : Py (list B) :=
  match l with
  | [] => ret []
  | x :: l' => y ← f x; ys ← mapM f l'; ret (y :: ys)
  end.

(** ** Library functions

    What pandas, Python's [str] and scipy compute is not code of the
    program; the embedding takes these functions as given. *)

Inductive alternative := two_sided | less | greater.

Class Lib := {
  (** [str.upper] and [str.strip] *)
  str_upper : string → string;
  str_strip : string → string;
  (** [str(x)] of a number and of a timestamp, as [astype(str)] gives it *)
  str_of_num : Qc → string;
  str_of_time : Z → string;
  (** one string against the format ['%d-%b-%y %H:%M']; [None]: no match *)
  strptime : string → option Z;
  (** [pd.to_numeric] on a string cell and on a timestamp cell *)
  to_numeric_str : string → option Qc;
  to_numeric_time : Z → option Qc;
  (** [Timestamp.to_period('M')] printed, e.g. 2024-01 *)
  period_month_str : Z → string;
  (** [scipy.stats.mannwhitneyu] and [scipy.stats.kruskal]: statistic and
      p-value, either of which may be NaN *)
  mannwhitneyu : Series → Series → alternative → res (option Qc * option Qc);
  kruskal : list Series → res (option Qc * option Qc)
}.

(** ** Table primitives *)

Fixpoint lookup_col (cs : list (string * Series)) (c : string) : option Series :=
  match cs with
  | [] => None
  | (n, s) :: cs' => if decide (n = c) then Some s else lookup_col cs' c
  end.

(** [df[c]] *)
Definition getitem (df : DataFrame) (c : string) : Py Series :=
  match lookup_col (cols df) c with
  | Some s => ret s
  | None => raise (KeyError c)
  end.

Fixpoint assign_col (cs : list (string * Series)) (c : string) (s : Series)
  : list (string * Series) :=
  match cs with
  | [] => [(c, s)]
  | (n, s') :: cs' =>
      if decide (n = c) then (n, s) :: cs' else (n, s') :: assign_col cs' c s
  end.

(** [df[c] = s]: replaces the column in place, or appends it. *)
Definition setitem (df : DataFrame) (c : string) (s : Series) : DataFrame :=
  mkDataFrame (nrows df) (assign_col (cols df) c s).

(** [df[c] = scalar] *)
Definition setitem_scalar (df : DataFrame) (c : string) (v : cell) : DataFrame :=
  setitem df c (replicate (nrows df) v).

(** [df.drop(columns=names, errors='ignore')] *)
Definition drop_columns (df : DataFrame) (names : list string) : DataFrame :=
  mkDataFrame (nrows df) (filter (λ c, c.1 ∉ names) (cols df)).

(** [s.astype(str)] on one cell *)
Definition astype_str `{Lib} (v : cell) : string :=
  match v with
  | VNull => "nan"
  | VStr s => s
  | VNum q => str_of_num q
  | VTime t => str_of_time t
  end.

(** [s.replace(' ', '')] *)
Fixpoint remove_spaces (s : string) : string :=
  match s with
  | EmptyString => EmptyString
  | String a s' =>
      if decide (a = " "%char) then remove_spaces s' else String a (remove_spaces s')
  end.

(** [.astype(str).str.upper().str.replace(' ', '')], the key of both sides
    of the join. *)
Definition join_key `{Lib} (v : cell) : cell :=
  VStr (remove_spaces (str_upper (astype_str v))).

(** [df.rename(columns=f)] / [df.columns = df.columns.map(f)] *)
Definition rename_columns (f : string → string) (df : DataFrame) : DataFrame :=
  mkDataFrame (nrows df) (prod_map f id <$> cols df).

(** A [rename(columns={...})] dictionary as a function on names. *)
Fixpoint rename_map (d : list (string * string)) (c : string) : string :=
  match d with
  | [] => c
  | (old, new) :: d' => if decide (old = c) then new else rename_map d' c
  end.

(** [df[[c1; ...; cn]]] *)
Definition select (df : DataFrame) (names : list string) : Py DataFrame :=
  ss ← mapM (λ c, s ← getitem df c; ret (c, s)) names;
  ret (mkDataFrame (nrows df) ss).

(** Scalar comparisons of Python on one cell: a number compares, NaN
    compares false, a string or a timestamp against a number raises. *)
Definition Qc_leb (a b : Qc) : bool := bool_decide (a ≤ b)%Qc.
Definition Qc_ltb (a b : Qc) : bool := bool_decide (a < b)%Qc.

Definition le_num (v : cell) (k : Qc) : Py bool :=
  match v with
  | VNum q => ret (Qc_leb q k)
  | VNull => ret false
  | VStr _ | VTime _ => raise TypeError
  end.

Definition gt_num (v : cell) (k : Qc) : Py bool :=
  match v with
  | VNum q => ret (Qc_ltb k q)
  | VNull => ret false
  | VStr _ | VTime _ => raise TypeError
  end.

Definition isna (v : cell) : bool :=
  match v with VNull => true | _ => false end.

Definition num (z : Z) : Qc := Q2Qc (inject_Z z).

(** * The program *)

Section Program.
Context `{Lib}.

(** ** Configuration *)

Definition COLS_TO_DROP : list string := ["Surname"; "Forename"].

Definition IMD_DECILE_COL : string :=
  "LSOA containing postcode - Index of Multiple Deprivation (IMD) Decile (where 1 is most deprived 10% of LSOAs)".

Definition IMD_COLS : list string := ["Postcode"; IMD_DECILE_COL].

(** ** Reference data loader

    A file is represented by what the pandas reader makes of it: the table
    read, or the exception of the reader. *)

(** [pd.read_csv(filepath, usecols=names)] *)
Definition read_csv (file : res DataFrame) (usecols : list string) : Py DataFrame :=
  df ← lift file;
  if forallb (λ c, bool_decide (c ∈ columns df)) usecols
  then ret (mkDataFrame (nrows df) (filter (λ c, c.1 ∈ usecols) (cols df)))
  else raise ValueError.

Definition load_imd_data (filepath : res DataFrame) : Py DataFrame :=
  try_except
    (df_imd ← read_csv filepath IMD_COLS;
     let df_imd :=
       rename_columns
         (rename_map [("Postcode", "Postcode_Gov"); (IMD_DECILE_COL, "IMD_Decile")])
         df_imd in
     pc ← getitem df_imd "Postcode_Gov";
     ret (setitem df_imd "Join_Key" (join_key <$> pc)))
    (λ e, _ ← print (Error_loading_IMD_data e); ret empty_frame).

Definition map_quintile (decile : cell) : Py string :=
  if isna decile then ret "Unknown" else
  b2 ← le_num decile (num 2);
  if b2 : bool then ret "1 - Most Deprived" else
  b4 ← le_num decile (num 4);
  if b4 : bool then ret "2" else
  b6 ← le_num decile (num 6);
  if b6 : bool then ret "3" else
  b8 ← le_num decile (num 8);
  if b8 : bool then ret "4" else
  ret "5 - Least Deprived".

(** ** Ingestion *)

(** [pd.read_excel(filepath, header=4)] is the table [filepath] stands for. *)
Definition load_and_clean_pain_data (filepath : res DataFrame) : Py DataFrame :=
  df ← lift filepath;
  let df := rename_columns str_strip df in
  let df := drop_columns df (filter (λ c, c ∈ columns df) COLS_TO_DROP) in
  ret df.

Definition create_join_keys (df : DataFrame) : Py DataFrame :=
  pc ← getitem df "Postcode";
  ret (setitem df "Join_Key" (join_key <$> pc)).

(** ** Enrichment *)

(** Positions of [k] in the key column of the right table, in order. *)
Definition matches (rkeys : Series) (k : cell) : list nat :=
  filter (λ j, rkeys !! j = Some k) (seq 0 (length rkeys)).

(** The rows a left join makes of left row [i] with key [k]: one row per
    matching right row (in the order of the right table), or a single row
    without partner. *)
Definition rows_of (rkeys : Series) (i : nat) (k : cell) : list (nat * option nat) :=
  match matches rkeys k with
  | [] => [(i, None)]
  | js => (λ j, (i, Some j)) <$> js
  end.

(** The rows of a left join, left row after left row. *)
Definition merge_pairs (lkeys rkeys : Series) : list (nat * option nat) :=
  imap (rows_of rkeys) lkeys ≫= id.

Definition take (s : Series) (idx : list nat) : Series :=
  (λ i, default VNull (s !! i)) <$> idx.

Definition take_opt (s : Series) (idx : list (option nat)) : Series :=
  (λ oj, match oj with Some j => default VNull (s !! j) | None => VNull end) <$> idx.

(** [left.merge(right, on=on, how='left')]; a name the two tables share
    besides the key gets the suffixes [_x] and [_y]. *)
Definition merge_left (left right : DataFrame) (on : string) : Py DataFrame :=
  lk ← getitem left on;
  rk ← getitem right on;
  let pairs := merge_pairs lk rk in
  let shared c := bool_decide (c ≠ on ∧ c ∈ columns left ∧ c ∈ columns right) in
  let lcols :=
    (λ c, (if shared c.1 then c.1 +:+ "_x" else c.1, take c.2 pairs.*1))
      <$> cols left in
  let rcols :=
    (λ c, (if shared c.1 then c.1 +:+ "_y" else c.1, take_opt c.2 pairs.*2))
      <$> filter (λ c, c.1 ≠ on) (cols right) in
  ret (mkDataFrame (length pairs) (lcols ++ rcols)).

Definition merge_with_imd_data (df : DataFrame) (imd_df : option DataFrame)
  : Py DataFrame :=
  match imd_df with
  | Some imd =>
      if negb (is_empty imd) then
        sel ← select imd ["Join_Key"; "IMD_Decile"];
        df ← merge_left df sel "Join_Key";
        dec ← getitem df "IMD_Decile";
        quint ← mapM map_quintile dec;
        let df := setitem df "IMD_Quintile" (VStr <$> quint) in
        ret (drop_columns df ["Postcode"; "Join_Key"; "Postcode_Gov"])
      else ret (setitem_scalar df "IMD_Quintile" (VStr "Unknown"))
  | None => ret (setitem_scalar df "IMD_Quintile" (VStr "Unknown"))
  end.

(** ** Temporal derivation *)

(** [pd.to_datetime(cell, format='%d-%b-%y %H:%M', errors='coerce')]: a
    number is printed and then fails the format, which asks for a month
    name. *)
Definition to_datetime (v : cell) : cell :=
  match v with
  | VStr s => match strptime s with Some t => VTime t | None => VNull end
  | VTime t => VTime t
  | VNull | VNum _ => VNull
  end.

Fixpoint convert_date_columns (df : DataFrame) (date_cols : list string)
  : Py DataFrame :=
  match date_cols with
  | [] => ret df
  | col :: rest =>
      df ← (if bool_decide (col ∈ columns df)
            then s ← getitem df col; ret (setitem df col (to_datetime <$> s))
            else ret df);
      convert_date_columns df rest
  end.

(** [(a - b).dt.total_seconds() / 60] on one row: minutes between two
    timestamps, NaN when one of them is NaT.  Strings do not subtract, and
    numbers have no [.dt]. *)
Definition minutes_between (a b : cell) : Py cell :=
  match a, b with
  | VTime x, VTime y => ret (VNum (num (x - y)))
  | VTime _, VNull | VNull, VTime _ | VNull, VNull => ret VNull
  | VNum _, (VNum _ | VNull) | VNull, VNum _ => raise AttributeError
  | _, _ => raise TypeError
  end.

Definition series_minutes_between (a b : Series) : Py Series :=
  mapM (λ p, minutes_between p.1 p.2) (zip a b).

Definition required_date_cols : list string :=
  ["Arrival DTTM"; "Triage DTTM"; "First Pain Score DTTM";
   "First Analgesia DTTM"; "Second Pain Score DTTM"].

(** [df[c] = (df[a] - df[b]).dt.total_seconds() / 60] *)
Definition set_interval (df : DataFrame) (c a b : string) : Py DataFrame :=
  sa ← getitem df a;
  sb ← getitem df b;
  d ← series_minutes_between sa sb;
  ret (setitem df c d).

Definition calculate_time_intervals (df : DataFrame) : Py DataFrame :=
  let missing_cols := filter (λ col, col ∉ columns df) required_date_cols in
  if bool_decide (missing_cols ≠ []) then
    _ ← print (Warning_missing_date_columns missing_cols);
    ret df
  else if bool_decide ("Arrival DTTM" ∈ columns df) then
    df ← set_interval df "Time_to_Triage_Mins" "Triage DTTM" "Arrival DTTM";
    df ← set_interval df "Time_to_PS1_Mins" "First Pain Score DTTM" "Arrival DTTM";
    df ← set_interval df "Time_to_A1_Mins" "First Analgesia DTTM" "Arrival DTTM";
    df ← set_interval df "Time_to_PS2_Mins" "Second Pain Score DTTM" "Arrival DTTM";
    df ← set_interval df "A1_to_PS2_Mins" "Second Pain Score DTTM" "First Analgesia DTTM";
    df ← set_interval df "PS2_to_A1_Mins" "First Analgesia DTTM" "Second Pain Score DTTM";
    ret df
  else ret df.

(** ** Categorical derivation *)

Definition score_map : list (string * Z) :=
  [("No Pain", 0); ("Mild Pain", 1); ("Mod Pain", 2); ("Sev Pain", 3)].

Fixpoint dict_get {A} (d : list (string * A)) (k : string) : option A :=
  match d with
  | [] => None
  | (k', a) :: d' => if decide (k' = k) then Some a else dict_get d' k
  end.

(** [Series.map(dict)] on one cell: a key of the dictionary maps to its
    value, anything else to NaN. *)
Definition map_score (v : cell) : cell :=
  match v with
  | VStr s => match dict_get score_map s with Some n => VNum (num n) | None => VNull end
  | _ => VNull
  end.

(** Subtraction of two float cells. *)
Definition sub_float (a b : cell) : Py cell :=
  match a, b with
  | VNum x, VNum y => ret (VNum (x - y)%Qc)
  | VNum _, VNull | VNull, VNum _ | VNull, VNull => ret VNull
  | _, _ => raise TypeError
  end.

Definition calculate_pain_scores (df : DataFrame) : Py DataFrame :=
  first ← getitem df "First Pain Score";
  let df := setitem df "First_Score_Num" (map_score <$> first) in
  second ← getitem df "Second Pain Score";
  let df := setitem df "Second_Score_Num" (map_score <$> second) in
  s2 ← getitem df "Second_Score_Num";
  s1 ← getitem df "First_Score_Num";
  d ← mapM (λ p, sub_float p.1 p.2) (zip s2 s1);
  ret (setitem df "Pain_Score_Improvement" d).

(** [pd.to_numeric(cell, errors='coerce')] *)
Definition to_numeric (v : cell) : cell :=
  match v with
  | VNull => VNull
  | VNum q => VNum q
  | VStr s => from_option VNum VNull (to_numeric_str s)
  | VTime t => from_option VNum VNull (to_numeric_time t)
  end.

Definition age_bins : list Qc := num <$> [0; 15; 25; 35; 45; 55; 65; 75; 85; 95; 150].

Definition age_labels : list string :=
  ["0-15"; "15-25"; "25-35"; "35-45"; "45-55"; "55-65"; "65-75"; "75-85";
   "85-95"; "95+"].

(** [bins.searchsorted(x, side='right')]: the first position whose bin is
    greater than [x]. *)
Fixpoint searchsorted_right (bins : list Qc) (x : Qc) : nat :=
  match bins with
  | [] => 0%nat
  | b :: bins' => if Qc_leb b x then S (searchsorted_right bins' x) else 0%nat
  end.

(** [pd.cut(cell, bins=bins, labels=labels, right=False)] on a float cell:
    position [0] and position [len(bins)] are outside every band. *)
Definition cut (bins : list Qc) (labels : list string) (v : cell) : Py cell :=
  match v with
  | VNum x =>
      let ids := searchsorted_right bins x in
      if bool_decide (ids = length bins) || bool_decide (ids = 0%nat)
      then ret VNull
      else ret (from_option VStr VNull (labels !! (ids - 1)%nat))
  | VNull => ret VNull
  | VStr _ | VTime _ => raise TypeError
  end.

Definition create_age_groups (df : DataFrame) : Py DataFrame :=
  age ← getitem df "Age";
  let df := setitem df "Age" (to_numeric <$> age) in
  age ← getitem df "Age";
  g ← mapM (cut age_bins age_labels) age;
  ret (setitem df "Age_Group" g).

(** ** Compliance classifier *)

(** Boolean series. *)
Definition series_eq (s : Series) (k : cell) : list bool :=
  (λ v, bool_decide (v = k)) <$> s.
Definition series_le (s : Series) (k : Qc) : Py (list bool) :=
  mapM (λ v, le_num v k) s.
Definition series_gt (s : Series) (k : Qc) : Py (list bool) :=
  mapM (λ v, gt_num v k) s.
Definition mask_and (a b : list bool) : list bool := zip_with andb a b.
Definition mask_or (a b : list bool) : list bool := zip_with orb a b.

(** [np.where(mask, a, b)] *)
Definition np_where (mask : list bool) (a b : cell) : Series :=
  (λ m : bool, if m then a else b) <$> mask.

(** [len(df[mask])] *)
Definition count_rows (mask : list bool) : Z :=
  Z.of_nat (length (filter (λ m : bool, m = true) mask)).

Record Sankey := mkSankey {
  labels : list string;
  source : list Z;
  target : list Z;
  value : list Z;
  total_patients : Z;
  best_practice_yes : Z;
  best_practice_no : Z
}.

(** [f"{text} ({n})"] *)
Definition label (text : string) (n : Z) : string :=
  text +:+ " (" +:+ pretty n +:+ ")".

Definition calculate_best_practice (df : DataFrame) : Py (DataFrame * Sankey) :=
  fps ← getitem df "First Pain Score";
  a1 ← getitem df "Time_to_A1_Mins";
  a1_le_15 ← series_le a1 (num 15);
  a1ps2 ← getitem df "A1_to_PS2_Mins";
  a1ps2_le_30 ← series_le a1ps2 (num 30);
  a1ps2_gt_0 ← series_gt a1ps2 (num 0);
  let condition_mod :=
    mask_and (mask_and (mask_and (series_eq fps (VStr "Mod Pain")) a1_le_15)
                a1ps2_le_30) a1ps2_gt_0 in
  a1ps2_le_15 ← series_le a1ps2 (num 15);
  let condition_sev :=
    mask_and (mask_and (mask_and (series_eq fps (VStr "Sev Pain")) a1_le_15)
                a1ps2_le_15) a1ps2_gt_0 in
  ps1 ← getitem df "Time_to_PS1_Mins";
  ps1_le_15 ← series_le ps1 (num 15);
  let df :=
    setitem df "Best_Practice"
      (np_where (mask_and ps1_le_15 (mask_or condition_mod condition_sev))
         (VStr "Yes") (VStr "No")) in
  (* statistics for the Sankey chart *)
  let total_patients := Z.of_nat (nrows df) in
  let is_sev := series_eq fps (VStr "Sev Pain") in
  let is_mod := series_eq fps (VStr "Mod Pain") in
  let ps1_15_mins := count_rows ps1_le_15 in
  let severe_ps1_15_mins := count_rows (mask_and is_sev ps1_le_15) in
  let moderate_ps1_15_mins := count_rows (mask_and is_mod ps1_le_15) in
  bp ← getitem df "Best_Practice";
  let bp_yes := series_eq bp (VStr "Yes") in
  let best_practice_yes := count_rows bp_yes in
  let best_practice_no := count_rows (series_eq bp (VStr "No")) in
  let ps1_a1_15_mins := count_rows (mask_and ps1_le_15 a1_le_15) in
  let severe_ps1_a1_15_mins :=
    count_rows (mask_and (mask_and is_sev ps1_le_15) a1_le_15) in
  let moderate_ps1_a1_15_mins :=
    count_rows (mask_and (mask_and is_mod ps1_le_15) a1_le_15) in
  let severe_best_practice := count_rows (mask_and is_sev bp_yes) in
  let moderate_best_practice := count_rows (mask_and is_mod bp_yes) in
  let labels :=
    [ label "Total Patients" total_patients;
      label "PS1 <= 15 Mins" ps1_15_mins;
      label "PS1 > 15 Mins" (total_patients - ps1_15_mins);
      label "Severe Pain (PS1 <= 15 Mins)" severe_ps1_15_mins;
      label "Moderate Pain (PS1 <= 15 Mins)" moderate_ps1_15_mins;
      label "Sev Pain (PS1 & A1 <= 15 Mins)" severe_ps1_a1_15_mins;
      label "Mod Pain (PS1 & A1 <= 15 Mins)" moderate_ps1_a1_15_mins;
      label "Sev Pain (PS1&A1>15Mins)" (severe_ps1_15_mins - severe_ps1_a1_15_mins);
      label "Mod Pain (PS1&A1>15Mins)" (moderate_ps1_15_mins - moderate_ps1_a1_15_mins);
      label "Severe Pain Best Practice" severe_best_practice;
      label "Moderate Pain Best Practice" moderate_best_practice;
      label "Sev Pain (No Best Practice)" (severe_ps1_a1_15_mins - severe_best_practice);
      label "Mod Pain (No Best Practice)" (moderate_ps1_a1_15_mins - moderate_best_practice) ] in
  let source := [0; 0; 1; 1; 3; 3; 4; 4; 5; 5; 6; 6] in
  let target := [1; 2; 3; 4; 5; 7; 6; 8; 9; 11; 10; 12] in
  let value :=
    [ ps1_15_mins;
      total_patients - ps1_15_mins;
      severe_ps1_15_mins;
      moderate_ps1_15_mins;
      severe_ps1_a1_15_mins;
      severe_ps1_15_mins - severe_ps1_a1_15_mins;
      moderate_ps1_a1_15_mins;
      moderate_ps1_15_mins - moderate_ps1_a1_15_mins;
      severe_best_practice;
      severe_ps1_a1_15_mins - severe_best_practice;
      moderate_best_practice;
      moderate_ps1_a1_15_mins - moderate_best_practice ] in
  ret (df, mkSankey labels source target value total_patients
             best_practice_yes best_practice_no).

(** ** The pipeline

    The module defines [process_monthly_data] twice; the second definition
    replaces the first when the module is loaded, and is the one embedded
    here.  Its last stage rebinds [df] to the pair that
    [calculate_best_practice] returns, so the function returns a table, a
    pair, or [None]. *)

Inductive py_result :=
  | PyNone
  | PyFrame (df : DataFrame)
  | PyTuple (df : DataFrame) (sankey : Sankey).

(** [s.dt.to_period('M').astype(str)] on one cell *)
Definition report_month (v : cell) : Py cell :=
  match v with
  | VTime t => ret (VStr (period_month_str t))
  | VNull => ret (VStr "NaT")
  | VStr _ | VNum _ => raise AttributeError
  end.

Definition process_monthly_data (pain_data_file : res DataFrame)
    (imd_df : option DataFrame) : Py py_result :=
  try_except
    (df ← load_and_clean_pain_data pain_data_file;
     df ← create_join_keys df;
     df ← merge_with_imd_data df imd_df;
     df ← convert_date_columns df required_date_cols;
     if bool_decide ("Arrival DTTM" ∈ columns df) then
       arrival ← getitem df "Arrival DTTM";
       month ← mapM report_month arrival;
       let df := setitem df "Report_Month" month in
       df ← calculate_time_intervals df;
       df ← calculate_pain_scores df;
       df ← create_age_groups df;
       r ← calculate_best_practice df;
       ret (PyTuple r.1 r.2)
     else ret (PyFrame df))
    (λ e, _ ← print (Error_processing_file e); ret PyNone).

(** ** Statistical dispatcher *)

Definition dropna (s : Series) : Series := filter (λ v, v ≠ VNull) s.

(** [Series.unique()]: distinct values in order of first appearance. *)
Fixpoint unique (s : Series) : Series :=
  match s with
  | [] => []
  | v :: s' => v :: filter (λ w, w ≠ v) (unique s')
  end.

(** [s[mask]] *)
Fixpoint boolean_index {A} (mask : list bool) (s : list A) : list A :=
  match mask, s with
  | m :: mask', x :: s' =>
      if m then x :: boolean_index mask' s' else boolean_index mask' s'
  | _, _ => []
  end.

(** [df[mask]] *)
Definition filter_rows (df : DataFrame) (mask : list bool) : DataFrame :=
  mkDataFrame (length (filter (λ m : bool, m = true) mask))
    (prod_map id (boolean_index mask) <$> cols df).

(** The two dictionaries the function returns.  In [Stats_test] the
    p-value is a float, [None] standing for NaN; in [Stats_none] the entry
    [p_value] is Python's [None]. *)
Inductive stats_result :=
  | Stats_none (msg : string)
  | Stats_test (test : string) (p_value : option Qc) (significant : bool)
      (message : string).

Definition float_lt (p : option Qc) (k : Qc) : bool :=
  match p with Some q => Qc_ltb q k | None => false end.

Definition list_get {A} (l : list A) (i : nat) : Py A :=
  match l !! i with Some a => ret a | None => raise IndexError end.

Definition calculate_stats (df : DataFrame) (group_col target_col : string)
  : Py stats_result :=
  try_except
    (gc ← getitem df group_col;
     let groups := unique (dropna gc) in
     group_data ←
       mapM (λ g,
               gc ← getitem df group_col;
               t ← getitem (filter_rows df (series_eq gc g)) target_col;
               ret (dropna t)) groups;
     if bool_decide (length groups < 2)%nat then
       ret (Stats_none "Insufficient groups")
     else
       r ← (if bool_decide (length groups = 2%nat) then
              g0 ← list_get group_data 0;
              g1 ← list_get group_data 1;
              sp ← lift (mannwhitneyu g0 g1 two_sided);
              ret ("Mann-Whitney U", sp.2)
            else
              sp ← lift (kruskal group_data);
              ret ("Kruskal-Wallis", sp.2));
       let is_sig := float_lt r.2 (Q2Qc (5 # 100)) in
       let msg := if is_sig then "Statistically Significant Difference"
                  else "No Significant Difference" in
       ret (Stats_test r.1 r.2 is_sig msg))
    (λ _, ret (Stats_none "Error calculating stats")).

End Program.

(** * A library instance to run the program on concrete tables

    Plain ASCII text, whole numbers, and timestamps written exactly as
    [DD-Mon-YY HH:MM]. *)

Module Sample.

Definition upper_char (a : ascii) : ascii :=
  let n := nat_of_ascii a in
  if bool_decide (97 ≤ n ≤ 122)%nat then ascii_of_nat (n - 32) else a.

Fixpoint upper (s : string) : string :=
  match s with
  | EmptyString => EmptyString
  | String a s' => String (upper_char a) (upper s')
  end.

Fixpoint lstrip (s : string) : string :=
  match s with
  | String a s' => if decide (a = " "%char) then lstrip s' else s
  | EmptyString => EmptyString
  end.

Definition strip (s : string) : string :=
  String.rev (lstrip (String.rev (lstrip s))).

Definition digit (a : ascii) : option Z :=
  let n := nat_of_ascii a in
  if bool_decide (48 ≤ n ≤ 57)%nat then Some (Z.of_nat (n - 48)) else None.

Fixpoint digits (acc : Z) (s : string) : option Z :=
  match s with
  | EmptyString => Some acc
  | String a s' => d ← digit a; digits (10 * acc + d) s'
  end.

Definition parse_int (s : string) : option Z :=
  match s with
  | EmptyString => None
  | String "-" (String a s') => Z.opp <$> digits 0 (String a s')
  | _ => digits 0 s
  end.

Definition months : list (string * Z) :=
  [("Jan", 1); ("Feb", 2); ("Mar", 3); ("Apr", 4); ("May", 5); ("Jun", 6);
   ("Jul", 7); ("Aug", 8); ("Sep", 9); ("Oct", 10); ("Nov", 11); ("Dec", 12)].

(** Days since 1970-01-01 of a date of the proleptic Gregorian calendar. *)
Definition days_from_civil (y m d : Z) : Z :=
  let y := if bool_decide (m ≤ 2) then y - 1 else y in
  let era := y `div` 400 in
  let yoe := y - era * 400 in
  let doy := (153 * (if bool_decide (2 < m) then m - 3 else m + 9) + 2) `div` 5 + d - 1 in
  let doe := yoe * 365 + yoe `div` 4 - yoe `div` 100 + doy in
  era * 146097 + doe - 719468.

Definition civil_from_days (z : Z) : Z * Z * Z :=
  let z := z + 719468 in
  let era := z `div` 146097 in
  let doe := z - era * 146097 in
  let yoe := (doe - doe `div` 1460 + doe `div` 36524 - doe `div` 146096) `div` 365 in
  let doy := doe - (365 * yoe + yoe `div` 4 - yoe `div` 100) in
  let mp := (5 * doy + 2) `div` 153 in
  let d := doy - (153 * mp + 2) `div` 5 + 1 in
  let m := if bool_decide (mp < 10) then mp + 3 else mp - 9 in
  ((yoe + era * 400 + (if bool_decide (m ≤ 2) then 1 else 0)), m, d).

Definition days_in_month (y m : Z) : Z :=
  if bool_decide (m = 2) then
    if bool_decide (y `mod` 4 = 0 ∧ (y `mod` 100 ≠ 0 ∨ y `mod` 400 = 0)) then 29 else 28
  else if bool_decide (m ∈ [4; 6; 9; 11]) then 30 else 31.

(** Minutes since the epoch. *)
Definition timestamp (y m d hh mm : Z) : Z :=
  days_from_civil y m d * 1440 + hh * 60 + mm.

Definition two (a b : ascii) : option Z :=
  x ← digit a; y ← digit b; Some (10 * x + y).

Definition parse_datetime (s : string) : option Z :=
  match s with
  | String d1 (String d2 (String "-" (String m1 (String m2 (String m3
     (String "-" (String y1 (String y2 (String " " (String h1 (String h2
       (String ":" (String n1 (String n2 EmptyString)))))))))))))) =>
      d ← two d1 d2;
      m ← dict_get months (String m1 (String m2 (String m3 EmptyString)));
      yy ← two y1 y2;
      hh ← two h1 h2;
      mm ← two n1 n2;
      let y := if bool_decide (yy < 69) then 2000 + yy else 1900 + yy in
      if bool_decide (1 ≤ d ≤ days_in_month y m ∧ hh < 24 ∧ mm < 60)
      then Some (timestamp y m d hh mm) else None
  | _ => None
  end.

Definition month_str (t : Z) : string :=
  let '(y, m, _) := civil_from_days (t `div` 1440) in
  pretty y +:+ "-" +:+ (if bool_decide (m < 10) then "0" else "") +:+ pretty m.

(** Stand-ins for the two rank tests: an empty sample is refused, any other
    input gives statistic 0 and p-value 1. *)
Definition rank_test (samples : list Series) : res (option Qc * option Qc) :=
  if bool_decide (Exists (λ s, s = []) samples) then Raise ValueError
  else Ok (Some (num 0), Some (num 1)).

#[export] Instance lib : Lib := {
  str_upper := upper;
  str_strip := strip;
  str_of_num q :=
    if bool_decide (Qden q = 1%positive) then pretty (Qnum q) +:+ ".0"
    else pretty (Qnum q) +:+ "/" +:+ pretty (Zpos (Qden q));
  str_of_time t := pretty t;
  strptime := parse_datetime;
  to_numeric_str s := num <$> parse_int s;
  to_numeric_time _ := None;
  period_month_str := month_str;
  mannwhitneyu x y _ := rank_test [x; y];
  kruskal := rank_test
}.

End Sample.

(** * Vocabulary of the statements *)

(** The series of a column, if the table has it. *)
Definition column (df : DataFrame) (c : string) : option Series :=
  lookup_col (cols df) c.

(** A cell of a float column: a number or NaN. *)
Definition float_cell (v : cell) : Prop :=
  match v with VNum _ | VNull => True | VStr _ | VTime _ => False end.

(** A cell of a datetime column: a timestamp or NaT. *)
Definition datetime_cell (v : cell) : Prop :=
  match v with VTime _ | VNull => True | VStr _ | VNum _ => False end.

(** [v ≤ k] and [k < v] for a cell against a whole number: the cell holds a
    number, and that number compares so. *)
Definition cell_le (v : cell) (k : Z) : Prop := ∃ q, v = VNum q ∧ (q ≤ num k)%Qc.
Definition cell_gt (v : cell) (k : Z) : Prop := ∃ q, v = VNum q ∧ (num k < q)%Qc.

(** The same comparisons as booleans, false on anything but a number. *)
Definition cell_leb (k : Qc) (v : cell) : bool :=
  match v with VNum q => Qc_leb q k | _ => false end.
Definition cell_gtb (k : Qc) (v : cell) : bool :=
  match v with VNum q => Qc_ltb k q | _ => false end.

(** The compliance rule in the words of the specification. *)
Definition best_practice_rule (first_pain_score ps1 a1 a1_to_ps2 : cell) : Prop :=
  cell_le ps1 15 ∧
  ((first_pain_score = VStr "Mod Pain" ∧ cell_le a1 15
      ∧ cell_gt a1_to_ps2 0 ∧ cell_le a1_to_ps2 30)
   ∨ (first_pain_score = VStr "Sev Pain" ∧ cell_le a1 15
      ∧ cell_gt a1_to_ps2 0 ∧ cell_le a1_to_ps2 15)).

(** A table of one audit record, with the four columns the classifier
    reads. *)
Definition audit_record (first_pain_score ps1 a1 a1_to_ps2 : cell) : DataFrame :=
  mkDataFrame 1
    [("First Pain Score", [first_pain_score]);
     ("Time_to_PS1_Mins", [ps1]);
     ("Time_to_A1_Mins", [a1]);
     ("A1_to_PS2_Mins", [a1_to_ps2])].

(** The funnel as a graph: its edges, the sum of the counts on the edges
    that leave a node, and the count of a node, which is the total for the
    root and the count on the edge that enters it for any other node. *)
Definition edges (sk : Sankey) : list (Z * Z * Z) :=
  zip (zip (source sk) (target sk)) (value sk).

Definition sum_Z (l : list Z) : Z := foldr Z.add 0 l.

Definition children_sum (sk : Sankey) (parent : Z) : Z :=
  sum_Z ((λ e, if e.1.1 =? parent then e.2 else 0) <$> edges sk).

Definition node_count (sk : Sankey) (node : Z) : Z :=
  if node =? 0 then total_patients sk
  else sum_Z ((λ e, if e.1.2 =? node then e.2 else 0) <$> edges sk).

(** [pd.cut] on a cell of a float column, where it does not raise. *)
Definition cut_float (bins : list Qc) (labels : list string) (v : cell) : cell :=
  match v with
  | VNum x =>
      let ids := searchsorted_right bins x in
      if bool_decide (ids = length bins) || bool_decide (ids = 0%nat)
      then VNull
      else from_option VStr VNull (labels !! (ids - 1)%nat)
  | _ => VNull
  end.


(** A table of one record with its [Age]. *)
Definition age_record (age : cell) : DataFrame := mkDataFrame 1 [("Age", [age])].

(** The six intervals in the words of the specification: name, later
    event, earlier event. *)
Definition interval_columns : list (string * string * string) :=
  [("Time_to_Triage_Mins", "Triage DTTM", "Arrival DTTM");
   ("Time_to_PS1_Mins", "First Pain Score DTTM", "Arrival DTTM");
   ("Time_to_A1_Mins", "First Analgesia DTTM", "Arrival DTTM");
   ("Time_to_PS2_Mins", "Second Pain Score DTTM", "Arrival DTTM");
   ("A1_to_PS2_Mins", "Second Pain Score DTTM", "First Analgesia DTTM");
   ("PS2_to_A1_Mins", "First Analgesia DTTM", "Second Pain Score DTTM")].

(** Signed minutes from [earlier] to [later]; null when either is null. *)
Definition minutes_diff (later earlier : cell) : cell :=
  match later, earlier with
  | VTime x, VTime y => VNum (num (x - y))
  | _, _ => VNull
  end.

(** A table with the five timestamp columns, one record. *)
Definition timestamps_record (arrival triage ps1 a1 ps2 : cell) : DataFrame :=
  mkDataFrame 1
    [("Arrival DTTM", [arrival]); ("Triage DTTM", [triage]);
     ("First Pain Score DTTM", [ps1]); ("First Analgesia DTTM", [a1]);
     ("Second Pain Score DTTM", [ps2])].

(** The quintile of a decile in the words of the specification. *)
Definition quintile_of (decile : cell) : string :=
  match decile with
  | VNum q =>
      if Qc_leb q (num 2) then "1 - Most Deprived"
      else if Qc_leb q (num 4) then "2"
      else if Qc_leb q (num 6) then "3"
      else if Qc_leb q (num 8) then "4"
      else "5 - Least Deprived"
  | _ => "Unknown"
  end.

(** The table [merge_with_imd_data] builds when reference data is there:
    [lk] and [rk] are the key columns of the two tables, [dec] the deciles
    of the reference table. *)
Definition enriched (df : DataFrame) (lk rk dec : Series) : DataFrame :=
  let pairs := merge_pairs lk rk in
  let d := take_opt dec pairs.*2 in
  drop_columns
    (setitem
       (mkDataFrame (length pairs)
          (((λ c, (c.1, take c.2 pairs.*1)) <$> cols df) ++ [("IMD_Decile", d)]))
       "IMD_Quintile" (VStr <$> (quintile_of <$> d)))
    ["Postcode"; "Join_Key"; "Postcode_Gov"].

(** The table of the unavailable branch. *)
Definition unenriched (df : DataFrame) : DataFrame :=
  setitem_scalar df "IMD_Quintile" (VStr "Unknown").

(** A patient table of one record and a reference table, both already
    keyed, for the examples of the join. *)
Definition keyed_patient (postcode key : string) : DataFrame :=
  mkDataFrame 1
    [("Postcode", [VStr postcode]); ("Age", [VNum (num 40)]);
     ("Join_Key", [VStr key])].

Definition reference (entries : list (string * Z)) : DataFrame :=
  mkDataFrame (length entries)
    [("Postcode_Gov", (λ e, VStr e.1) <$> entries);
     ("IMD_Decile", (λ e, VNum (num e.2)) <$> entries);
     ("Join_Key", (λ e, VStr e.1) <$> entries)].

(** A reference file as [pd.read_csv] reads it, and a patient export of one
    record as [pd.read_excel] reads it. *)
Definition reference_file (entries : list (string * cell)) : DataFrame :=
  mkDataFrame (length entries)
    [("Postcode", (λ e, VStr e.1) <$> entries);
     ("Local Authority", (λ _, VStr "E09") <$> entries);
     (IMD_DECILE_COL, (λ e, e.2) <$> entries)].

Definition patient_file (postcode : cell) : DataFrame :=
  mkDataFrame 1 [("Postcode", [postcode]); ("Age", [VNum (num 40)])].

(** A complete export of one record, and the same export without its
    [Postcode] column. *)
Definition export_without_postcode : DataFrame :=
  mkDataFrame 1
    [("Age", [VNum (num 40)]); ("Gender", [VStr "F"]);
     ("Arrival DTTM", [VStr "05-Jan-24 10:00"]);
     ("Triage DTTM", [VStr "05-Jan-24 10:12"]);
     ("First Pain Score DTTM", [VStr "05-Jan-24 10:10"]);
     ("First Pain Score", [VStr "Sev Pain"]);
     ("First Analgesia DTTM", [VStr "05-Jan-24 10:15"]);
     ("Second Pain Score DTTM", [VStr "05-Jan-24 10:30"]);
     ("Second Pain Score", [VStr "Mild Pain"])].

Definition export_with_postcode : DataFrame :=
  mkDataFrame 1 (("Postcode", [VStr "AB1 2CD"]) :: cols export_without_postcode).


(** The columns the stages after the conversion of the dates derive. *)
Definition derived_columns : list string :=
  ["Report_Month"; "First_Score_Num"; "Second_Score_Num";
   "Pain_Score_Improvement"; "Age_Group"; "Best_Practice"].

(** A table of four records in two or three groups, for the dispatcher. *)
Definition waits_by_group (group wait : cell) : DataFrame :=
  mkDataFrame 4
    [("Gender", [VStr "F"; VStr "M"; VNull; group]);
     ("Time_to_A1_Mins", [VNum (num 10); VNum (num 25); VNum (num 5); wait])].

(** A computation that prints nothing. *)
Definition silent {A} (m : Py A) : Prop := printed m = [].

(** What a run returned, if it returned. *)
Definition returned {A} (m : Py A) : option A :=
  match outcome m with Ok a => Some a | Raise _ => None end.

(** The timestamp a cell of a date column stands for: that of a string
    that matches the format, or the cell's own when it is a timestamp
    already; a null, a number or any other text stands for none. *)
Definition timestamp_of `{Lib} (v : cell) : option Z :=
  match v with
  | VStr s => strptime s
  | VTime t => Some t
  | VNull | VNum _ => None
  end.

(** Signed minutes from [earlier] to [later], null when one is missing. *)
Definition minutes_apart (later earlier : option Z) : cell :=
  match later, earlier with
  | Some a, Some b => VNum (num (a - b))
  | _, _ => VNull
  end.

(** The order of the rows of the join: by patient row and, for one patient
    row, by reference entry. *)
Definition row_before (p q : nat * option nat) : Prop :=
  (p.1 < q.1)%nat
  ∨ (p.1 = q.1
     ∧ match p.2, q.2 with
       | Some a, Some b => (a < b)%nat
       | _, _ => False
       end).

(** ** Vocabulary of the further properties *)

(** The names of the six interval columns. *)
Definition interval_names : list string := (λ e, e.1.1) <$> interval_columns.

(** The table [calculate_time_intervals] builds from the five timestamp
    series. *)
Definition with_intervals (df : DataFrame) (arr tri ps1 a1 ps2 : Series) : DataFrame :=
  let df := setitem df "Time_to_Triage_Mins" (zip_with minutes_diff tri arr) in
  let df := setitem df "Time_to_PS1_Mins" (zip_with minutes_diff ps1 arr) in
  let df := setitem df "Time_to_A1_Mins" (zip_with minutes_diff a1 arr) in
  let df := setitem df "Time_to_PS2_Mins" (zip_with minutes_diff ps2 arr) in
  let df := setitem df "A1_to_PS2_Mins" (zip_with minutes_diff ps2 a1) in
  setitem df "PS2_to_A1_Mins" (zip_with minutes_diff a1 ps2).

(** The five timestamp columns exist and hold timestamps (or NaT), as
    after [convert_date_columns]. *)
Definition timestamps_converted (df : DataFrame) : Prop :=
  ∀ c, c ∈ required_date_cols →
       ∃ s, column df c = Some s ∧ Forall datetime_cell s.

(** Subtraction of two float cells, where it does not raise. *)
Definition float_sub (a b : cell) : cell :=
  match a, b with
  | VNum x, VNum y => VNum (x - y)%Qc
  | _, _ => VNull
  end.

(** The table [calculate_pain_scores] builds from the two label series. *)
Definition with_scores (df : DataFrame) (first second : Series) : DataFrame :=
  let df := setitem df "First_Score_Num" (map_score <$> first) in
  let df := setitem df "Second_Score_Num" (map_score <$> second) in
  setitem df "Pain_Score_Improvement"
    (zip_with float_sub (map_score <$> second) (map_score <$> first)).

(** The score of a pain label, if it is one of the four. *)
Definition pain_score (label : cell) : option Z :=
  match label with
  | VStr s => dict_get score_map s
  | _ => None
  end.

(** One record whose five timestamps are converted; the second pain score
    was not taken. *)
Definition converted_record : DataFrame :=
  timestamps_record (VTime (Sample.timestamp 2024 1 5 10 0))
    (VTime (Sample.timestamp 2024 1 5 10 12))
    (VTime (Sample.timestamp 2024 1 5 10 10))
    (VTime (Sample.timestamp 2024 1 5 10 15)) VNull.

(** The columns of the reference table the loader builds. *)
Definition reference_columns : list string :=
  ["Postcode_Gov"; "IMD_Decile"; "Join_Key"].

(** A reference file the loader cannot use: the reader raised, or one of
    the two columns it asks for is not in the file. *)
Definition unloadable (file : res DataFrame) : Prop :=
  match file with
  | Raise _ => True
  | Ok t => ∃ c, c ∈ IMD_COLS ∧ c ∉ columns t
  end.

(** A reference file of two entries under a header that lacks the decile
    column. *)
Definition reference_file_without_decile : DataFrame :=
  mkDataFrame 2
    [("Postcode", [VStr "AB1 2CD"; VStr "EF3 4GH"]);
     ("Local Authority", [VStr "E09"; VStr "E09"])].


(** The columns the pipeline adds when it runs to its end. *)
Definition added_columns : list string :=
  "IMD_Quintile" :: derived_columns ++ interval_names.

(** The columns of the join that enrichment drops when reference data is
    there. *)
Definition join_columns : list string := ["Postcode"; "Join_Key"; "Postcode_Gov"].


(** Printed lines that are all warnings about missing date columns. *)
Definition warnings_only (pr : list message) : Prop :=
  Forall (λ m, ∃ missing, m = Warning_missing_date_columns missing) pr.

(** The table of a result of the pipeline, if it has one. *)
Definition table_of (r : py_result) : option DataFrame :=
  match r with
  | PyNone => None
  | PyFrame df => Some df
  | PyTuple df _ => Some df
  end.

(** The names of the columns of the export after ingestion: stripped. *)
Definition headers `{Lib} (t : DataFrame) : list string := str_strip <$> columns t.

(** Every name the pipeline itself gives to a column. *)
Definition pipeline_names : list string :=
  "Join_Key" :: "IMD_Decile" :: added_columns.

(** What the pipeline makes of [patient_file] with the postcode ab1 2cd
    when there is no reference data. *)
Definition processed_patient_file : DataFrame :=
  mkDataFrame 1
    [("Postcode", [VStr "ab1 2cd"]); ("Age", [VNum (num 40)]);
     ("Join_Key", [VStr "AB12CD"]); ("IMD_Quintile", [VStr "Unknown"])].

(** A complete export but for the time of the second pain score. *)
Definition export_without_second_score_time : DataFrame :=
  mkDataFrame 1
    (filter (λ c, c.1 ≠ "Second Pain Score DTTM") (cols export_with_postcode)).

(** * Properties *)

Example sample_timestamp :
  Sample.parse_datetime "05-Jan-24 10:12" = Some (Sample.timestamp 2024 1 5 10 12)
  ∧ Sample.month_str (Sample.timestamp 2024 1 5 10 12) = "2024-01"
  ∧ Sample.parse_datetime "31-Feb-24 10:12" = None
  ∧ Sample.upper "ab1 2cd" = "AB1 2CD"
  ∧ Sample.strip "  Age " = "Age".
Proof. vm_compute. done. Qed.

(** ** The monad *)

Lemma bind_ret {A B} (a : A) (f : A → Py B) : (x ← ret a; f x) = f a.
Proof. unfold mbind, Py_bind, bind. simpl. by destruct (f a). Qed.

Lemma bind_raise {A B} (e : exn) (f : A → Py B) : (x ← raise e; f x) = raise e.
Proof. done. Qed.

Lemma mapM_pure {A B} (f : A → Py B) (g : A → B) (l : list A) :
  Forall (λ x, f x = ret (g x)) l → mapM f l = ret (g <$> l).
Proof.
  induction 1 as [|x l Hx _ IH]; [done|].
  simpl. rewrite Hx, bind_ret, IH, bind_ret. done.
Qed.

(** ** Columns *)

Lemma lookup_assign_eq cs c s : lookup_col (assign_col cs c s) c = Some s.
Proof.
  induction cs as [|[n s'] cs IH]; simpl.
  - by rewrite decide_True.
  - destruct (decide (n = c)) as [->|Hne]; simpl.
    + by rewrite decide_True.
    + by rewrite decide_False.
Qed.

Lemma lookup_assign_ne cs c c' s :
  c ≠ c' → lookup_col (assign_col cs c s) c' = lookup_col cs c'.
Proof.
  intros Hne. induction cs as [|[n s'] cs IH]; simpl.
  - by rewrite decide_False.
  - destruct (decide (n = c)) as [->|Hn]; simpl.
    + by rewrite !decide_False.
    + by rewrite IH.
Qed.

Lemma lookup_col_is_Some cs c : is_Some (lookup_col cs c) ↔ c ∈ cs.*1.
Proof.
  induction cs as [|[n s] cs IH]; simpl.
  - split; [by intros [? ?]|intros ?%elem_of_nil; done].
  - rewrite elem_of_cons. destruct (decide (n = c)) as [->|Hne].
    + split; eauto.
    + rewrite IH. split; [by right|]. by intros [?|?]; [simplify_eq|].
Qed.

Lemma lookup_col_None cs c : lookup_col cs c = None ↔ c ∉ cs.*1.
Proof. rewrite <-lookup_col_is_Some, eq_None_not_Some. done. Qed.

Lemma assign_col_names cs c s x :
  x ∈ (assign_col cs c s).*1 ↔ x = c ∨ x ∈ cs.*1.
Proof.
  induction cs as [|[n s'] cs IH]; simpl.
  - rewrite list_elem_of_singleton. set_solver.
  - destruct (decide (n = c)) as [->|Hne]; simpl; set_solver.
Qed.

Lemma column_setitem_eq df c s : column (setitem df c s) c = Some s.
Proof. apply lookup_assign_eq. Qed.

Lemma column_setitem_ne df c c' s :
  c ≠ c' → column (setitem df c s) c' = column df c'.
Proof. apply lookup_assign_ne. Qed.

Lemma getitem_column df c s : column df c = Some s → getitem df c = ret s.
Proof. unfold column, getitem. by intros ->. Qed.

Lemma columns_setitem df c s x :
  x ∈ columns (setitem df c s) ↔ x = c ∨ x ∈ columns df.
Proof. apply assign_col_names. Qed.

(** ** Comparisons on float columns *)

Lemma series_le_float s k :
  Forall float_cell s → series_le s k = ret (cell_leb k <$> s).
Proof.
  intros Hs. apply mapM_pure. eapply Forall_impl; [exact Hs|].
  by intros [] ?.
Qed.

Lemma series_gt_float s k :
  Forall float_cell s → series_gt s k = ret (cell_gtb k <$> s).
Proof.
  intros Hs. apply mapM_pure. eapply Forall_impl; [exact Hs|].
  by intros [] ?.
Qed.

Lemma cell_leb_le v k : cell_leb (num k) v = true ↔ cell_le v k.
Proof.
  unfold cell_le. destruct v as [|s|q|t]; simpl;
    try (split; [done|by intros (? & ? & ?)]).
  unfold Qc_leb. rewrite bool_decide_eq_true. naive_solver.
Qed.

Lemma cell_gtb_gt v k : cell_gtb (num k) v = true ↔ cell_gt v k.
Proof.
  unfold cell_gt. destruct v as [|s|q|t]; simpl;
    try (split; [done|by intros (? & ? & ?)]).
  unfold Qc_ltb. rewrite bool_decide_eq_true. naive_solver.
Qed.

(** ** Compliance classifier *)

(** On float columns no comparison raises: the function runs to its end,
    and its monadic steps are replaced by the boolean series they return. *)
Ltac run_best_practice Hfps Hps1 Ha1 Ha1ps2 Fps1 Fa1 Fa1ps2 :=
  unfold calculate_best_practice;
  rewrite (getitem_column _ _ _ Hfps), bind_ret;
  rewrite (getitem_column _ _ _ Ha1), bind_ret;
  rewrite (series_le_float _ _ Fa1), bind_ret;
  rewrite (getitem_column _ _ _ Ha1ps2), bind_ret;
  rewrite !(series_le_float _ _ Fa1ps2), !bind_ret;
  rewrite !(series_gt_float _ _ Fa1ps2), !bind_ret;
  rewrite (getitem_column _ _ _ Hps1), bind_ret;
  rewrite (series_le_float _ _ Fps1), bind_ret;
  rewrite (getitem_column _ _ _ (column_setitem_eq _ _ _)), bind_ret.

Lemma rule_as_bool f p a d :
  best_practice_rule f p a d ↔
  cell_leb (num 15) p &&
    (bool_decide (f = VStr "Mod Pain") && cell_leb (num 15) a
       && cell_leb (num 30) d && cell_gtb (num 0) d
     || bool_decide (f = VStr "Sev Pain") && cell_leb (num 15) a
       && cell_leb (num 15) d && cell_gtb (num 0) d) = true.
Proof.
  unfold best_practice_rule.
  rewrite andb_true_iff, orb_true_iff, !andb_true_iff, !bool_decide_eq_true,
    !cell_leb_le, !cell_gtb_gt.
  tauto.
Qed.

Section BestPractice.
Variables (df : DataFrame) (fps ps1 a1 a1ps2 : Series).
Hypothesis Hfps : column df "First Pain Score" = Some fps.
Hypothesis Hps1 : column df "Time_to_PS1_Mins" = Some ps1.
Hypothesis Ha1 : column df "Time_to_A1_Mins" = Some a1.
Hypothesis Ha1ps2 : column df "A1_to_PS2_Mins" = Some a1ps2.
Hypothesis Fps1 : Forall float_cell ps1.
Hypothesis Fa1 : Forall float_cell a1.
Hypothesis Fa1ps2 : Forall float_cell a1ps2.

(** C1.  On a table that has the four columns, the three interval columns
    being float columns, [calculate_best_practice] returns, and in every
    record [Best_Practice] is "Yes" when the rule of the specification
    holds of First Pain Score, Time_to_PS1_Mins, Time_to_A1_Mins and
    A1_to_PS2_Mins, and "No" when it does not.  Any other table with the
    same four columns gets the same [Best_Practice] column. *)
Theorem best_practice_follows_rule :
  ∃ df' sk bp,
    calculate_best_practice df = ret (df', sk)
    ∧ column df' "Best_Practice" = Some bp
    ∧ (∀ i f p a d,
         fps !! i = Some f → ps1 !! i = Some p →
         a1 !! i = Some a → a1ps2 !! i = Some d →
         (best_practice_rule f p a d → bp !! i = Some (VStr "Yes"))
         ∧ (¬ best_practice_rule f p a d → bp !! i = Some (VStr "No")))
    ∧ (∀ df2,
         column df2 "First Pain Score" = Some fps →
         column df2 "Time_to_PS1_Mins" = Some ps1 →
         column df2 "Time_to_A1_Mins" = Some a1 →
         column df2 "A1_to_PS2_Mins" = Some a1ps2 →
         ∃ df2' sk2,
           calculate_best_practice df2 = ret (df2', sk2)
           ∧ column df2' "Best_Practice" = Some bp).
Proof.
  run_best_practice Hfps Hps1 Ha1 Ha1ps2 Fps1 Fa1 Fa1ps2.
  eexists _, _, _. split; [reflexivity|].
  split; [apply column_setitem_eq|]. split.
  - intros i f p a d Hf Hp Ha Hd.
    unfold np_where, mask_and, mask_or, series_eq.
    rewrite list_lookup_fmap, !lookup_zip_with, !list_lookup_fmap.
    rewrite Hf, Hp, Ha, Hd. simpl.
    rewrite (rule_as_bool f p a d).
    destruct (cell_leb (num 15) p && _); split; intros ?; done.
  - intros df2 Hfps2 Hps12 Ha12 Ha1ps22.
    run_best_practice Hfps2 Hps12 Ha12 Ha1ps22 Fps1 Fa1 Fa1ps2.
    eexists _, _. split; [reflexivity|]. apply column_setitem_eq.
Qed.

End BestPractice.

Lemma best_practice_follows_rule_witness :
  let df := audit_record (VStr "Sev Pain") (VNum (num 10)) (VNum (num 15))
              (VNum (num 15)) in
  ∃ df' sk bp,
    calculate_best_practice df = ret (df', sk)
    ∧ column df' "Best_Practice" = Some bp
    ∧ bp !! 0%nat = Some (VStr "Yes").
Proof.
  intros df.
  destruct (best_practice_follows_rule df
              [VStr "Sev Pain"] [VNum (num 10)] [VNum (num 15)] [VNum (num 15)])
    as (df' & sk & bp & Hrun & Hcol & Hrows & _);
    try reflexivity; try (repeat constructor).
  exists df', sk, bp. split; [exact Hrun|]. split; [exact Hcol|].
  apply (Hrows 0%nat (VStr "Sev Pain") (VNum (num 10)) (VNum (num 15))
           (VNum (num 15))); try reflexivity.
  split; [by eexists; split; [reflexivity|vm_compute]|].
  right. split; [reflexivity|].
  repeat split; eexists; (split; [reflexivity|by vm_compute]).
Defined.

(** The examples of the specification, run on the code: fifteen minutes
    from analgesia to the second score comply for severe pain, zero and
    sixteen do not. *)
Example best_practice_examples :
  let run d :=
    r ← returned (calculate_best_practice
                    (audit_record (VStr "Sev Pain") (VNum (num 10))
                       (VNum (num 15)) (VNum (num d))));
    column r.1 "Best_Practice" in
  run 15 = Some [VStr "Yes"] ∧ run 0 = Some [VStr "No"] ∧ run 16 = Some [VStr "No"]
  ∧ run (-3) = Some [VStr "No"].
Proof. vm_compute. done. Qed.

(** ** Counting rows under a mask *)

Lemma count_rows_nonneg m : 0 ≤ count_rows m.
Proof. unfold count_rows. lia. Qed.

Lemma count_rows_cons (x : bool) m :
  count_rows (x :: m) = (if x then 1 else 0) + count_rows m.
Proof.
  unfold count_rows. rewrite filter_cons.
  destruct x; case_decide; simpl; try done; lia.
Qed.

Lemma count_rows_length m : count_rows m ≤ Z.of_nat (length m).
Proof. unfold count_rows. pose proof (length_filter (λ x : bool, x = true) m). lia. Qed.

(** Two masks that never hold on the same row, each holding only where a
    third one does, select together at most as many rows as the third. *)
Lemma count_rows_disjoint (a b c : list bool) :
  (∀ i, a !! i = Some true → c !! i = Some true) →
  (∀ i, b !! i = Some true → c !! i = Some true) →
  (∀ i, a !! i = Some true → b !! i = Some true → False) →
  count_rows a + count_rows b ≤ count_rows c.
Proof.
  revert a b. induction c as [|x c IH]; intros a b Ha Hb Hab.
  - assert (∀ m : list bool, (∀ i, m !! i = Some true → @nil bool !! i = Some true)
                → count_rows m = 0) as Hz.
    { induction m as [|y m IHm]; intros Hm; [done|].
      rewrite count_rows_cons, IHm.
      - destruct y; [|done]. by specialize (Hm 0%nat eq_refl).
      - intros i Hi. by specialize (Hm (S i) Hi). }
    rewrite (Hz a Ha), (Hz b Hb). done.
  - specialize (IH (tail a) (tail b)).
    assert (count_rows (tail a) + count_rows (tail b) ≤ count_rows c) as Ht.
    { apply IH.
      - intros i Hi. apply (Ha (S i)). by destruct a.
      - intros i Hi. apply (Hb (S i)). by destruct b.
      - intros i Hi Hj. apply (Hab (S i)); [by destruct a|by destruct b]. }
    assert (∀ m : list bool, head m = Some true → (∀ i, m !! i = Some true →
              (x :: c) !! i = Some true) → x = true) as Hhead.
    { intros [|[] m] Hm Hi; simplify_eq/=. by specialize (Hi 0%nat eq_refl) as [= ->]. }
    assert (head a = Some true → head b = Some true → False) as Hboth.
    { destruct a as [|[] a], b as [|[] b]; intros ??; simplify_eq/=.
      by apply (Hab 0%nat). }
    pose proof (λ E, Hhead a E Ha) as Hxa. pose proof (λ E, Hhead b E Hb) as Hxb.
    clear IH Ha Hb Hab Hhead.
    rewrite count_rows_cons.
    destruct a as [|[] a], b as [|[] b]; rewrite ?count_rows_cons; simpl in *;
      try (by destruct Hboth);
      try (rewrite (Hxa eq_refl)); try (rewrite (Hxb eq_refl));
      try (destruct x); unfold count_rows in *; simpl in *; lia.
Qed.

Lemma count_rows_mono (a c : list bool) :
  (∀ i, a !! i = Some true → c !! i = Some true) →
  count_rows a ≤ count_rows c.
Proof.
  intros Ha. pose proof (count_rows_disjoint a [] c Ha) as Hd.
  unfold count_rows in *. simpl in *.
  assert (∀ i, @nil bool !! i = Some true → c !! i = Some true) as H1 by done.
  assert (∀ i, a !! i = Some true → @nil bool !! i = Some true → False) as H2 by done.
  specialize (Hd H1 H2). lia.
Qed.

Lemma mask_and_true a b i :
  mask_and a b !! i = Some true ↔ a !! i = Some true ∧ b !! i = Some true.
Proof.
  unfold mask_and. rewrite lookup_zip_with_Some. split.
  - intros (x & y & Hxy & -> & ->). symmetry in Hxy.
    apply andb_true_iff in Hxy as [-> ->]. done.
  - intros [? ?]. by exists true, true.
Qed.

Lemma mask_or_true a b i :
  mask_or a b !! i = Some true → a !! i = Some true ∨ b !! i = Some true.
Proof.
  unfold mask_or. rewrite lookup_zip_with_Some.
  intros (x & y & Hxy & -> & ->). symmetry in Hxy.
  apply orb_true_iff in Hxy as [-> | ->]; auto.
Qed.

Lemma series_eq_true s k i : series_eq s k !! i = Some true ↔ s !! i = Some k.
Proof.
  unfold series_eq. rewrite list_lookup_fmap.
  destruct (s !! i) as [v|]; simpl; [|done].
  split.
  - intros [= Hv%bool_decide_eq_true]. by subst.
  - intros [= ->]. by rewrite bool_decide_eq_true_2.
Qed.

Lemma np_where_yes m i :
  series_eq (np_where m (VStr "Yes") (VStr "No")) (VStr "Yes") !! i = Some true
  ↔ m !! i = Some true.
Proof.
  rewrite series_eq_true. unfold np_where. rewrite list_lookup_fmap.
  destruct (m !! i) as [[]|]; simpl; split; intros; simplify_eq; done.
Qed.

Lemma column_length df c s :
  well_formed df → column df c = Some s → length s = nrows df.
Proof.
  unfold well_formed, column. induction 1 as [|[n s'] cs Hx _ IH]; simpl; [done|].
  case_decide; [by intros [= <-]|done].
Qed.

(** ** The funnel *)

Section Funnel.
Variables (df : DataFrame) (fps ps1 a1 a1ps2 : Series).
Hypothesis Hwf : well_formed df.
Hypothesis Hfps : column df "First Pain Score" = Some fps.
Hypothesis Hps1 : column df "Time_to_PS1_Mins" = Some ps1.
Hypothesis Ha1 : column df "Time_to_A1_Mins" = Some a1.
Hypothesis Ha1ps2 : column df "A1_to_PS2_Mins" = Some a1ps2.
Hypothesis Fps1 : Forall float_cell ps1.
Hypothesis Fa1 : Forall float_cell a1.
Hypothesis Fa1ps2 : Forall float_cell a1ps2.

(** C2, as the code has it.  On a well-formed table with the four columns
    (the interval columns being float columns) the funnel has 13 labels and
    12 edges between them.  The counts on the edges that leave a node add up
    to the count of the node for the root and for the four severity nodes;
    below "PS1 <= 15 Mins" they add up to at most its count, since records
    with another pain label are in neither child.  Every edge carries a
    count between zero and the count of its parent. *)
Theorem funnel_counts :
  ∃ df' sk,
    calculate_best_practice df = ret (df', sk)
    ∧ length (labels sk) = 13%nat
    ∧ length (source sk) = 12%nat
    ∧ length (target sk) = 12%nat
    ∧ length (value sk) = 12%nat
    ∧ Forall (λ n, 0 ≤ n < 13) (source sk ++ target sk)
    ∧ (∀ p, p ∈ [0; 3; 4; 5; 6] → children_sum sk p = node_count sk p)
    ∧ children_sum sk 1 ≤ node_count sk 1
    ∧ (∀ e, e ∈ edges sk → 0 ≤ e.2 ≤ node_count sk e.1.1).
Proof.
  run_best_practice Hfps Hps1 Ha1 Ha1ps2 Fps1 Fa1 Fa1ps2.
  eexists _, _. split; [reflexivity|].
  set (P := cell_leb (num 15) <$> ps1).
  set (A := cell_leb (num 15) <$> a1).
  set (S := series_eq fps (VStr "Sev Pain")).
  set (M := series_eq fps (VStr "Mod Pain")).
  set (Y := series_eq (np_where _ _ _) (VStr "Yes")).
  change (nrows (setitem df _ _)) with (nrows df).
  (* what the masks imply, row by row *)
  assert (∀ i, S !! i = Some true → M !! i = Some true → False) as HSM.
  { intros i HS HM. apply series_eq_true in HS, HM. congruence. }
  assert (∀ i, mask_and S Y !! i = Some true →
               mask_and (mask_and S P) A !! i = Some true) as HSY.
  { intros i [HS HY]%mask_and_true. unfold Y in HY. apply (proj1 (np_where_yes _ _)) in HY.
    apply mask_and_true in HY as [HP [Hm|Hs]%mask_or_true];
      rewrite !mask_and_true in *; [|tauto].
    destruct (HSM i); tauto. }
  assert (∀ i, mask_and M Y !! i = Some true →
               mask_and (mask_and M P) A !! i = Some true) as HMY.
  { intros i [HM HY]%mask_and_true. unfold Y in HY. apply (proj1 (np_where_yes _ _)) in HY.
    apply mask_and_true in HY as [HP [Hm|Hs]%mask_or_true];
      rewrite !mask_and_true in *; [tauto|].
    destruct (HSM i); tauto. }
  (* the inequalities between the counts *)
  pose proof (count_rows_nonneg P) as P0.
  pose proof (count_rows_length P) as PN.
  unfold P in PN at 2. rewrite length_fmap, (column_length _ _ _ Hwf Hps1) in PN.
  pose proof (count_rows_nonneg (mask_and S P)) as S0.
  pose proof (count_rows_nonneg (mask_and M P)) as M0.
  assert (count_rows (mask_and S P) + count_rows (mask_and M P) ≤ count_rows P)
    as SMP.
  { apply count_rows_disjoint; intros i; rewrite ?mask_and_true;
      [tauto|tauto|]. intros [? _] [? _]. by apply (HSM i). }
  pose proof (count_rows_nonneg (mask_and (mask_and S P) A)) as SA0.
  pose proof (count_rows_nonneg (mask_and (mask_and M P) A)) as MA0.
  assert (count_rows (mask_and (mask_and S P) A) ≤ count_rows (mask_and S P))
    as SA by (apply count_rows_mono; intros i [? _]%mask_and_true; done).
  assert (count_rows (mask_and (mask_and M P) A) ≤ count_rows (mask_and M P))
    as MA by (apply count_rows_mono; intros i [? _]%mask_and_true; done).
  pose proof (count_rows_nonneg (mask_and S Y)) as SY0.
  pose proof (count_rows_nonneg (mask_and M Y)) as MY0.
  pose proof (count_rows_mono _ _ HSY) as SY.
  pose proof (count_rows_mono _ _ HMY) as MY.
  clear HSM HSY HMY.
  set (sy := count_rows (mask_and S Y)) in *.
  set (my := count_rows (mask_and M Y)) in *.
  set (sa := count_rows (mask_and (mask_and S P) A)) in *.
  set (ma := count_rows (mask_and (mask_and M P) A)) in *.
  set (s := count_rows (mask_and S P)) in *.
  set (m := count_rows (mask_and M P)) in *.
  set (p := count_rows P) in *.
  set (n := Z.of_nat (nrows df)) in *.
  clearbody sy my sa ma s m p n.
  do 4 (split; [reflexivity|]).
  split; [simpl; repeat (apply Forall_cons_2; [lia|]); apply Forall_nil_2|].
  unfold children_sum, node_count, edges. simpl.
  split; [|split].
  - intros q Hq.
    repeat (apply elem_of_cons in Hq as [->|Hq]); try (by apply elem_of_nil in Hq);
      cbn; lia.
  - cbn. lia.
  - intros e He.
    repeat (apply elem_of_cons in He as [->|He]); try (by apply elem_of_nil in He);
      cbn; lia.
Qed.

End Funnel.


Lemma funnel_counts_witness :
  let df := audit_record (VStr "Mod Pain") (VNum (num 10)) (VNum (num 15))
              (VNum (num 20)) in
  ∃ df' sk,
    calculate_best_practice df = ret (df', sk)
    ∧ length (labels sk) = 13%nat
    ∧ length (source sk) = 12%nat
    ∧ length (target sk) = 12%nat
    ∧ length (value sk) = 12%nat
    ∧ Forall (λ n, 0 ≤ n < 13) (source sk ++ target sk)
    ∧ (∀ p, p ∈ [0; 3; 4; 5; 6] → children_sum sk p = node_count sk p)
    ∧ children_sum sk 1 ≤ node_count sk 1
    ∧ (∀ e, e ∈ edges sk → 0 ≤ e.2 ≤ node_count sk e.1.1).
Proof.
  intros df.
  apply (funnel_counts df [VStr "Mod Pain"] [VNum (num 10)] [VNum (num 15)]
           [VNum (num 20)]); try reflexivity; repeat constructor.
Defined.

(** C2, as the specification states it, fails below "PS1 <= 15 Mins": a
    single record with mild pain scored within 15 minutes is counted in that
    node and in neither of its children. *)
Lemma funnel_not_additive :
  ∃ df' sk,
    calculate_best_practice
      (audit_record (VStr "Mild Pain") (VNum (num 10)) (VNum (num 15))
         (VNum (num 15))) = ret (df', sk)
    ∧ node_count sk 1 = 1
    ∧ children_sum sk 1 = 0
    ∧ children_sum sk 1 ≠ node_count sk 1.
Proof. eexists _, _. split; [by vm_compute|]. by vm_compute. Qed.

(** ** Age bands *)






Lemma cut_float_cell bins labels v :
  float_cell v → cut bins labels v = ret (cut_float bins labels v).
Proof. destruct v; simpl; try done. intros _. by case_match. Qed.

Lemma to_numeric_float `{Lib} v : float_cell (to_numeric v).
Proof.
  destruct v as [|s|q|t]; simpl; try done.
  - by destruct (to_numeric_str s).
  - by destruct (to_numeric_time t).
Qed.






(** The other ages the specification names, run on the code. *)
Example age_examples :
  let run age := r ← returned (create_age_groups (H := Sample.lib) (age_record age));
                 column r "Age_Group" in
  run (VNum (num 15)) = Some [VStr "15-25"]
  ∧ run (VNum (num 95)) = Some [VStr "95+"]
  ∧ run (VNum (num 149)) = Some [VStr "95+"]
  ∧ run (VNum (num (-1))) = Some [VNull]
  ∧ run VNull = Some [VNull]
  ∧ run (VStr "n/a") = Some [VNull]
  ∧ run (VNum (Q2Qc (29 # 2))) = Some [VStr "0-15"].
Proof. by vm_compute. Qed.

(** ** Temporal derivation *)

Lemma assign_col_existing cs c s :
  c ∈ cs.*1 → (assign_col cs c s).*1 = cs.*1.
Proof.
  induction cs as [|[n s'] cs IH]; csimpl; [by intros ?%elem_of_nil|].
  destruct (decide (n = c)) as [->|Hne]; csimpl; [done|].
  intros [?|?]%elem_of_cons; [done|]. by rewrite IH.
Qed.

Lemma column_setitem df c c' s :
  column (setitem df c s) c' = if decide (c = c') then Some s else column df c'.
Proof.
  case_decide as E; [subst; apply column_setitem_eq|by apply column_setitem_ne].
Qed.

Lemma column_is_Some df c : is_Some (column df c) ↔ c ∈ columns df.
Proof. apply lookup_col_is_Some. Qed.

Lemma to_datetime_idemp `{Lib} v : to_datetime (to_datetime v) = to_datetime v.
Proof. destruct v as [|s|q|t]; simpl; try done. by destruct (strptime s). Qed.

Lemma to_datetime_cell `{Lib} v : datetime_cell (to_datetime v).
Proof. destruct v as [|s|q|t]; simpl; try done. by destruct (strptime s). Qed.

(** [convert_date_columns] never raises and prints nothing; it rewrites the
    listed columns that exist, cell by cell, and nothing else. *)
Lemma convert_date_columns_run `{Lib} date_cols : ∀ df,
  ∃ df', convert_date_columns df date_cols = ret df'
    ∧ columns df' = columns df
    ∧ nrows df' = nrows df
    ∧ ∀ c, column df' c =
        if bool_decide (c ∈ date_cols)
        then (λ s : Series, to_datetime <$> s) <$> column df c
        else column df c.
Proof.
  induction date_cols as [|col rest IH]; intros df; simpl.
  - exists df. repeat split; try done.
  - case_bool_decide as Hcol.
    + apply column_is_Some in Hcol as [s Hs].
      rewrite (getitem_column _ _ _ Hs), !bind_ret.
      destruct (IH (setitem df col (to_datetime <$> s)))
        as (df' & Hrun & Hcols & Hrows & Hc).
      exists df'. split; [done|]. split; [|split; [done|]].
      * rewrite Hcols. apply assign_col_existing, lookup_col_is_Some. by eexists.
      * intros c. rewrite Hc, column_setitem.
        destruct (decide (col = c)) as [->|Hne].
        -- rewrite Hs, (bool_decide_eq_true_2 (c ∈ c :: rest)) by set_solver.
           case_bool_decide; simpl; [|done].
           f_equal. rewrite <-list_fmap_compose. apply list_fmap_ext.
           intros ? v _. apply to_datetime_idemp.
        -- rewrite (bool_decide_ext (c ∈ col :: rest) (c ∈ rest)); [done|].
           set_solver.
    + rewrite bind_ret. destruct (IH df) as (df' & Hrun & Hcols & Hrows & Hc).
      exists df'. repeat split; try done.
      intros c. rewrite Hc.
      destruct (decide (col = c)) as [->|Hne].
      * apply lookup_col_None in Hcol. unfold column. rewrite Hcol.
        by repeat case_bool_decide.
      * rewrite (bool_decide_ext (c ∈ col :: rest) (c ∈ rest)); [done|].
        set_solver.
Qed.

Lemma filter_none {A} (P : A → Prop) `{∀ x, Decision (P x)} (l : list A) :
  Forall (λ x, ¬ P x) l → filter P l = [].
Proof.
  induction 1 as [|x l Hx _ IH]; [done|].
  by rewrite filter_cons, decide_False, IH.
Qed.

Lemma minutes_between_datetime a b :
  datetime_cell a → datetime_cell b →
  minutes_between a b = ret (minutes_diff a b).
Proof. by destruct a, b. Qed.

Lemma set_interval_run df c a b sa sb :
  column df a = Some sa → column df b = Some sb →
  Forall datetime_cell sa → Forall datetime_cell sb →
  set_interval df c a b = ret (setitem df c (zip_with minutes_diff sa sb)).
Proof.
  intros Ha Hb Fa Fb. unfold set_interval, series_minutes_between.
  rewrite (getitem_column _ _ _ Ha), bind_ret.
  rewrite (getitem_column _ _ _ Hb), bind_ret.
  rewrite (mapM_pure _ (λ p, minutes_diff p.1 p.2)), bind_ret.
  - do 2 f_equal. clear Ha Hb. revert sb Fb.
    induction sa as [|x sa IH]; intros [|y sb] ?; simpl; try done.
    rewrite IH; [done| |]; by eapply Forall_inv_tail.
  - clear Ha Hb. revert sb Fb.
    induction Fa as [|x sa Hx _ IH]; intros [|y sb] Fb; simpl; try done.
    apply Forall_cons in Fb as [Hy Fb]. constructor; [|by apply IH].
    by apply minutes_between_datetime.
Qed.

Lemma to_datetime_timestamp `{Lib} v :
  to_datetime v = from_option VTime VNull (timestamp_of v).
Proof. by destruct v. Qed.

Lemma minutes_diff_apart `{Lib} x y :
  minutes_diff (to_datetime x) (to_datetime y)
  = minutes_apart (timestamp_of x) (timestamp_of y).
Proof.
  rewrite !to_datetime_timestamp.
  by destruct (timestamp_of x), (timestamp_of y).
Qed.

(** C6.  Temporal derivation, on any table [df]:
    - [convert_date_columns] returns without raising; in each of the five
      timestamp columns that exist every cell is replaced by its parse: a
      string that matches the format becomes its timestamp, a timestamp
      stays, and a string that fails the format, a number or a null becomes
      null;
    - on any table that lacks one of the five columns,
      [calculate_time_intervals] prints the warning with the missing names
      and returns the table as it got it, so no [*_Mins] column is computed;
    - when all five columns exist, [calculate_time_intervals] after the
      conversion returns without warning, and in every record each of the
      six [*_Mins] cells is the signed difference in minutes of the
      timestamps its two cells stand for, null when one of them stands for
      none;
    - run on a record with arrival at 10:00 and triage at 10:12 of one day,
      the two functions give [Time_to_Triage_Mins] 12, and a null interval
      where the second pain score was not taken. *)
Theorem temporal_derivation `{Lib} (df : DataFrame) :
  (∃ df1,
      convert_date_columns df required_date_cols = ret df1
      ∧ columns df1 = columns df
      ∧ (∀ c s, c ∈ required_date_cols → column df c = Some s →
           column df1 c = Some (to_datetime <$> s))
      ∧ (∀ c s, c ∈ required_date_cols → column df c = Some s →
           ∃ s1, column df1 c = Some s1
             ∧ length s1 = length s
             ∧ ∀ i x, s !! i = Some x →
                 s1 !! i = Some (from_option VTime VNull (timestamp_of x)))
      ∧ (∀ v, to_datetime v = from_option VTime VNull (timestamp_of v))
      ∧ (∀ s, strptime s = None → to_datetime (VStr s) = VNull)
      ∧ (∀ s t, strptime s = Some t → to_datetime (VStr s) = VTime t)
      ∧ ((∀ c, c ∈ required_date_cols → c ∈ columns df) →
         ∃ df2,
           calculate_time_intervals df1 = ret df2
           ∧ ∀ name later earlier sl se,
               (name, later, earlier) ∈ interval_columns →
               column df later = Some sl → column df earlier = Some se →
               ∃ d, column df2 name = Some d
                 ∧ ∀ i x y, sl !! i = Some x → se !! i = Some y →
                     d !! i = Some (minutes_diff (to_datetime x) (to_datetime y))
                     ∧ d !! i
                       = Some (minutes_apart (timestamp_of x) (timestamp_of y))))
  ∧ (∀ t c, c ∈ required_date_cols → c ∉ columns t →
       ∃ missing,
         c ∈ missing
         ∧ (∀ m, m ∈ missing ↔ m ∈ required_date_cols ∧ m ∉ columns t)
         ∧ calculate_time_intervals t
           = mkPy [Warning_missing_date_columns missing] (Ok t))
  ∧ minutes_diff (VTime (Sample.timestamp 2024 1 5 10 12))
      (VTime (Sample.timestamp 2024 1 5 10 0)) = VNum (num 12)
  ∧ (∃ df1 df2,
       convert_date_columns (H := Sample.lib)
         (timestamps_record (VStr "05-Jan-24 10:00") (VStr "05-Jan-24 10:12")
            (VStr "05-Jan-24 10:10") (VStr "05-Jan-24 10:15") VNull)
         required_date_cols = ret df1
       ∧ calculate_time_intervals df1 = ret df2
       ∧ column df1 "Triage DTTM" = Some [VTime (Sample.timestamp 2024 1 5 10 12)]
       ∧ column df2 "Time_to_Triage_Mins" = Some [VNum (num 12)]
       ∧ column df2 "Time_to_A1_Mins" = Some [VNum (num 15)]
       ∧ column df2 "Time_to_PS2_Mins" = Some [VNull]).
Proof.
  split; [|split; [|split; [reflexivity|]]].
  - destruct (convert_date_columns_run required_date_cols df)
      as (df1 & Hrun & Hcols & _ & Hc).
    exists df1. split; [done|]. split; [done|].
    assert (∀ c s, c ∈ required_date_cols → column df c = Some s →
              column df1 c = Some (to_datetime <$> s)) as Hconv.
    { intros c s Hin Hs. by rewrite Hc, bool_decide_eq_true_2, Hs. }
    split; [done|]. split.
    { intros c s Hin Hs. exists (to_datetime <$> s).
      split; [by apply Hconv|]. split; [by rewrite length_fmap|].
      intros i x Hx. rewrite list_lookup_fmap, Hx. simpl.
      by rewrite to_datetime_timestamp. }
    split; [apply to_datetime_timestamp|].
    split; [by intros s Hs; simpl; rewrite Hs|].
    split; [by intros s t Hs; simpl; rewrite Hs|].
    intros Hall.
    assert (∀ c, c ∈ required_date_cols → ∃ s, column df c = Some s
              ∧ column df1 c = Some (to_datetime <$> s)
              ∧ Forall datetime_cell (to_datetime <$> s)) as Hget.
    { intros c Hin. destruct (proj2 (column_is_Some df c) (Hall c Hin)) as [s Hs].
      exists s. split; [done|]. split; [by apply Hconv|].
      apply Forall_fmap, Forall_forall. intros v _. apply to_datetime_cell. }
    destruct (Hget "Arrival DTTM") as (arr & Harr & Harr1 & Farr); [set_solver|].
    destruct (Hget "Triage DTTM") as (tri & Htri & Htri1 & Ftri); [set_solver|].
    destruct (Hget "First Pain Score DTTM") as (ps1 & Hps1 & Hps11 & Fps1);
      [set_solver|].
    destruct (Hget "First Analgesia DTTM") as (a1 & Ha1 & Ha11 & Fa1); [set_solver|].
    destruct (Hget "Second Pain Score DTTM") as (ps2 & Hps2 & Hps21 & Fps2);
      [set_solver|].
    unfold calculate_time_intervals.
    rewrite filter_none
      by (apply Forall_forall; intros c Hin Hnot; apply Hnot; rewrite Hcols; auto).
    rewrite bool_decide_eq_false_2 by (by intros ?).
    rewrite bool_decide_eq_true_2 by (rewrite Hcols; apply Hall; set_solver).
    rewrite (set_interval_run _ _ _ _ _ _ Htri1 Harr1 Ftri Farr), bind_ret.
    rewrite (set_interval_run _ _ _ _ (to_datetime <$> ps1) (to_datetime <$> arr)),
      bind_ret by (by rewrite ?column_setitem_ne).
    rewrite (set_interval_run _ _ _ _ (to_datetime <$> a1) (to_datetime <$> arr)),
      bind_ret by (by rewrite ?column_setitem_ne).
    rewrite (set_interval_run _ _ _ _ (to_datetime <$> ps2) (to_datetime <$> arr)),
      bind_ret by (by rewrite ?column_setitem_ne).
    rewrite (set_interval_run _ _ _ _ (to_datetime <$> ps2) (to_datetime <$> a1)),
      bind_ret by (by rewrite ?column_setitem_ne).
    rewrite (set_interval_run _ _ _ _ (to_datetime <$> a1) (to_datetime <$> ps2)),
      bind_ret by (by rewrite ?column_setitem_ne).
    eexists. split; [reflexivity|].
    intros name later earlier sl se Hin Hsl Hse. unfold interval_columns in Hin.
    repeat (apply elem_of_cons in Hin as [[= -> -> ->]|Hin]);
      try (by apply elem_of_nil in Hin);
      simplify_eq;
      (eexists; split;
       [rewrite ?column_setitem_ne by done; apply column_setitem_eq|];
       intros i x y Hx Hy;
       rewrite <-minutes_diff_apart;
       by rewrite lookup_zip_with, !list_lookup_fmap, Hx, Hy).
  - intros t c Hin Hnot.
    exists (filter (λ col, col ∉ columns t) required_date_cols).
    assert (c ∈ filter (λ col, col ∉ columns t) required_date_cols) as Hc
      by (by apply list_elem_of_filter).
    split; [done|]. split.
    + intros m. rewrite list_elem_of_filter. tauto.
    + unfold calculate_time_intervals.
      rewrite bool_decide_eq_true_2; [done|].
      intros Hnil. rewrite Hnil in Hc. by apply elem_of_nil in Hc.
  - eexists _, _. split; [vm_compute; reflexivity|]. split; [vm_compute; reflexivity|].
    by vm_compute.
Qed.

Example triage_after_twelve_minutes :
  let df :=
    timestamps_record (VStr "05-Jan-24 10:00") (VStr "05-Jan-24 10:12")
      (VStr "10:15") VNull (VStr "05-Jan-24 09:50") in
  (df1 ← returned (convert_date_columns (H := Sample.lib) df required_date_cols);
   df2 ← returned (calculate_time_intervals df1);
   Some (column df2 "Time_to_Triage_Mins", column df2 "Time_to_PS1_Mins",
         column df2 "Time_to_PS2_Mins", column df2 "A1_to_PS2_Mins"))
  = Some (Some [VNum (num 12)], Some [VNull], Some [VNum (num (-10))],
          Some [VNull]).
Proof. by vm_compute. Qed.

(** ** Enrichment *)

Lemma lookup_col_app a b c :
  lookup_col (a ++ b) c =
  match lookup_col a c with Some s => Some s | None => lookup_col b c end.
Proof.
  induction a as [|[n s] a IH]; simpl; [done|]. by case_decide.
Qed.

Lemma lookup_col_fmap (g : Series → Series) cs c :
  lookup_col ((λ x, (x.1, g x.2)) <$> cs) c = g <$> lookup_col cs c.
Proof.
  induction cs as [|[n s] cs IH]; csimpl; [done|]. by case_decide.
Qed.

Lemma column_drop df names c :
  column (drop_columns df names) c =
  if decide (c ∈ names) then None else column df c.
Proof.
  unfold column, drop_columns. simpl.
  induction (cols df) as [|[n s] cs IH]; simpl.
  - by case_decide.
  - rewrite filter_cons. simpl.
    destruct (decide (n ∉ names)) as [Hn|Hn]; simpl.
    + destruct (decide (n = c)) as [->|Hne]; [by rewrite decide_False|done].
    + rewrite IH. destruct (decide (n = c)) as [->|Hne]; [|done].
      destruct (decide (c ∈ names)); [done|by destruct Hn].
Qed.

Lemma columns_drop df names c :
  c ∈ columns (drop_columns df names) ↔ c ∈ columns df ∧ c ∉ names.
Proof.
  rewrite <-!column_is_Some, column_drop.
  case_decide; [|tauto]. split; [by intros [? ?]|tauto].
Qed.

Lemma map_quintile_float v :
  float_cell v → map_quintile v = ret (quintile_of v).
Proof.
  destruct v as [|s|q|t]; simpl; try done. intros _.
  unfold map_quintile. cbn [isna le_num].
  repeat (rewrite bind_ret; destruct (Qc_leb q _); try done).
Qed.

Lemma take_opt_float dec idx :
  Forall float_cell dec → Forall float_cell (take_opt dec idx).
Proof.
  intros Hdec. apply Forall_fmap, Forall_forall. intros [j|] _; simpl; [|done].
  destruct (dec !! j) as [v|] eqn:Hj; simpl; [|done].
  by eapply Forall_lookup_1.
Qed.

(** With reference data at hand, a key column on both sides, float deciles
    and no column of the patient table called [IMD_Decile], the function
    runs to its end and builds [enriched]. *)
Lemma merge_with_imd_data_run df imd lk rk dec :
  column df "Join_Key" = Some lk →
  column imd "Join_Key" = Some rk →
  column imd "IMD_Decile" = Some dec →
  is_empty imd = false →
  "IMD_Decile" ∉ columns df →
  Forall float_cell dec →
  merge_with_imd_data df (Some imd) = ret (enriched df lk rk dec).
Proof.
  intros Hlk Hrk Hdec Hne Hfresh Fdec.
  unfold merge_with_imd_data. rewrite Hne. cbn [negb].
  unfold select. cbn [mapM].
  rewrite (getitem_column _ _ _ Hrk), !bind_ret.
  rewrite (getitem_column _ _ _ Hdec), !bind_ret.
  unfold merge_left.
  rewrite (getitem_column _ _ _ Hlk), bind_ret.
  rewrite (getitem_column (mkDataFrame _ _) "Join_Key" rk), !bind_ret
    by reflexivity.
  cbn [cols columns].
  rewrite !filter_cons, filter_nil. cbn [fst snd].
  rewrite decide_False by (by intros ?).
  rewrite decide_True by done.
  set (pairs := merge_pairs lk rk).
  assert (∀ c, c ∈ columns df →
            bool_decide (c ≠ "Join_Key" ∧ c ∈ columns df
                         ∧ c ∈ (([("Join_Key", rk); ("IMD_Decile", dec)]).*1 : list string))
            = false) as Hshared.
  { intros c Hc. apply bool_decide_eq_false_2. intros (Hk & _ & Hin).
    csimpl in Hin. apply elem_of_cons in Hin as [->|Hin]; [done|].
    apply elem_of_cons in Hin as [->|Hin]; [done|]. by apply elem_of_nil in Hin. }
  rewrite (list_fmap_ext _ (λ c, (c.1, take c.2 pairs.*1)) (cols df)).
  2:{ intros i [n s] Hi. cbn [fst snd]. rewrite Hshared; [done|].
      apply list_elem_of_fmap. exists (n, s). split; [done|].
      by eapply list_elem_of_lookup_2. }
  csimpl.
  rewrite bool_decide_eq_false_2 by (intros (_ & Hin & _); done).
  rewrite (getitem_column _ "IMD_Decile" (take_opt dec pairs.*2)).
  2:{ unfold column. cbn [cols]. rewrite lookup_col_app.
      rewrite (lookup_col_fmap (λ s, take s pairs.*1)).
      apply lookup_col_None in Hfresh. by rewrite Hfresh. }
  rewrite bind_ret.
  rewrite (mapM_pure _ quintile_of), bind_ret.
  2:{ eapply Forall_impl; [by apply take_opt_float|].
      intros v Hv. by apply map_quintile_float. }
  reflexivity.
Qed.

(** *** Rows of the left join *)

Lemma elem_of_matches rk k j : j ∈ matches rk k ↔ rk !! j = Some k.
Proof.
  unfold matches. rewrite list_elem_of_filter, elem_of_seq. split; [tauto|].
  intros Hj. split; [done|]. apply lookup_lt_Some in Hj. lia.
Qed.

Lemma matches_nil rk k : matches rk k = [] ↔ ∀ j, rk !! j ≠ Some k.
Proof.
  split.
  - intros Hnil j Hj. apply elem_of_matches in Hj. rewrite Hnil in Hj.
    by apply elem_of_nil in Hj.
  - intros Hno. destruct (matches rk k) as [|j js] eqn:E; [done|].
    destruct (Hno j). apply elem_of_matches. rewrite E. by left.
Qed.

Lemma matches_unique rk k :
  NoDup rk → matches rk k = [] ∨ ∃ j, matches rk k = [j].
Proof.
  intros Hnd. destruct (matches rk k) as [|j [|j' js]] eqn:E; eauto.
  assert (NoDup (matches rk k)) as Hm
    by (unfold matches; apply NoDup_filter, NoDup_seq).
  assert (rk !! j = Some k) as Hj by (apply elem_of_matches; rewrite E; set_solver).
  assert (rk !! j' = Some k) as Hj' by (apply elem_of_matches; rewrite E; set_solver).
  rewrite E in Hm. apply NoDup_cons in Hm as [Hnin _].
  destruct Hnin. rewrite (NoDup_lookup _ _ _ _ Hnd Hj Hj'). by left.
Qed.

Lemma merge_pairs_rows lk rk : merge_pairs lk rk = imap (rows_of rk) lk ≫= id.
Proof. done. Qed.

Lemma elem_of_rows_of rk i k i' oj :
  (i', oj) ∈ rows_of rk i k ↔
  i' = i ∧ match oj with
           | Some j => rk !! j = Some k
           | None => ∀ j, rk !! j ≠ Some k
           end.
Proof.
  unfold rows_of. destruct (matches rk k) as [|j0 js] eqn:E.
  - rewrite list_elem_of_singleton. pose proof (proj1 (matches_nil rk k) E) as Hno.
    destruct oj as [j|]; split.
    + by intros [= _].
    + intros [_ Hj]. by destruct (Hno j).
    + by intros [= ->].
    + by intros [-> _].
  - rewrite list_elem_of_fmap. destruct oj as [j|]; split.
    + intros (j' & [= -> ->] & Hin). split; [done|].
      apply elem_of_matches. by rewrite E.
    + intros [-> Hj]. exists j. split; [done|]. rewrite <-E. by apply elem_of_matches.
    + by intros (j' & [=] & _).
    + intros [_ Hno]. destruct (Hno j0). apply elem_of_matches. rewrite E. by left.
Qed.

(** An output row pairs patient row [i] with a reference entry of the same
    key, or with none when no entry has that key. *)
Lemma elem_of_merge_pairs lk rk i oj :
  (i, oj) ∈ merge_pairs lk rk ↔
  ∃ k, lk !! i = Some k
       ∧ match oj with
         | Some j => rk !! j = Some k
         | None => ∀ j, rk !! j ≠ Some k
         end.
Proof.
  rewrite merge_pairs_rows, list_elem_of_bind. split.
  - intros (rows & Hin & Hrows). apply elem_of_lookup_imap in Hrows
      as (i' & k & -> & Hk).
    apply elem_of_rows_of in Hin as [-> Hoj]. eauto.
  - intros (k & Hk & Hoj). exists (rows_of rk i k). split.
    + by apply elem_of_rows_of.
    + by apply elem_of_lookup_imap_2.
Qed.

(** Every patient row is in the output. *)
Lemma merge_pairs_total lk rk i k :
  lk !! i = Some k → ∃ oj, (i, oj) ∈ merge_pairs lk rk.
Proof.
  intros Hk. destruct (matches rk k) as [|j js] eqn:E.
  - exists None. apply elem_of_merge_pairs. exists k. split; [done|].
    by apply matches_nil.
  - exists (Some j). apply elem_of_merge_pairs. exists k. split; [done|].
    apply elem_of_matches. rewrite E. by left.
Qed.

Lemma bind_singletons {A B} (f : nat → A → list B) (g : nat → A → B) l :
  (∀ i x, l !! i = Some x → f i x = [g i x]) →
  imap f l ≫= id = imap g l.
Proof.
  revert f g. induction l as [|x l IH]; intros f g Hfg; [done|].
  rewrite !imap_cons, bind_cons. rewrite (Hfg 0%nat x eq_refl). simpl.
  f_equal. apply IH. intros i y Hy. apply (Hfg (S i) y Hy).
Qed.

(** With pairwise distinct reference keys the join has one row per patient
    row, in order. *)
Lemma merge_pairs_unique lk rk :
  NoDup rk →
  merge_pairs lk rk = imap (λ i k, (i, head (matches rk k))) lk.
Proof.
  intros Hnd. rewrite merge_pairs_rows. apply bind_singletons.
  intros i k _. unfold rows_of.
  by destruct (matches_unique rk k Hnd) as [->|[j ->]].
Qed.

(** *** The enriched table *)

Lemma enriched_quintile df lk rk dec :
  column (enriched df lk rk dec) "IMD_Quintile"
  = Some (VStr <$> (quintile_of <$> take_opt dec (merge_pairs lk rk).*2)).
Proof.
  unfold enriched. rewrite column_drop, decide_False by set_solver.
  apply column_setitem_eq.
Qed.

Lemma enriched_columns df lk rk dec c :
  c ∈ columns (enriched df lk rk dec) ↔
  (c ∈ columns df ∨ c = "IMD_Decile" ∨ c = "IMD_Quintile")
  ∧ c ∉ ["Postcode"; "Join_Key"; "Postcode_Gov"].
Proof.
  unfold enriched. rewrite columns_drop, columns_setitem.
  unfold columns at 1. cbn [cols]. rewrite fmap_app, elem_of_app.
  rewrite <-list_fmap_compose. csimpl. rewrite list_elem_of_singleton.
  assert (((fst ∘ λ c : string * Series, (c.1, take c.2 (merge_pairs lk rk).*1))
             <$> cols df) = columns df) as -> by (by apply list_fmap_ext).
  tauto.
Qed.

Lemma enriched_patient_column df lk rk dec c s :
  column df c = Some s →
  c ∉ ["Postcode"; "Join_Key"; "Postcode_Gov"] → c ≠ "IMD_Quintile" →
  column (enriched df lk rk dec) c = Some (take s (merge_pairs lk rk).*1).
Proof.
  intros Hs Hkeep Hq. unfold enriched.
  rewrite column_drop, decide_False by done.
  rewrite column_setitem_ne by done.
  unfold column in *. cbn [cols]. rewrite lookup_col_app.
  rewrite (lookup_col_fmap (λ s, take s (merge_pairs lk rk).*1)). by rewrite Hs.
Qed.

Lemma take_opt_lookup dec (pairs : list (nat * option nat)) k i oj :
  pairs !! k = Some (i, oj) →
  take_opt dec pairs.*2 !! k
  = Some (match oj with Some j => default VNull (dec !! j) | None => VNull end).
Proof. intros Hk. unfold take_opt. by rewrite !list_lookup_fmap, Hk. Qed.

Lemma take_lookup s (pairs : list (nat * option nat)) k i oj :
  pairs !! k = Some (i, oj) →
  take s pairs.*1 !! k = Some (default VNull (s !! i)).
Proof. intros Hk. unfold take. by rewrite !list_lookup_fmap, Hk. Qed.

(** C7, as the code has it.  Without reference data ([None], or an empty
    table) the function returns the table with [IMD_Quintile] "Unknown" in
    every record.  With reference data it returns a table that has
    [IMD_Quintile], has neither [Postcode] nor [Join_Key], and still has
    [IMD_Decile]. *)
Theorem enrichment_columns (df : DataFrame) :
  (∀ imd_df,
     imd_df = None ∨ (∃ imd, imd_df = Some imd ∧ is_empty imd = true) →
     ∃ out,
       merge_with_imd_data df imd_df = ret out
       ∧ "IMD_Quintile" ∈ columns out
       ∧ column out "IMD_Quintile" = Some (replicate (nrows df) (VStr "Unknown")))
  ∧ (∀ imd lk rk dec,
       column df "Join_Key" = Some lk →
       column imd "Join_Key" = Some rk →
       column imd "IMD_Decile" = Some dec →
       is_empty imd = false →
       "IMD_Decile" ∉ columns df →
       Forall float_cell dec →
       ∃ out,
         merge_with_imd_data df (Some imd) = ret out
         ∧ "IMD_Quintile" ∈ columns out
         ∧ ("Postcode" ∉ columns out)
         ∧ ("Join_Key" ∉ columns out)
         ∧ "IMD_Decile" ∈ columns out).
Proof.
  split.
  - intros imd_df Hno. exists (unenriched df).
    split; [by destruct Hno as [->|(imd & -> & Himd)]; simpl; rewrite ?Himd|].
    split; [apply columns_setitem; by left|apply column_setitem_eq].
  - intros imd lk rk dec Hlk Hrk Hdec Hne Hfresh Fdec.
    exists (enriched df lk rk dec).
    split; [by apply merge_with_imd_data_run|].
    rewrite !enriched_columns. set_solver.
Qed.

(** C7, as the specification states it, fails in both branches: with
    reference data the output keeps [IMD_Decile], without it the output
    keeps [Postcode] and [Join_Key]. *)
Lemma enrichment_keeps_scaffolding :
  let df := keyed_patient "ab1 2cd" "AB12CD" in
  (columns <$> returned (merge_with_imd_data df (Some (reference [("AB12CD", 3)]))))
    = Some ["Age"; "IMD_Decile"; "IMD_Quintile"]
  ∧ (columns <$> returned (merge_with_imd_data df None))
    = Some ["Postcode"; "Age"; "Join_Key"; "IMD_Quintile"].
Proof. by vm_compute. Qed.

(** The rows of the enriched table: which patient row and which reference
    entry each output row comes from, and what it carries. *)
Lemma merge_rows (df imd : DataFrame) (lk rk dec : Series) :
  column df "Join_Key" = Some lk →
  column imd "Join_Key" = Some rk →
  column imd "IMD_Decile" = Some dec →
  is_empty imd = false →
  "IMD_Decile" ∉ columns df →
  Forall float_cell dec →
  ∃ out quint,
    merge_with_imd_data df (Some imd) = ret out
    ∧ column out "IMD_Quintile" = Some quint
    ∧ nrows out = length (merge_pairs lk rk)
    ∧ (∀ i key, lk !! i = Some key → ∃ k oj, merge_pairs lk rk !! k = Some (i, oj))
    ∧ (∀ k i oj, merge_pairs lk rk !! k = Some (i, oj) →
         (∃ key, lk !! i = Some key
            ∧ match oj with
              | Some j => rk !! j = Some key
              | None => ∀ j, rk !! j ≠ Some key
              end)
         ∧ quint !! k
           = Some (VStr (quintile_of
                           (match oj with
                            | Some j => default VNull (dec !! j)
                            | None => VNull
                            end)))
         ∧ (∀ c s, column df c = Some s →
              c ∉ ["Postcode"; "Join_Key"; "Postcode_Gov"; "IMD_Quintile"] →
              ∃ s', column out c = Some s'
                    ∧ s' !! k = Some (default VNull (s !! i)))).
Proof.
  intros Hlk Hrk Hdec Hne Hfresh Fdec.
  eexists (enriched df lk rk dec), _.
  split; [by apply merge_with_imd_data_run|].
  split; [apply enriched_quintile|].
  split; [done|]. split.
  - intros i key Hkey. destruct (merge_pairs_total lk rk i key Hkey) as [oj Hin].
    apply list_elem_of_lookup_1 in Hin as [k Hk]. eauto.
  - intros k i oj Hk. split; [|split].
    + apply elem_of_merge_pairs. by eapply list_elem_of_lookup_2.
    + rewrite !list_lookup_fmap, (take_opt_lookup _ _ _ _ _ Hk). done.
    + intros c s Hs Hc. eexists. split.
      * apply enriched_patient_column; [done| |]; set_solver.
      * by eapply take_lookup.
Qed.

Lemma increasing_seq j n : StronglySorted lt (seq j n).
Proof.
  revert j. induction n as [|n IH]; intros j; simpl; constructor; [apply IH|].
  apply Forall_forall. intros k Hk%elem_of_seq. lia.
Qed.

Lemma sorted_filter {A} (R : relation A) (P : A → Prop) `{∀ x, Decision (P x)}
    (l : list A) :
  StronglySorted R l → StronglySorted R (filter P l).
Proof.
  induction 1 as [|x l Hl IH Hx]; [constructor|].
  rewrite filter_cons. destruct (decide (P x)); [|done].
  constructor; [done|]. apply Forall_forall. intros y [_ Hy]%list_elem_of_filter.
  exact (proj1 (Forall_forall _ _) Hx y Hy).
Qed.

Lemma matches_increasing rk k : StronglySorted lt (matches rk k).
Proof. unfold matches. apply sorted_filter, increasing_seq. Qed.

Lemma rows_increasing (i : nat) (js : list nat) :
  StronglySorted lt js →
  StronglySorted row_before ((λ j, (i, Some j)) <$> js).
Proof.
  induction 1 as [|a l Hl IH Ha]; [constructor|].
  csimpl. constructor; [done|].
  apply Forall_fmap, Forall_forall. intros b Hb. right. split; [done|].
  exact (proj1 (Forall_forall _ _) Ha b Hb).
Qed.

Lemma rows_of_ordered rk i k :
  StronglySorted row_before (rows_of rk i k)
  ∧ Forall (λ p, p.1 = i) (rows_of rk i k).
Proof.
  unfold rows_of. destruct (matches rk k) as [|j js] eqn:E.
  { split; repeat constructor. }
  split.
  - apply rows_increasing. rewrite <-E. apply matches_increasing.
  - apply Forall_fmap, Forall_forall. by intros b _.
Qed.

Lemma ordered_blocks {A} (l : list A) :
  ∀ (f : nat → A → list (nat * option nat)) (n : nat),
    (∀ i x, l !! i = Some x →
            StronglySorted row_before (f i x)
            ∧ Forall (λ p, p.1 = (n + i)%nat) (f i x)) →
    StronglySorted row_before (imap f l ≫= id)
    ∧ Forall (λ p, (n ≤ p.1)%nat) (imap f l ≫= id).
Proof.
  induction l as [|x l IH]; intros f n Hf.
  { split; constructor. }
  rewrite imap_cons, bind_cons. cbn [id].
  destruct (IH (f ∘ S) (S n)) as [Hs Hge].
  { intros i y Hi. destruct (Hf (S i) y Hi) as [H1 H2]. split; [done|].
    eapply Forall_impl; [exact H2|]. intros p Hp. simpl in Hp. lia. }
  destruct (Hf 0%nat x eq_refl) as [Hb Hn].
  split.
  - apply StronglySorted_app_2; [|done|done].
    intros p q Hp Hq. left.
    pose proof (proj1 (Forall_forall _ _) Hn p Hp) as Hp1.
    pose proof (proj1 (Forall_forall _ _) Hge q Hq) as Hq1.
    simpl in *. lia.
  - apply Forall_app. split.
    + eapply Forall_impl; [exact Hn|]. intros p Hp. simpl in Hp. lia.
    + eapply Forall_impl; [exact Hge|]. intros p Hp. simpl in Hp. lia.
Qed.

Lemma merge_pairs_ordered lk rk : StronglySorted row_before (merge_pairs lk rk).
Proof.
  rewrite merge_pairs_rows.
  apply (ordered_blocks lk (rows_of rk) 0%nat).
  intros i k _. apply rows_of_ordered.
Qed.

Lemma sorted_lookup {A} (R : relation A) (l : list A) :
  StronglySorted R l →
  ∀ k1 k2 p q, (k1 < k2)%nat → l !! k1 = Some p → l !! k2 = Some q → R p q.
Proof.
  induction 1 as [|x l Hl IH Hx]; intros k1 k2 p q Hlt H1 H2; [done|].
  destruct k2 as [|k2]; [lia|]. simpl in H2.
  destruct k1 as [|k1]; simpl in H1.
  - injection H1 as <-. apply (proj1 (Forall_forall _ _) Hx).
    by eapply list_elem_of_lookup_2.
  - apply (IH k1 k2); [lia|done|done].
Qed.

Lemma merge_pairs_match lk rk i key j :
  lk !! i = Some key → rk !! j = Some key →
  ∃ k, merge_pairs lk rk !! k = Some (i, Some j).
Proof.
  intros Hi Hj. apply list_elem_of_lookup_1, elem_of_merge_pairs. eauto.
Qed.

(** C4, as the code has it.  The join makes of every patient row one
    output row per reference entry with the same key, in the order of the
    reference table, and one row with a null decile (quintile "Unknown")
    when there is none; the cells of the patient row are copied to each of
    these rows.  So every matching entry has its row, the rows come
    patient row after patient row and for one patient row entry after
    entry, and no row comes twice.  When the keys of the reference table
    are pairwise distinct this is exactly one output row per patient row,
    in the same order, with the decile of the one matching entry. *)
Theorem left_join_rows (df imd : DataFrame) (lk rk dec : Series) :
  column df "Join_Key" = Some lk →
  column imd "Join_Key" = Some rk →
  column imd "IMD_Decile" = Some dec →
  is_empty imd = false →
  "IMD_Decile" ∉ columns df →
  Forall float_cell dec →
  ∃ out quint,
    merge_with_imd_data df (Some imd) = ret out
    ∧ column out "IMD_Quintile" = Some quint
    ∧ nrows out = length (merge_pairs lk rk)
    ∧ (∀ i key, lk !! i = Some key → ∃ k oj, merge_pairs lk rk !! k = Some (i, oj))
    ∧ (∀ k i oj, merge_pairs lk rk !! k = Some (i, oj) →
         (∃ key, lk !! i = Some key
            ∧ match oj with
              | Some j => rk !! j = Some key
              | None => ∀ j, rk !! j ≠ Some key
              end)
         ∧ quint !! k
           = Some (VStr (quintile_of
                           (match oj with
                            | Some j => default VNull (dec !! j)
                            | None => VNull
                            end)))
         ∧ (∀ c s, column df c = Some s →
              c ∉ ["Postcode"; "Join_Key"; "Postcode_Gov"; "IMD_Quintile"] →
              ∃ s', column out c = Some s'
                    ∧ s' !! k = Some (default VNull (s !! i))))
    ∧ (NoDup rk →
       nrows out = length lk
       ∧ ∀ i key, lk !! i = Some key →
           merge_pairs lk rk !! i = Some (i, head (matches rk key)))
    ∧ (∀ i key j, lk !! i = Some key → rk !! j = Some key →
         ∃ k, merge_pairs lk rk !! k = Some (i, Some j))
    ∧ (∀ k1 k2 p q, (k1 < k2)%nat →
         merge_pairs lk rk !! k1 = Some p → merge_pairs lk rk !! k2 = Some q →
         row_before p q).
Proof.
  intros Hlk Hrk Hdec Hne Hfresh Fdec.
  destruct (merge_rows df imd lk rk dec Hlk Hrk Hdec Hne Hfresh Fdec)
    as (out & quint & Hrun & Hq & Hn & Htotal & Hrows).
  exists out, quint. do 5 (split; [done|]).
  split; [|split].
  - intros Hnd. rewrite Hn, (merge_pairs_unique _ _ Hnd), length_imap.
    split; [done|]. intros i key Hkey. by rewrite list_lookup_imap, Hkey.
  - intros i key j Hi Hj. by eapply merge_pairs_match.
  - apply sorted_lookup, merge_pairs_ordered.
Qed.

Lemma left_join_rows_witness :
  let df := keyed_patient "ab1 2cd" "AB12CD" in
  let imd := reference [("AB12CD", 3); ("ZZ99ZZ", 9); ("AB12CD", 7)] in
  ∃ out quint k1 k2,
    merge_with_imd_data df (Some imd) = ret out
    ∧ column out "IMD_Quintile" = Some quint
    ∧ (k1 < k2)%nat
    ∧ quint !! k1 = Some (VStr "2")
    ∧ quint !! k2 = Some (VStr "4").
Proof.
  intros df imd.
  destruct (left_join_rows df imd [VStr "AB12CD"]
              [VStr "AB12CD"; VStr "ZZ99ZZ"; VStr "AB12CD"]
              [VNum (num 3); VNum (num 9); VNum (num 7)])
    as (out & quint & Hrun & Hq & Hn & _ & Hrows & _ & Hmatch & Horder);
    [reflexivity|reflexivity|reflexivity|reflexivity
    |by apply not_elem_of_cons; repeat (split; [done|try apply not_elem_of_cons]);
        apply not_elem_of_nil
    |repeat constructor|].
  destruct (Hmatch 0%nat (VStr "AB12CD") 0%nat eq_refl eq_refl) as [k1 Hk1].
  destruct (Hmatch 0%nat (VStr "AB12CD") 2%nat eq_refl eq_refl) as [k2 Hk2].
  exists out, quint, k1, k2. split; [exact Hrun|]. split; [exact Hq|]. split.
  - destruct (lt_eq_lt_dec k1 k2) as [[Hlt|Heq]|Hgt]; [exact Hlt|exfalso..].
    + subst k2. rewrite Hk1 in Hk2. discriminate Hk2.
    + destruct (Horder k2 k1 _ _ Hgt Hk2 Hk1) as [Hc|[_ Hc]]; simpl in Hc; lia.
  - split.
    + destruct (Hrows k1 0%nat (Some 0%nat) Hk1) as (_ & Hquint & _). exact Hquint.
    + destruct (Hrows k2 0%nat (Some 2%nat) Hk2) as (_ & Hquint & _). exact Hquint.
Defined.

(** C4, as the specification states it, fails on a reference table with
    two entries for one key: the single patient row comes out twice, once
    with each decile. *)
Lemma left_join_multiplies_rows :
  let df := keyed_patient "ab1 2cd" "AB12CD" in
  let imd := reference [("AB12CD", 3); ("AB12CD", 9)] in
  ∃ out,
    merge_with_imd_data df (Some imd) = ret out
    ∧ nrows df = 1%nat
    ∧ nrows out = 2%nat
    ∧ column out "Age" = Some [VNum (num 40); VNum (num 40)]
    ∧ column out "IMD_Quintile" = Some [VStr "2"; VStr "5 - Least Deprived"].
Proof. eexists. split; [by vm_compute|]. by vm_compute. Qed.

(** *** Round trip through the reference loader *)

Lemma lookup_col_usecols cs c :
  c ∈ IMD_COLS →
  lookup_col
    (prod_map (rename_map [("Postcode", "Postcode_Gov"); (IMD_DECILE_COL, "IMD_Decile")]) id
       <$> filter (λ x : string * Series, x.1 ∈ IMD_COLS) cs)
    (rename_map [("Postcode", "Postcode_Gov"); (IMD_DECILE_COL, "IMD_Decile")] c)
  = lookup_col cs c.
Proof.
  intros Hc. induction cs as [|[n s] cs IH]; [done|].
  rewrite filter_cons. cbn [fst lookup_col].
  destruct (decide (n ∈ IMD_COLS)) as [Hn|Hn].
  - csimpl. unfold IMD_COLS in Hn, Hc.
    repeat (apply elem_of_cons in Hn as [->|Hn]); try (by apply elem_of_nil in Hn);
    repeat (apply elem_of_cons in Hc as [->|Hc]); try (by apply elem_of_nil in Hc);
      (vm_compute (rename_map _ _) in *); repeat case_decide; simplify_eq; done.
  - rewrite IH. destruct (decide (n = c)) as [->|?]; [done|done].
Qed.

Lemma load_imd_data_run `{Lib} ref rpc rdec :
  column ref "Postcode" = Some rpc →
  column ref IMD_DECILE_COL = Some rdec →
  ∃ imd,
    load_imd_data (Ok ref) = ret imd
    ∧ nrows imd = nrows ref
    ∧ cols imd ≠ []
    ∧ column imd "Join_Key" = Some (join_key <$> rpc)
    ∧ column imd "IMD_Decile" = Some rdec.
Proof.
  intros Hpc Hdec. unfold load_imd_data, read_csv.
  change (lift (Ok ref)) with (ret ref). rewrite bind_ret.
  assert ("Postcode" ∈ columns ref) as Hin1 by (apply column_is_Some; eauto).
  assert (IMD_DECILE_COL ∈ columns ref) as Hin2 by (apply column_is_Some; eauto).
  unfold IMD_COLS at 1. cbn [forallb].
  rewrite !bool_decide_eq_true_2 by done. cbn [andb]. rewrite bind_ret.
  set (renamed := rename_columns _ _).
  assert (column renamed "Postcode_Gov" = Some rpc) as Hpg.
  { unfold renamed, column, rename_columns. cbn [cols].
    rewrite <-Hpc. apply (lookup_col_usecols (cols ref) "Postcode"). set_solver. }
  assert (column renamed "IMD_Decile" = Some rdec) as Hd.
  { unfold renamed, column, rename_columns. cbn [cols].
    rewrite <-Hdec. apply (lookup_col_usecols (cols ref) IMD_DECILE_COL). set_solver. }
  rewrite (getitem_column _ _ _ Hpg), bind_ret.
  eexists. split; [reflexivity|]. split; [done|]. split; [|split].
  - cbn [setitem cols]. intros Hnil.
    pose proof (lookup_assign_eq (cols renamed) "Join_Key" (join_key <$> rpc)) as Hl.
    by rewrite Hnil in Hl.
  - apply column_setitem_eq.
  - by rewrite column_setitem_ne.
Qed.

Lemma quintile_of_number q : quintile_of (VNum q) ≠ "Unknown".
Proof. simpl. by repeat case_match. Qed.

Lemma Qc_leb_spec a b : Qc_leb a b = true ↔ (a ≤ b)%Qc.
Proof. apply bool_decide_eq_true. Qed.

Lemma Qc_leb_not a b : (b < a)%Qc → Qc_leb a b = false.
Proof. intros Hlt. apply bool_decide_eq_false_2. by apply Qclt_not_le. Qed.

(** C8, as the code has it.  [map_quintile] maps a decile up to 2 to "1 - Most Deprived", up
    to 4 to "2", up to 6 to "3", up to 8 to "4", anything above (9 and 10)
    to "5 - Least Deprived", and null to "Unknown".  And through the whole
    enrichment: when the raw postcode of a reference entry and that of a
    patient record have the same key (upper case, spaces removed), every
    output row of that patient (there is at least one) carries the quintile
    of the decile of a reference entry with that key, which is not
    "Unknown" unless that decile is itself null. *)
Theorem quintile_from_matching_decile `{Lib} :
  (∀ q : Qc,
     ((q ≤ num 2)%Qc → map_quintile (VNum q) = ret "1 - Most Deprived")
     ∧ ((num 2 < q)%Qc → (q ≤ num 4)%Qc → map_quintile (VNum q) = ret "2")
     ∧ ((num 4 < q)%Qc → (q ≤ num 6)%Qc → map_quintile (VNum q) = ret "3")
     ∧ ((num 6 < q)%Qc → (q ≤ num 8)%Qc → map_quintile (VNum q) = ret "4")
     ∧ ((num 8 < q)%Qc → map_quintile (VNum q) = ret "5 - Least Deprived"))
  ∧ map_quintile VNull = ret "Unknown"
  ∧ (∀ ref df rpc rdec ppc i p j r,
       well_formed ref →
       column ref "Postcode" = Some rpc →
       column ref IMD_DECILE_COL = Some rdec →
       Forall float_cell rdec →
       column df "Postcode" = Some ppc →
       "IMD_Decile" ∉ columns df →
       ppc !! i = Some p → rpc !! j = Some r → join_key r = join_key p →
       ∃ imd df1 out quint,
         load_imd_data (Ok ref) = ret imd
         ∧ create_join_keys df = ret df1
         ∧ merge_with_imd_data df1 (Some imd) = ret out
         ∧ column out "IMD_Quintile" = Some quint
         ∧ (∃ k oj, merge_pairs (join_key <$> ppc) (join_key <$> rpc) !! k
                    = Some (i, oj))
         ∧ (∀ k oj,
              merge_pairs (join_key <$> ppc) (join_key <$> rpc) !! k = Some (i, oj) →
              ∃ j' r' d,
                oj = Some j'
                ∧ rpc !! j' = Some r' ∧ join_key r' = join_key p
                ∧ rdec !! j' = Some d
                ∧ quint !! k = Some (VStr (quintile_of d))
                ∧ (d ≠ VNull → quint !! k ≠ Some (VStr "Unknown")))).
Proof.
  split; [|split; [done|]].
  - intros q. rewrite !(map_quintile_float (VNum q)) by done. simpl.
    repeat split.
    + intros H2. by rewrite (proj2 (Qc_leb_spec _ _) H2).
    + intros H2 H4. by rewrite (Qc_leb_not _ _ H2), (proj2 (Qc_leb_spec _ _) H4).
    + intros H4 H6. assert (num 2 < q)%Qc as H2
        by (eapply Qclt_trans; [|exact H4]; by vm_compute).
      by rewrite (Qc_leb_not _ _ H2), (Qc_leb_not _ _ H4),
        (proj2 (Qc_leb_spec _ _) H6).
    + intros H6 H8. assert (num 4 < q)%Qc as H4
        by (eapply Qclt_trans; [|exact H6]; by vm_compute).
      assert (num 2 < q)%Qc as H2
        by (eapply Qclt_trans; [|exact H4]; by vm_compute).
      by rewrite (Qc_leb_not _ _ H2), (Qc_leb_not _ _ H4), (Qc_leb_not _ _ H6),
        (proj2 (Qc_leb_spec _ _) H8).
    + intros H8. assert (num 6 < q)%Qc as H6
        by (eapply Qclt_trans; [|exact H8]; by vm_compute).
      assert (num 4 < q)%Qc as H4
        by (eapply Qclt_trans; [|exact H6]; by vm_compute).
      assert (num 2 < q)%Qc as H2
        by (eapply Qclt_trans; [|exact H4]; by vm_compute).
      by rewrite (Qc_leb_not _ _ H2), (Qc_leb_not _ _ H4), (Qc_leb_not _ _ H6),
        (Qc_leb_not _ _ H8).
  - intros ref df rpc rdec ppc i p j r Hwf Hrpc Hrdec Fdec Hppc Hfresh Hp Hr Hkey.
    destruct (load_imd_data_run ref rpc rdec Hrpc Hrdec)
      as (imd & Hload & Hn & Hcols & Hrk & Hdec).
    exists imd, (setitem df "Join_Key" (join_key <$> ppc)).
    set (lk := join_key <$> ppc). set (rk := join_key <$> rpc).
    assert (length rpc = nrows ref) as Lrpc by (by eapply column_length).
    assert (length rdec = nrows ref) as Lrdec by (by eapply column_length).
    assert (is_empty imd = false) as Hne.
    { unfold is_empty. rewrite Hn. apply lookup_lt_Some in Hr.
      rewrite !bool_decide_eq_false_2; [done|done|lia]. }
    assert (lk !! i = Some (join_key p)) as Hlki
      by (unfold lk; by rewrite list_lookup_fmap, Hp).
    destruct (merge_rows (setitem df "Join_Key" lk) imd lk rk rdec)
      as (out & quint & Hrun & Hq & _ & Htotal & Hrows); try done.
    { apply column_setitem_eq. }
    { rewrite columns_setitem. by intros [?|?]. }
    exists out, quint.
    split; [done|]. split.
    { unfold create_join_keys. by rewrite (getitem_column _ _ _ Hppc), bind_ret. }
    split; [done|]. split; [done|]. split; [by eapply Htotal|].
    intros k oj Hk. destruct (Hrows k i oj Hk) as ((key & Hkey' & Hoj) & Hquint & _).
    rewrite Hlki in Hkey'. injection Hkey' as <-.
    destruct oj as [j'|].
    + unfold rk in Hoj. rewrite list_lookup_fmap in Hoj.
      destruct (rpc !! j') as [r'|] eqn:Hr'; [|done]. simpl in Hoj.
      assert (is_Some (rdec !! j')) as [d Hd].
      { apply lookup_lt_is_Some. apply lookup_lt_Some in Hr'. lia. }
      exists j', r', d. rewrite Hd in Hquint. simpl in Hquint.
      split; [done|]. split; [done|]. split; [congruence|].
      split; [done|]. split; [done|].
      intros Hnull. rewrite Hquint. intros [= Hu].
      pose proof (Forall_lookup_1 _ _ _ _ Fdec Hd) as Hfd.
      destruct d as [| |q|]; try done. by apply (quintile_of_number q).
    + destruct (Hoj j). unfold rk. rewrite list_lookup_fmap, Hr. simpl.
      by rewrite Hkey.
Qed.

Lemma quintile_from_matching_decile_witness :
  let ref := reference_file [("ZZ9 9ZZ", VNum (num 9)); ("AB1 2CD", VNum (num 3))] in
  let df := patient_file (VStr "ab12 cd") in
  ∃ imd df1 out quint,
    load_imd_data (H := Sample.lib) (Ok ref) = ret imd
    ∧ create_join_keys (H := Sample.lib) df = ret df1
    ∧ merge_with_imd_data df1 (Some imd) = ret out
    ∧ column out "IMD_Quintile" = Some quint
    ∧ quint !! 0%nat = Some (VStr "2").
Proof.
  intros ref df.
  destruct (proj2 (proj2 (quintile_from_matching_decile (H := Sample.lib)))
              ref df [VStr "ZZ9 9ZZ"; VStr "AB1 2CD"] [VNum (num 9); VNum (num 3)]
              [VStr "ab12 cd"] 0%nat (VStr "ab12 cd") 1%nat (VStr "AB1 2CD"))
    as (imd & df1 & out & quint & Hload & Hkeys & Hrun & Hq & _ & Hrows);
    [repeat constructor|reflexivity|reflexivity|repeat constructor|reflexivity
    |by apply not_elem_of_cons; repeat (split; [done|try apply not_elem_of_cons]);
        apply not_elem_of_nil
    |reflexivity|reflexivity|reflexivity|].
  exists imd, df1, out, quint. repeat (split; [assumption|]).
  destruct (Hrows 0%nat (Some 1%nat) eq_refl) as (j' & r' & d & Hj & _ & _ & Hd & Hquint & _).
  injection Hj as <-. injection Hd as <-. exact Hquint.
Defined.

(** The quintiles the specification names, and a decile outside 1-10. *)
Example quintile_examples :
  (λ d, returned (map_quintile d))
    <$> [VNum (num 1); VNum (num 5); VNum (num 10); VNull; VNum (num 2);
         VNum (num 9); VNum (num 8); VNum (num 0)]
  = Some <$> ["1 - Most Deprived"; "3"; "5 - Least Deprived"; "Unknown";
              "1 - Most Deprived"; "5 - Least Deprived"; "4"; "1 - Most Deprived"].
Proof. by vm_compute. Qed.

(** C8, as the specification states it, fails when the matching reference
    entry has no decile (an empty cell of the reference file): the keys are
    equal, the join matches, and the quintile is "Unknown" all the same. *)
Lemma matching_entry_without_decile :
  let ref := reference_file [("AB1 2CD", VNull)] in
  join_key (H := Sample.lib) (VStr "AB1 2CD") = join_key (H := Sample.lib) (VStr "ab1 2cd")
  ∧ (imd ← returned (load_imd_data (H := Sample.lib) (Ok ref));
     df1 ← returned (create_join_keys (H := Sample.lib) (patient_file (VStr "ab1 2cd")));
     out ← returned (merge_with_imd_data df1 (Some imd));
     column out "IMD_Quintile") = Some [VStr "Unknown"].
Proof. by vm_compute. Qed.

(** ** The pipeline *)







(** ** Statistical dispatcher *)

Lemma silent_cases {A} (m : Py A) :
  silent m → (∃ a, m = ret a) ∨ (∃ e, m = raise e).
Proof. destruct m as [pr [a|e]]; unfold silent; simpl; intros ->; eauto. Qed.

Lemma silent_bind {A B} (m : Py A) (f : A → Py B) :
  silent m → (∀ a, silent (f a)) → silent (x ← m; f x).
Proof.
  intros Hm Hf. destruct (silent_cases m Hm) as [[a ->]|[e ->]].
  - rewrite bind_ret. apply Hf.
  - done.
Qed.

Lemma silent_getitem df c : silent (getitem df c).
Proof. unfold getitem. by case_match. Qed.

Lemma silent_mapM {A B} (f : A → Py B) l :
  (∀ x, silent (f x)) → silent (mapM f l).
Proof.
  intros Hf. induction l as [|x l IH]; [done|].
  simpl. apply silent_bind; [done|]. intros y.
  apply silent_bind; [done|]. by intros ys.
Qed.

Lemma try_except_ret {A} (a : A) h : try_except (ret a) h = ret a.
Proof. done. Qed.

Lemma column_filter_rows df mask c :
  column (filter_rows df mask) c = boolean_index mask <$> column df c.
Proof.
  unfold column, filter_rows. cbn [cols].
  induction (cols df) as [|[n s] cs IH]; csimpl; [done|]. by case_decide.
Qed.

Lemma elem_of_unique s v : v ∈ unique s ↔ v ∈ s.
Proof.
  induction s as [|w s IH]; [done|]. simpl.
  rewrite !elem_of_cons, list_elem_of_filter, IH.
  destruct (decide (v = w)); naive_solver.
Qed.

Lemma NoDup_unique s : NoDup (unique s).
Proof.
  induction s as [|w s IH]; simpl; [constructor|].
  apply NoDup_cons. split.
  - rewrite list_elem_of_filter. by intros [? _].
  - by apply NoDup_filter.
Qed.

(** Whatever the table and the names, the function returns a dictionary
    and prints nothing; in a test report the flag is [p < 0.05]. *)
Lemma calculate_stats_total `{Lib} df group_col target_col :
  ∃ r, calculate_stats df group_col target_col = ret r
       ∧ match r with
         | Stats_none _ => True
         | Stats_test _ p sig _ => sig = float_lt p (Q2Qc (5 # 100))
         end.
Proof.
  unfold calculate_stats.
  destruct (silent_cases _ (silent_getitem df group_col)) as [[gc ->]|[e ->]];
    [rewrite bind_ret|by eexists].
  set (groups := unique (dropna gc)).
  match goal with |- context [mapM ?f groups] =>
    destruct (silent_cases (mapM f groups)) as [[gd ->]|[e ->]]
  end.
  { apply silent_mapM. intros g. apply silent_bind; [done|].
    intros gc'. apply silent_bind; [apply silent_getitem|]. by intros t. }
  2:{ by eexists. }
  rewrite bind_ret. case_bool_decide; [by eexists|].
  case_bool_decide.
  - unfold list_get.
    destruct (gd !! 0%nat) as [g0|]; [rewrite bind_ret|by eexists].
    destruct (gd !! 1%nat) as [g1|]; [rewrite bind_ret|by eexists].
    destruct (mannwhitneyu g0 g1 two_sided) as [[stat p]|e]; by eexists.
  - destruct (kruskal gd) as [[stat p]|e]; by eexists.
Qed.

(** C9.  For a table with the grouping column and the outcome column, let
    [groups] be the distinct non-null values of the grouping column, in
    order of first appearance.  With
    fewer than two of them [calculate_stats] reports "Insufficient groups",
    whatever the tests would say; with exactly two it reports the two-sided
    Mann-Whitney U test of the two samples (the non-null outcomes of each
    group), with more than two the Kruskal-Wallis test of all samples; a
    test that raises is reported as "Error calculating stats".  On any
    table and any two names the function returns a dictionary, never an
    exception, and in a test report the flag holds exactly when the p-value
    is a number below 0.05. *)
Theorem stats_dispatch `{Lib} (df : DataFrame) (group_col target_col : string)
    (gc tc : Series) :
  column df group_col = Some gc →
  column df target_col = Some tc →
  let groups := unique (dropna gc) in
    NoDup groups
    ∧ (∀ v, v ∈ groups ↔ v ∈ gc ∧ v ≠ VNull)
    ∧ ((length groups < 2)%nat →
       calculate_stats df group_col target_col = ret (Stats_none "Insufficient groups"))
    ∧ (length groups = 2%nat →
       ∃ a b, groups = [a; b]
         ∧ calculate_stats df group_col target_col
           = ret (match mannwhitneyu (dropna (boolean_index (series_eq gc a) tc))
                          (dropna (boolean_index (series_eq gc b) tc)) two_sided with
                  | Ok sp =>
                      Stats_test "Mann-Whitney U" sp.2 (float_lt sp.2 (Q2Qc (5 # 100)))
                        (if float_lt sp.2 (Q2Qc (5 # 100))
                         then "Statistically Significant Difference"
                         else "No Significant Difference")
                  | Raise _ => Stats_none "Error calculating stats"
                  end))
    ∧ ((2 < length groups)%nat →
       calculate_stats df group_col target_col
       = ret (match kruskal ((λ g, dropna (boolean_index (series_eq gc g) tc))
                               <$> groups) with
              | Ok sp =>
                  Stats_test "Kruskal-Wallis" sp.2 (float_lt sp.2 (Q2Qc (5 # 100)))
                    (if float_lt sp.2 (Q2Qc (5 # 100))
                     then "Statistically Significant Difference"
                     else "No Significant Difference")
              | Raise _ => Stats_none "Error calculating stats"
              end))
    ∧ (∀ df' g t, ∃ r, calculate_stats df' g t = ret r)
    ∧ (∀ df' g t test p sig msg,
         calculate_stats df' g t = ret (Stats_test test p sig msg) →
         sig = true ↔ ∃ q, p = Some q ∧ (q < Q2Qc (5 # 100))%Qc).
Proof.
  intros Hgc Htc groups.
  split; [apply NoDup_unique|]. split.
  { intros v. unfold groups, dropna. rewrite elem_of_unique, list_elem_of_filter.
    tauto. }
  set (sample := λ g, dropna (boolean_index (series_eq gc g) tc)).
  assert (calculate_stats df group_col target_col
          = try_except
              (if bool_decide (length groups < 2)%nat then
                 ret (Stats_none "Insufficient groups")
               else
                 r ← (if bool_decide (length groups = 2%nat) then
                        g0 ← list_get (sample <$> groups) 0;
                        g1 ← list_get (sample <$> groups) 1;
                        sp ← lift (mannwhitneyu g0 g1 two_sided);
                        ret ("Mann-Whitney U", sp.2)
                      else
                        sp ← lift (kruskal (sample <$> groups));
                        ret ("Kruskal-Wallis", sp.2));
                 ret (Stats_test r.1 r.2 (float_lt r.2 (Q2Qc (5 # 100)))
                        (if float_lt r.2 (Q2Qc (5 # 100))
                         then "Statistically Significant Difference"
                         else "No Significant Difference")))
              (λ _, ret (Stats_none "Error calculating stats"))) as Hrun.
  { unfold calculate_stats. rewrite (getitem_column _ _ _ Hgc), bind_ret.
    fold groups. rewrite (mapM_pure _ sample), bind_ret; [done|].
    apply Forall_forall. intros g _. cbv beta. rewrite bind_ret.
    rewrite (getitem_column _ _ (boolean_index (series_eq gc g) tc)), bind_ret;
      [done|]. by rewrite column_filter_rows, Htc. }
  split; [|split; [|split; [|split]]].
  - intros Hlt. rewrite Hrun, bool_decide_eq_true_2 by done. done.
  - intros H2. destruct groups as [|a [|b [|c ?]]] eqn:E; try done.
    exists a, b. split; [done|]. rewrite Hrun. clear Hrun.
    rewrite bool_decide_eq_false_2 by (simpl; lia).
    rewrite bool_decide_eq_true_2 by done.
    unfold list_get. cbn [fmap list_fmap lookup list_lookup].
    rewrite !bind_ret. subst sample. cbv beta.
    by destruct (mannwhitneyu _ _ two_sided) as [[stat p]|e].
  - intros H2. rewrite Hrun. clear Hrun.
    rewrite bool_decide_eq_false_2 by lia.
    rewrite bool_decide_eq_false_2 by lia.
    subst sample.
    by destruct (kruskal _) as [[stat p]|e].
  - intros df' g t. destruct (calculate_stats_total df' g t) as (r & Hr & _). eauto.
  - intros df' g t test p sig msg Hr.
    destruct (calculate_stats_total df' g t) as (r & Hr' & Hsig).
    rewrite Hr in Hr'. injection Hr' as <-. subst sig.
    destruct p as [q|]; simpl.
    + unfold Qc_ltb. rewrite bool_decide_eq_true. naive_solver.
    + split; [done|]. by intros (q & ? & _).
Qed.

Lemma stats_dispatch_witness :
  calculate_stats (H := Sample.lib) (waits_by_group (VStr "F") VNull)
    "Gender" "Time_to_A1_Mins"
  = ret (Stats_test "Mann-Whitney U" (Some (num 1)) false "No Significant Difference").
Proof.
  destruct (stats_dispatch (H := Sample.lib) (waits_by_group (VStr "F") VNull)
              "Gender" "Time_to_A1_Mins"
              [VStr "F"; VStr "M"; VNull; VStr "F"]
              [VNum (num 10); VNum (num 25); VNum (num 5); VNull]
              eq_refl eq_refl) as (_ & _ & _ & Htwo & _).
  destruct (Htwo eq_refl) as (a & b & Hab & Hrun).
  injection Hab as <- <-. exact Hrun.
Defined.

(** The dispatcher on one, two and three groups, on a group whose sample
    the test refuses, and on a column that does not exist. *)
Example stats_examples :
  let run df g := returned (calculate_stats (H := Sample.lib) df g "Time_to_A1_Mins") in
  run (waits_by_group VNull VNull) "Gender"
  = Some (Stats_test "Mann-Whitney U" (Some (num 1)) false "No Significant Difference")
  ∧ run (waits_by_group (VStr "X") (VNum (num 7))) "Gender"
    = Some (Stats_test "Kruskal-Wallis" (Some (num 1)) false "No Significant Difference")
  ∧ run (waits_by_group (VStr "X") VNull) "Gender"
    = Some (Stats_none "Error calculating stats")
  ∧ run (audit_record (VStr "Sev Pain") VNull (VNum (num 5)) VNull) "First Pain Score"
    = Some (Stats_none "Insufficient groups")
  ∧ run (waits_by_group VNull VNull) "Ethnicity"
    = Some (Stats_none "Error calculating stats").
Proof. by vm_compute. Qed.

(** * Further properties of the program *)

Lemma bind_ok {A B} pr (a : A) (f : A → Py B) :
  (x ← mkPy pr (Ok a); f x) = mkPy (pr ++ printed (f a)) (outcome (f a)).
Proof. done. Qed.

Lemma calculate_time_intervals_run df arr tri ps1 a1 ps2 :
  column df "Arrival DTTM" = Some arr →
  column df "Triage DTTM" = Some tri →
  column df "First Pain Score DTTM" = Some ps1 →
  column df "First Analgesia DTTM" = Some a1 →
  column df "Second Pain Score DTTM" = Some ps2 →
  Forall datetime_cell arr → Forall datetime_cell tri →
  Forall datetime_cell ps1 → Forall datetime_cell a1 →
  Forall datetime_cell ps2 →
  calculate_time_intervals df = ret (with_intervals df arr tri ps1 a1 ps2).
Proof.
  intros Harr Htri Hps1 Ha1 Hps2 Farr Ftri Fps1 Fa1 Fps2.
  assert (∀ c, c ∈ required_date_cols → c ∈ columns df) as Hall.
  { intros c Hc. unfold required_date_cols in Hc. apply column_is_Some.
    repeat (apply elem_of_cons in Hc as [->|Hc]); eauto.
    by apply elem_of_nil in Hc. }
  unfold calculate_time_intervals.
  rewrite filter_none by (apply Forall_forall; intros c Hin Hnot; apply Hnot; auto).
  rewrite bool_decide_eq_false_2 by (by intros ?).
  rewrite bool_decide_eq_true_2 by (apply Hall; set_solver).
  rewrite (set_interval_run _ _ _ _ _ _ Htri Harr Ftri Farr), bind_ret.
  rewrite (set_interval_run _ _ _ _ ps1 arr), bind_ret by (by rewrite ?column_setitem_ne).
  rewrite (set_interval_run _ _ _ _ a1 arr), bind_ret by (by rewrite ?column_setitem_ne).
  rewrite (set_interval_run _ _ _ _ ps2 arr), bind_ret by (by rewrite ?column_setitem_ne).
  rewrite (set_interval_run _ _ _ _ ps2 a1), bind_ret by (by rewrite ?column_setitem_ne).
  rewrite (set_interval_run _ _ _ _ a1 ps2), bind_ret by (by rewrite ?column_setitem_ne).
  reflexivity.
Qed.

Lemma minutes_diff_float a b : float_cell (minutes_diff a b).
Proof. by destruct a, b. Qed.

Lemma zip_with_minutes_float a b : Forall float_cell (zip_with minutes_diff a b).
Proof.
  apply Forall_forall. intros v Hv. apply elem_of_zip_with in Hv as (x & y & -> & _).
  apply minutes_diff_float.
Qed.

Lemma column_with_intervals_other df arr tri ps1 a1 ps2 c :
  c ∉ interval_names →
  column (with_intervals df arr tri ps1 a1 ps2) c = column df c.
Proof.
  intros Hc. unfold with_intervals. cbv zeta.
  rewrite !column_setitem_ne; [done|..]; intros <-; apply Hc;
    unfold interval_names, interval_columns; csimpl; set_solver.
Qed.

Lemma columns_with_intervals df arr tri ps1 a1 ps2 c :
  c ∈ columns (with_intervals df arr tri ps1 a1 ps2)
  ↔ c ∈ columns df ∨ c ∈ interval_names.
Proof.
  unfold with_intervals. cbv zeta. rewrite !columns_setitem.
  unfold interval_names, interval_columns. csimpl. set_solver.
Qed.

Lemma timestamps_converted_run df :
  timestamps_converted df →
  ∃ arr tri ps1 a1 ps2,
    column df "Arrival DTTM" = Some arr
    ∧ column df "Triage DTTM" = Some tri
    ∧ column df "First Pain Score DTTM" = Some ps1
    ∧ column df "First Analgesia DTTM" = Some a1
    ∧ column df "Second Pain Score DTTM" = Some ps2
    ∧ calculate_time_intervals df = ret (with_intervals df arr tri ps1 a1 ps2).
Proof.
  intros Hconv.
  destruct (Hconv "Arrival DTTM") as (arr & Harr & Farr); [set_solver|].
  destruct (Hconv "Triage DTTM") as (tri & Htri & Ftri); [set_solver|].
  destruct (Hconv "First Pain Score DTTM") as (ps1 & Hps1 & Fps1); [set_solver|].
  destruct (Hconv "First Analgesia DTTM") as (a1 & Ha1 & Fa1); [set_solver|].
  destruct (Hconv "Second Pain Score DTTM") as (ps2 & Hps2 & Fps2); [set_solver|].
  exists arr, tri, ps1, a1, ps2. do 5 (split; [done|]).
  by apply calculate_time_intervals_run.
Qed.


Lemma well_formed_setitem df c s :
  well_formed df → length s = nrows df → well_formed (setitem df c s).
Proof.
  unfold well_formed, setitem. cbn [nrows cols]. intros Hwf Hs.
  induction Hwf as [|[n s'] cs Hx Hcs IH]; simpl.
  - by repeat constructor.
  - case_decide; constructor; simpl; try done.
Qed.


Lemma length_zip_with_same {A B C} (f : A → B → C) (a : list A) (b : list B) n :
  length a = n → length b = n → length (zip_with f a b) = n.
Proof. intros Ha Hb. rewrite length_zip_with. lia. Qed.

(** X2.  On a well-formed table whose five timestamp columns are
    converted, [calculate_time_intervals] keeps the rows and every column it
    got, and adds the six interval columns, each a float column of the same
    length. *)
Theorem time_intervals_frame (df : DataFrame) :
  well_formed df →
  timestamps_converted df →
  ∃ out,
    calculate_time_intervals df = ret out
    ∧ nrows out = nrows df
    ∧ well_formed out
    ∧ (∀ c, c ∈ columns out ↔ c ∈ columns df ∨ c ∈ interval_names)
    ∧ (∀ c, c ∉ interval_names → column out c = column df c)
    ∧ (∀ c, c ∈ interval_names →
         ∃ s, column out c = Some s ∧ Forall float_cell s ∧ length s = nrows df).
Proof.
  intros Hwf Hconv.
  destruct (timestamps_converted_run df Hconv)
    as (arr & tri & ps1 & a1 & ps2 & Harr & Htri & Hps1 & Ha1 & Hps2 & Hrun).
  pose proof (column_length _ _ _ Hwf Harr) as Larr.
  pose proof (column_length _ _ _ Hwf Htri) as Ltri.
  pose proof (column_length _ _ _ Hwf Hps1) as Lps1.
  pose proof (column_length _ _ _ Hwf Ha1) as La1.
  pose proof (column_length _ _ _ Hwf Hps2) as Lps2.
  exists (with_intervals df arr tri ps1 a1 ps2).
  split; [done|]. split; [done|]. split; [|split; [|split]].
  - unfold with_intervals. cbv zeta.
    repeat (apply well_formed_setitem; [|by apply length_zip_with_same]). done.
  - apply columns_with_intervals.
  - intros c. apply column_with_intervals_other.
  - intros c Hc. unfold interval_names, interval_columns in Hc. csimpl in Hc.
    unfold with_intervals. cbv zeta.
    repeat (apply elem_of_cons in Hc as [->|Hc]); try (by apply elem_of_nil in Hc);
      (eexists; split; [rewrite ?column_setitem_ne by done; apply column_setitem_eq|];
       split; [apply zip_with_minutes_float|by apply length_zip_with_same]).
Qed.

(** ** Pain scores *)

Lemma map_score_float v : float_cell (map_score v).
Proof. destruct v as [|s| |]; simpl; try done. by case_match. Qed.

Lemma map_score_pain_score v :
  map_score v = from_option (λ n, VNum (num n)) VNull (pain_score v).
Proof. destruct v as [|s| |]; simpl; try done. Qed.

Lemma sub_float_floats a b :
  float_cell a → float_cell b → sub_float a b = ret (float_sub a b).
Proof. by destruct a, b. Qed.

Lemma calculate_pain_scores_run df first second :
  column df "First Pain Score" = Some first →
  column df "Second Pain Score" = Some second →
  calculate_pain_scores df = ret (with_scores df first second).
Proof.
  intros Hf Hs. unfold calculate_pain_scores.
  rewrite (getitem_column _ _ _ Hf), bind_ret.
  rewrite (getitem_column _ _ second), bind_ret by (by rewrite column_setitem_ne).
  rewrite (getitem_column _ "Second_Score_Num" (map_score <$> second)), bind_ret
    by apply column_setitem_eq.
  rewrite (getitem_column _ "First_Score_Num" (map_score <$> first)), bind_ret
    by (rewrite column_setitem_ne by done; apply column_setitem_eq).
  rewrite (mapM_pure _ (λ p, float_sub p.1 p.2)), bind_ret.
  - unfold with_scores. cbv zeta. do 2 f_equal.
    generalize (map_score <$> second) (map_score <$> first).
    induction l as [|x l IH]; intros [|y k]; simpl; try done. by rewrite IH.
  - apply Forall_forall. intros [a b] Hin. simpl.
    apply elem_of_zip_with in Hin as (x & y & [= -> ->] & Hx & Hy).
    apply list_elem_of_fmap in Hx as (x' & -> & _).
    apply list_elem_of_fmap in Hy as (y' & -> & _).
    apply sub_float_floats; apply map_score_float.
Qed.

Lemma pain_score_range v n : pain_score v = Some n → 0 ≤ n ≤ 3.
Proof.
  destruct v as [|s| |]; simpl; try done. unfold score_map. simpl.
  repeat (case_decide; [intros [= <-]; lia|]). done.
Qed.

Lemma num_sub a b : (num a - num b)%Qc = num (a - b).
Proof.
  apply Qc_is_canon. unfold num, Qcminus, Qcplus, Qcopp. simpl.
  rewrite !Qred_correct. unfold Qeq. simpl. lia.
Qed.

(** X3.  [calculate_pain_scores] fails exactly when one of the two label
    columns is missing, with the [KeyError] of the first one missing; any
    cell contents are accepted.  In every record the two numeric scores are
    0 to 3 for the four known labels and null for anything else, and the
    improvement is second minus first, a whole number from -3 to 3, null as
    soon as one of the two labels is not known. *)
Theorem pain_scores_contract (df : DataFrame) :
  (column df "First Pain Score" = None →
   calculate_pain_scores df = raise (KeyError "First Pain Score"))
  ∧ (∀ first, column df "First Pain Score" = Some first →
       column df "Second Pain Score" = None →
       calculate_pain_scores df = raise (KeyError "Second Pain Score"))
  ∧ (∀ first second,
       column df "First Pain Score" = Some first →
       column df "Second Pain Score" = Some second →
       ∃ out s1 s2 imp,
         calculate_pain_scores df = ret out
         ∧ column out "First_Score_Num" = Some s1
         ∧ column out "Second_Score_Num" = Some s2
         ∧ column out "Pain_Score_Improvement" = Some imp
         ∧ ∀ i f s, first !! i = Some f → second !! i = Some s →
             s1 !! i = Some (from_option (λ n, VNum (num n)) VNull (pain_score f))
             ∧ s2 !! i = Some (from_option (λ n, VNum (num n)) VNull (pain_score s))
             ∧ match pain_score f, pain_score s with
               | Some a, Some b =>
                   imp !! i = Some (VNum (num (b - a))) ∧ -3 ≤ b - a ≤ 3
               | _, _ => imp !! i = Some VNull
               end).
Proof.
  split; [|split].
  - intros Hf. unfold calculate_pain_scores, getitem. unfold column in Hf.
    by rewrite Hf.
  - intros first Hf Hs. unfold calculate_pain_scores.
    rewrite (getitem_column _ _ _ Hf), bind_ret.
    unfold getitem. cbn [setitem cols]. rewrite lookup_assign_ne by done.
    unfold column in Hs. by rewrite Hs.
  - intros first second Hf Hs. eexists _, _, _, _.
    split; [by apply calculate_pain_scores_run|].
    unfold with_scores. cbv zeta.
    split; [rewrite !column_setitem_ne by done; apply column_setitem_eq|].
    split; [rewrite column_setitem_ne by done; apply column_setitem_eq|].
    split; [apply column_setitem_eq|].
    intros i f s Hfi Hsi.
    rewrite lookup_zip_with, !list_lookup_fmap, Hfi, Hsi. simpl.
    rewrite !map_score_pain_score. split; [done|]. split; [done|].
    destruct (pain_score f) as [a|] eqn:Ea, (pain_score s) as [b|] eqn:Eb;
      simpl; try done.
    rewrite num_sub. split; [done|].
    apply pain_score_range in Ea, Eb. lia.
Qed.

(** ** Age groups *)

Lemma setitem_same df c s : column df c = Some s → setitem df c s = df.
Proof.
  unfold column, setitem. destruct df as [n cs]. cbn [cols nrows]. intros Hc.
  f_equal. induction cs as [|[m s'] cs IH]; simpl in *; [done|].
  case_decide; [by simplify_eq|]. by rewrite IH.
Qed.

Lemma to_numeric_idemp `{Lib} v : to_numeric (to_numeric v) = to_numeric v.
Proof.
  destruct v as [|s|q|t]; simpl; try done.
  - by destruct (to_numeric_str s).
  - by destruct (to_numeric_time t).
Qed.

Lemma create_age_groups_run `{Lib} df age :
  column df "Age" = Some age →
  create_age_groups df
  = ret (setitem (setitem df "Age" (to_numeric <$> age)) "Age_Group"
           (cut_float age_bins age_labels <$> (to_numeric <$> age))).
Proof.
  intros Hage. unfold create_age_groups.
  rewrite (getitem_column _ _ _ Hage), bind_ret.
  rewrite (getitem_column _ _ _ (column_setitem_eq _ _ _)), bind_ret.
  rewrite (mapM_pure _ (cut_float age_bins age_labels)), bind_ret; [done|].
  apply Forall_fmap, Forall_forall. intros v _. simpl.
  apply cut_float_cell. exact (to_numeric_float v).
Qed.

(** X4.  [create_age_groups] raises [KeyError] without an [Age] column.
    Otherwise it returns: it overwrites [Age] with its numeric coercion (a
    non-numeric age is null from then on), adds [Age_Group], and keeps the
    rows and all other columns; run again on its result it changes
    nothing. *)
Theorem age_groups_frame `{Lib} (df : DataFrame) :
  (column df "Age" = None → create_age_groups df = raise (KeyError "Age"))
  ∧ (∀ age, column df "Age" = Some age →
       ∃ out,
         create_age_groups df = ret out
         ∧ nrows out = nrows df
         ∧ column out "Age" = Some (to_numeric <$> age)
         ∧ (∀ c, c ≠ "Age" → c ≠ "Age_Group" → column out c = column df c)
         ∧ (∀ c, c ∈ columns out ↔ c ∈ columns df ∨ c = "Age_Group")
         ∧ (well_formed df → well_formed out)
         ∧ create_age_groups out = ret out).
Proof.
  split.
  - intros Hage. unfold create_age_groups, getitem. unfold column in Hage.
    by rewrite Hage.
  - intros age Hage. eexists. split; [by apply create_age_groups_run|].
    split; [done|]. split; [|split; [|split; [|split]]].
    + rewrite column_setitem_ne by done. apply column_setitem_eq.
    + intros c H1 H2. by rewrite !column_setitem_ne.
    + intros c. rewrite !columns_setitem.
      assert ("Age" ∈ columns df) by (apply column_is_Some; eauto).
      split.
      * intros [Hc|[Hc|Hc]]; subst; auto.
      * intros [Hc|Hc]; subst; auto.
    + intros Hwf. pose proof (column_length _ _ _ Hwf Hage) as Hlen.
      apply well_formed_setitem; [apply well_formed_setitem; [done|]|];
        by rewrite ?length_fmap.
    + set (out := setitem (setitem df "Age" _) "Age_Group" _).
      assert (column out "Age" = Some (to_numeric <$> age)) as Hout
        by (unfold out; rewrite column_setitem_ne by done; apply column_setitem_eq).
      rewrite (create_age_groups_run out _ Hout).
      assert ((to_numeric <$> (to_numeric <$> age)) = (to_numeric <$> age)) as ->.
      { rewrite <-list_fmap_compose. apply list_fmap_ext. intros ? v _.
        apply to_numeric_idemp. }
      rewrite (setitem_same out "Age") by done.
      rewrite (setitem_same out "Age_Group"); [done|]. apply column_setitem_eq.
Qed.

(** ** More on the compliance classifier *)

Lemma count_rows_cover (a b c : list bool) :
  (∀ i, c !! i = Some true → a !! i = Some true ∨ b !! i = Some true) →
  count_rows c ≤ count_rows a + count_rows b.
Proof.
  revert a b. induction c as [|x c IH]; intros a b Hc.
  - pose proof (count_rows_nonneg a). pose proof (count_rows_nonneg b).
    unfold count_rows at 1. simpl. lia.
  - specialize (IH (tail a) (tail b)).
    assert (count_rows c ≤ count_rows (tail a) + count_rows (tail b)) as Ht.
    { apply IH. intros i Hi. destruct (Hc (S i) Hi) as [?|?];
        [left; by destruct a|right; by destruct b]. }
    rewrite count_rows_cons. destruct x; [|destruct a as [|[] a], b as [|[] b];
      rewrite ?count_rows_cons; simpl in *; unfold count_rows in *; simpl in *; lia].
    destruct (Hc 0%nat eq_refl) as [Ha|Hb].
    + destruct a as [|[] a]; simplify_eq/=. rewrite (count_rows_cons true).
      destruct b as [|[] b]; rewrite ?count_rows_cons; simpl in *;
        unfold count_rows in *; simpl in *; lia.
    + destruct b as [|[] b]; simplify_eq/=. rewrite (count_rows_cons true).
      destruct a as [|[] a]; rewrite ?count_rows_cons; simpl in *;
        unfold count_rows in *; simpl in *; lia.
Qed.

Lemma count_yes_no (m : list bool) :
  count_rows (series_eq (np_where m (VStr "Yes") (VStr "No")) (VStr "Yes"))
  + count_rows (series_eq (np_where m (VStr "Yes") (VStr "No")) (VStr "No"))
  = Z.of_nat (length m).
Proof.
  induction m as [|[] m IH]; [done| |];
    unfold np_where, series_eq in *; csimpl; rewrite !count_rows_cons;
    simpl; lia.
Qed.

Lemma length_mask_and a b n :
  length a = n → length b = n → length (mask_and a b) = n.
Proof. apply length_zip_with_same. Qed.

Lemma length_mask_or a b n :
  length a = n → length b = n → length (mask_or a b) = n.
Proof. apply length_zip_with_same. Qed.

Lemma length_series_eq s k : length (series_eq s k) = length s.
Proof. apply length_fmap. Qed.

Section FunnelTotals.
Variables (df : DataFrame) (fps ps1 a1 a1ps2 : Series).
Hypothesis Hwf : well_formed df.
Hypothesis Hfps : column df "First Pain Score" = Some fps.
Hypothesis Hps1 : column df "Time_to_PS1_Mins" = Some ps1.
Hypothesis Ha1 : column df "Time_to_A1_Mins" = Some a1.
Hypothesis Ha1ps2 : column df "A1_to_PS2_Mins" = Some a1ps2.
Hypothesis Fps1 : Forall float_cell ps1.
Hypothesis Fa1 : Forall float_cell a1.
Hypothesis Fa1ps2 : Forall float_cell a1ps2.

(** X5.  The totals that go with the funnel: every record is counted as
    compliant or as not compliant, so the two counts add up to the number
    of records; and every compliant record is in one of the two best
    practice nodes, severe or moderate. *)
Theorem funnel_totals :
  ∃ df' sk,
    calculate_best_practice df = ret (df', sk)
    ∧ total_patients sk = Z.of_nat (nrows df)
    ∧ best_practice_yes sk + best_practice_no sk = total_patients sk
    ∧ best_practice_yes sk = node_count sk 9 + node_count sk 10.
Proof.
  run_best_practice Hfps Hps1 Ha1 Ha1ps2 Fps1 Fa1 Fa1ps2.
  eexists _, _. split; [reflexivity|].
  pose proof (column_length _ _ _ Hwf Hfps) as Lfps.
  pose proof (column_length _ _ _ Hwf Hps1) as Lps1.
  pose proof (column_length _ _ _ Hwf Ha1) as La1.
  pose proof (column_length _ _ _ Hwf Ha1ps2) as La1ps2.
  set (P := cell_leb (num 15) <$> ps1).
  set (S := series_eq fps (VStr "Sev Pain")).
  set (M := series_eq fps (VStr "Mod Pain")).
  set (mask := mask_and P _).
  cbn [total_patients best_practice_yes best_practice_no].
  change (nrows (setitem df _ _)) with (nrows df).
  split; [done|]. split.
  - rewrite count_yes_no. f_equal. unfold mask, P, S, M.
    repeat first [apply length_mask_and | apply length_mask_or
                 | by rewrite ?length_series_eq, ?length_fmap].
  - unfold node_count, edges. cbn.
    set (Y := series_eq (np_where mask _ _) (VStr "Yes")).
    assert (∀ i, S !! i = Some true → M !! i = Some true → False) as HSM.
    { intros i HS HM. apply series_eq_true in HS, HM. congruence. }
    assert (count_rows (mask_and S Y) + count_rows (mask_and M Y) ≤ count_rows Y).
    { apply count_rows_disjoint; intros i; rewrite ?mask_and_true; [tauto|tauto|].
      intros [? _] [? _]. by apply (HSM i). }
    assert (count_rows Y ≤ count_rows (mask_and S Y) + count_rows (mask_and M Y)).
    { apply count_rows_cover. intros i HY. rewrite !mask_and_true.
      pose proof HY as HY'. unfold Y in HY'.
      apply (proj1 (np_where_yes _ _)) in HY'. unfold mask in HY'.
      apply mask_and_true in HY' as [_ [Hm|Hs]%mask_or_true];
        rewrite !mask_and_true in *; [right|left]; tauto. }
    lia.
Qed.

End FunnelTotals.

Section FunnelLabels.
Variables (df : DataFrame) (fps ps1 a1 a1ps2 : Series).
Hypothesis Hfps : column df "First Pain Score" = Some fps.
Hypothesis Hps1 : column df "Time_to_PS1_Mins" = Some ps1.
Hypothesis Ha1 : column df "Time_to_A1_Mins" = Some a1.
Hypothesis Ha1ps2 : column df "A1_to_PS2_Mins" = Some a1ps2.
Hypothesis Fps1 : Forall float_cell ps1.
Hypothesis Fa1 : Forall float_cell a1.
Hypothesis Fa1ps2 : Forall float_cell a1ps2.

(** X6.  The labels and the values of the funnel are computed by separate
    expressions, and they agree: the label of the root prints the total,
    and for every edge the label of its target node prints the value of the
    edge. *)
Theorem funnel_labels_print_values :
  ∃ df' sk,
    calculate_best_practice df = ret (df', sk)
    ∧ (∃ text, labels sk !! 0%nat = Some (label text (total_patients sk)))
    ∧ ∀ i t v, target sk !! i = Some t → value sk !! i = Some v →
        ∃ text, labels sk !! Z.to_nat t = Some (label text v).
Proof.
  run_best_practice Hfps Hps1 Ha1 Ha1ps2 Fps1 Fa1 Fa1ps2.
  eexists _, _. split; [reflexivity|].
  cbn [labels target value total_patients].
  split; [by eexists|].
  intros i t v Ht Hv.
  do 12 (destruct i as [|i]; [simplify_eq/=; by eexists|]).
  done.
Qed.

(** X7.  [calculate_best_practice] can be called again on the table it
    returned: the second call returns the same table and the same
    funnel. *)
Theorem best_practice_idempotent :
  ∃ df' sk,
    calculate_best_practice df = ret (df', sk)
    ∧ calculate_best_practice df' = ret (df', sk).
Proof.
  run_best_practice Hfps Hps1 Ha1 Ha1ps2 Fps1 Fa1 Fa1ps2.
  eexists _, _. split; [reflexivity|].
  set (bp := np_where _ _ _).
  assert (column (setitem df "Best_Practice" bp) "First Pain Score" = Some fps)
    as Hfps' by (by rewrite column_setitem_ne).
  assert (column (setitem df "Best_Practice" bp) "Time_to_PS1_Mins" = Some ps1)
    as Hps1' by (by rewrite column_setitem_ne).
  assert (column (setitem df "Best_Practice" bp) "Time_to_A1_Mins" = Some a1)
    as Ha1' by (by rewrite column_setitem_ne).
  assert (column (setitem df "Best_Practice" bp) "A1_to_PS2_Mins" = Some a1ps2)
    as Ha1ps2' by (by rewrite column_setitem_ne).
  run_best_practice Hfps' Hps1' Ha1' Ha1ps2' Fps1 Fa1 Fa1ps2.
  fold bp. rewrite (setitem_same (setitem df "Best_Practice" bp) "Best_Practice" bp)
    by apply column_setitem_eq.
  reflexivity.
Qed.

End FunnelLabels.

(** ** Witnesses *)

Lemma converted_record_converted : timestamps_converted converted_record.
Proof.
  intros c Hc. unfold required_date_cols in Hc.
  repeat (apply elem_of_cons in Hc as [->|Hc]);
    try (by apply elem_of_nil in Hc);
    (eexists; split; [reflexivity|repeat constructor]).
Defined.

Lemma converted_record_well_formed : well_formed converted_record.
Proof. repeat constructor. Defined.


Lemma time_intervals_frame_witness :
  ∃ out,
    calculate_time_intervals converted_record = ret out
    ∧ nrows out = nrows converted_record
    ∧ well_formed out
    ∧ (∀ c, c ∈ columns out ↔ c ∈ columns converted_record ∨ c ∈ interval_names)
    ∧ (∀ c, c ∉ interval_names → column out c = column converted_record c)
    ∧ (∀ c, c ∈ interval_names →
         ∃ s, column out c = Some s ∧ Forall float_cell s
              ∧ length s = nrows converted_record).
Proof.
  apply (time_intervals_frame converted_record converted_record_well_formed
           converted_record_converted).
Defined.

Lemma funnel_totals_witness :
  let df := audit_record (VStr "Sev Pain") (VNum (num 10)) (VNum (num 15))
              (VNum (num 15)) in
  ∃ df' sk,
    calculate_best_practice df = ret (df', sk)
    ∧ total_patients sk = Z.of_nat (nrows df)
    ∧ best_practice_yes sk + best_practice_no sk = total_patients sk
    ∧ best_practice_yes sk = node_count sk 9 + node_count sk 10.
Proof.
  intros df.
  apply (funnel_totals df [VStr "Sev Pain"] [VNum (num 10)] [VNum (num 15)]
           [VNum (num 15)]); try reflexivity; repeat constructor.
Defined.

Lemma funnel_labels_print_values_witness :
  let df := audit_record (VStr "Sev Pain") (VNum (num 10)) (VNum (num 15))
              (VNum (num 15)) in
  ∃ df' sk,
    calculate_best_practice df = ret (df', sk)
    ∧ (∃ text, labels sk !! 0%nat = Some (label text (total_patients sk)))
    ∧ ∀ i t v, target sk !! i = Some t → value sk !! i = Some v →
        ∃ text, labels sk !! Z.to_nat t = Some (label text v).
Proof.
  intros df.
  apply (funnel_labels_print_values df [VStr "Sev Pain"] [VNum (num 10)]
           [VNum (num 15)] [VNum (num 15)]); try reflexivity; repeat constructor.
Defined.

Lemma best_practice_idempotent_witness :
  let df := audit_record (VStr "Mod Pain") (VNum (num 10)) VNull
              (VNum (num 15)) in
  ∃ df' sk,
    calculate_best_practice df = ret (df', sk)
    ∧ calculate_best_practice df' = ret (df', sk).
Proof.
  intros df.
  apply (best_practice_idempotent df [VStr "Mod Pain"] [VNum (num 10)] [VNull]
           [VNum (num 15)]); try reflexivity; repeat constructor.
Defined.

(** ** The reference loader *)

Lemma columns_usecols t c :
  c ∈ columns
        (rename_columns
           (rename_map [("Postcode", "Postcode_Gov"); (IMD_DECILE_COL, "IMD_Decile")])
           (mkDataFrame (nrows t) (filter (λ c, c.1 ∈ IMD_COLS) (cols t))))
  ↔ (c = "Postcode_Gov" ∧ "Postcode" ∈ columns t)
    ∨ (c = "IMD_Decile" ∧ IMD_DECILE_COL ∈ columns t).
Proof.
  unfold columns, rename_columns. cbn [cols].
  rewrite <-list_fmap_compose. split.
  - intros [[n s] [-> [Hn Hin]%list_elem_of_filter]]%list_elem_of_fmap.
    cbn in Hn. unfold IMD_COLS in Hn.
    assert (n ∈ (cols t).*1) as Hin' by (apply list_elem_of_fmap; by exists (n, s)).
    apply elem_of_cons in Hn as [->|Hn]; [left; by split|].
    apply elem_of_cons in Hn as [->|Hn]; [right; by split|].
    by apply elem_of_nil in Hn.
  - intros [[-> [[n s] [Hn Hin]]%list_elem_of_fmap]
           |[-> [[n s] [Hn Hin]]%list_elem_of_fmap]];
      cbn in Hn; subst n.
    + apply list_elem_of_fmap. exists ("Postcode", s).
      split; [done|]. apply list_elem_of_filter. split; [|done].
      cbn. unfold IMD_COLS. set_solver.
    + apply list_elem_of_fmap. exists (IMD_DECILE_COL, s).
      split; [done|]. apply list_elem_of_filter. split; [|done].
      cbn. unfold IMD_COLS. set_solver.
Qed.

Lemma load_imd_data_unloadable `{Lib} file :
  unloadable file →
  ∃ e, load_imd_data file = mkPy [Error_loading_IMD_data e] (Ok empty_frame).
Proof.
  destruct file as [t|e]; simpl.
  - intros (c & Hc & Hno). exists ValueError.
    unfold load_imd_data, read_csv.
    change (lift (Ok t)) with (ret t). rewrite bind_ret.
    assert (forallb (λ c, bool_decide (c ∈ columns t)) IMD_COLS = false) as ->.
    { apply not_true_is_false. intros Hall.
      apply Hno. eapply bool_decide_eq_true_1, (proj1 (forallb_forall _ _) Hall).
      by apply list_elem_of_In. }
    done.
  - intros _. by exists e.
Qed.

Lemma unloadable_dec file : {unloadable file} + {¬ unloadable file}.
Proof.
  destruct file as [t|e]; simpl; [|by left].
  destruct (decide (Exists (λ c, c ∉ columns t) IMD_COLS)) as [Hex|Hno].
  - left. apply Exists_exists in Hex. done.
  - right. intros (c & Hc & Hn). apply Hno, Exists_exists. eauto.
Qed.

(** X8.  [load_imd_data] never raises.  Either the reader returned a table
    with the two columns asked for: then nothing is printed and the result
    has the rows of the file and exactly the columns [Postcode_Gov],
    [IMD_Decile] and [Join_Key], whatever else the file holds, the key
    being [join_key] of the postcode.  Or the result is the empty table and
    exactly one line is printed, the error. *)
Theorem reference_loader_contract `{Lib} (file : res DataFrame) :
  ∃ imd,
    outcome (load_imd_data file) = Ok imd
    ∧ ((∃ t pc,
          file = Ok t
          ∧ column t "Postcode" = Some pc
          ∧ printed (load_imd_data file) = []
          ∧ nrows imd = nrows t
          ∧ (∀ c, c ∈ columns imd ↔ c ∈ reference_columns)
          ∧ column imd "Postcode_Gov" = Some pc
          ∧ column imd "IMD_Decile" = column t IMD_DECILE_COL
          ∧ column imd "Join_Key" = Some (join_key <$> pc))
       ∨ (unloadable file
          ∧ imd = empty_frame
          ∧ ∃ e, printed (load_imd_data file) = [Error_loading_IMD_data e])).
Proof.
  destruct (unloadable_dec file) as [Hbad|Hgood].
  - destruct (load_imd_data_unloadable file Hbad) as [e He].
    exists empty_frame. rewrite He. split; [done|]. right. eauto.
  - destruct file as [t|e]; [|by destruct Hgood].
    assert ("Postcode" ∈ columns t) as Hin1.
    { destruct (decide ("Postcode" ∈ columns t)); [done|].
      destruct Hgood. exists "Postcode". split; [|done]. unfold IMD_COLS. set_solver. }
    assert (IMD_DECILE_COL ∈ columns t) as Hin2.
    { destruct (decide (IMD_DECILE_COL ∈ columns t)); [done|].
      destruct Hgood. exists IMD_DECILE_COL. split; [|done]. unfold IMD_COLS. set_solver. }
    apply column_is_Some in Hin1 as Hc1. destruct Hc1 as [pc Hpc].
    apply column_is_Some in Hin2 as Hc2. destruct Hc2 as [dec Hdec].
    assert (∃ renamed,
              load_imd_data (Ok t)
              = ret (setitem renamed "Join_Key" (join_key <$> pc))
              ∧ nrows renamed = nrows t
              ∧ (∀ c, c ∈ columns renamed ↔
                      (c = "Postcode_Gov" ∧ "Postcode" ∈ columns t)
                      ∨ (c = "IMD_Decile" ∧ IMD_DECILE_COL ∈ columns t))
              ∧ column renamed "Postcode_Gov" = Some pc
              ∧ column renamed "IMD_Decile" = Some dec)
      as (renamed & Hrun & Hn & Hcols & Hpg & Hd).
    { unfold load_imd_data, read_csv.
      change (lift (Ok t)) with (ret t). rewrite bind_ret.
      unfold IMD_COLS at 1. cbn [forallb].
      rewrite !bool_decide_eq_true_2 by done. cbn [andb]. rewrite bind_ret.
      set (renamed := rename_columns _ _).
      assert (column renamed "Postcode_Gov" = Some pc) as Hpg.
      { unfold renamed, column, rename_columns. cbn [cols].
        rewrite <-Hpc. apply (lookup_col_usecols (cols t) "Postcode").
        unfold IMD_COLS. set_solver. }
      assert (column renamed "IMD_Decile" = Some dec) as Hd.
      { unfold renamed, column, rename_columns. cbn [cols].
        rewrite <-Hdec. apply (lookup_col_usecols (cols t) IMD_DECILE_COL).
        unfold IMD_COLS. set_solver. }
      rewrite (getitem_column _ _ _ Hpg), bind_ret, try_except_ret.
      exists renamed. split; [done|]. split; [done|]. split; [|done].
      intros c. apply columns_usecols. }
    rewrite Hrun.
    eexists. split; [reflexivity|]. left. exists t, pc.
    split; [done|]. split; [done|]. split; [done|]. split; [done|].
    split; [|split; [|split]].
    + intros c. rewrite columns_setitem, Hcols. unfold reference_columns.
      rewrite !elem_of_cons, elem_of_nil. naive_solver.
    + by rewrite column_setitem_ne.
    + rewrite column_setitem_ne by done. by rewrite Hdec.
    + apply column_setitem_eq.
Qed.

(** X9.  A reference file that cannot be loaded has the effect of no
    reference data at all: the loader still returns, every table is
    enriched with [Unknown] only, and the pipeline gives exactly what it
    gives without reference data. *)
Theorem unloadable_reference_is_no_reference `{Lib} (ref patients : res DataFrame) :
  unloadable ref →
  ∃ imd,
    outcome (load_imd_data ref) = Ok imd
    ∧ (∀ df, merge_with_imd_data df (Some imd) = ret (unenriched df))
    ∧ process_monthly_data patients (Some imd) = process_monthly_data patients None.
Proof.
  intros Hbad. destruct (load_imd_data_unloadable ref Hbad) as [e He].
  exists empty_frame. rewrite He. split; [done|]. split; [done|]. reflexivity.
Qed.

Lemma unloadable_reference_is_no_reference_witness :
  ∃ imd,
    outcome (load_imd_data (H := Sample.lib) (Ok reference_file_without_decile)) = Ok imd
    ∧ (∀ df, merge_with_imd_data df (Some imd) = ret (unenriched df))
    ∧ process_monthly_data (H := Sample.lib) (Ok export_with_postcode) (Some imd)
      = process_monthly_data (H := Sample.lib) (Ok export_with_postcode) None.
Proof.
  apply (unloadable_reference_is_no_reference (H := Sample.lib)
           (Ok reference_file_without_decile) (Ok export_with_postcode)).
  exists IMD_DECILE_COL. split.
  - unfold IMD_COLS. apply elem_of_cons. right. apply elem_of_cons. by left.
  - vm_compute. intros Hin.
    repeat (apply elem_of_cons in Hin as [?|Hin]; [done|]).
    by apply elem_of_nil in Hin.
Defined.

(** ** Ingestion *)

Lemma filter_ext_in {A} (P Q : A → Prop) `{∀ x, Decision (P x)}
    `{∀ x, Decision (Q x)} (l : list A) :
  (∀ x, x ∈ l → P x ↔ Q x) → filter P l = filter Q l.
Proof.
  induction l as [|x l IH]; [done|]. intros Hl.
  rewrite !filter_cons.
  rewrite IH by (intros y Hy; apply Hl; by right).
  destruct (decide (P x)) as [HP|HP], (decide (Q x)) as [HQ|HQ]; try done.
  - destruct HQ. apply Hl; [by left|done].
  - destruct HP. apply Hl; [by left|done].
Qed.

Lemma filter_present_dropped (t : DataFrame) :
  filter (λ c : string * Series,
            c.1 ∉ filter (λ c, c ∈ columns t) COLS_TO_DROP) (cols t)
  = filter (λ c : string * Series, c.1 ∉ COLS_TO_DROP) (cols t).
Proof.
  apply filter_ext_in. intros [c s] Hin. cbn [fst].
  assert (c ∈ columns t) by (apply list_elem_of_fmap; by exists (c, s)).
  split; intros Hn Hin'; apply Hn.
  - by apply list_elem_of_filter.
  - by apply list_elem_of_filter in Hin' as [_ ?].
Qed.

(** X10.  [load_and_clean_pain_data] passes on the exception of the reader.
    Otherwise it returns a table with the rows of the file: the names of
    the columns are stripped first and the identifiers are dropped after,
    so a [Surname] or [Forename] column is dropped also when its header has
    spaces around it; every other column is kept with its data, under its
    stripped name and in the order of the file.  A file without these two
    columns is no error. *)
Theorem ingestion_contract `{Lib} (file : res DataFrame) :
  match file with
  | Raise e => load_and_clean_pain_data file = raise e
  | Ok t =>
      ∃ out,
        load_and_clean_pain_data file = ret out
        ∧ nrows out = nrows t
        ∧ cols out
          = filter (λ c, c.1 ∉ COLS_TO_DROP) (prod_map str_strip id <$> cols t)
        ∧ (∀ c s, (c, s) ∈ cols out ↔
                  (c ∉ COLS_TO_DROP) ∧ ∃ h, (h, s) ∈ cols t ∧ c = str_strip h)
        ∧ ("Surname" ∉ columns out) ∧ ("Forename" ∉ columns out)
        ∧ (well_formed t → well_formed out)
  end.
Proof.
  destruct file as [t|e]; [|done].
  unfold load_and_clean_pain_data. change (lift (Ok t)) with (ret t).
  rewrite bind_ret. eexists. split; [reflexivity|].
  unfold drop_columns. rewrite filter_present_dropped. cbn [nrows cols rename_columns].
  split; [done|]. split; [done|].
  assert (∀ c s,
    (c, s) ∈ filter (λ c : string * Series, c.1 ∉ COLS_TO_DROP)
               (prod_map str_strip id <$> cols t)
    ↔ (c ∉ COLS_TO_DROP) ∧ ∃ h, (h, s) ∈ cols t ∧ c = str_strip h) as Hiff.
  { intros c s. rewrite list_elem_of_filter, list_elem_of_fmap. cbn. split.
    - intros [Hc [[h s'] [Heq Hin]]]. cbn in Heq. simplify_eq. eauto.
    - intros [Hc [h [Hin ->]]]. split; [done|]. by exists (h, s). }
  split; [done|].
  assert (∀ c, c ∈ COLS_TO_DROP →
    c ∉ columns {| nrows := nrows t;
                   cols := filter (λ c : string * Series, c.1 ∉ COLS_TO_DROP)
                             (prod_map str_strip id <$> cols t) |}) as Hdrop.
  { intros c Hc [[c' s] [-> Hin]]%list_elem_of_fmap_1.
    apply Hiff in Hin as [Hno _]. done. }
  split; [apply Hdrop; unfold COLS_TO_DROP; set_solver|].
  split; [apply Hdrop; unfold COLS_TO_DROP; set_solver|].
  unfold well_formed. cbn [nrows cols]. intros Hwf.
  apply Forall_forall. intros [c s] Hin. apply Hiff in Hin as [_ [h [Hin _]]].
  by apply (proj1 (Forall_forall _ _) Hwf (h, s)).
Qed.

(** ** The statistical dispatcher on missing columns *)

Lemma dropna_all_null gc : Forall (λ v, v = VNull) gc → dropna gc = [].
Proof.
  intros Hall. unfold dropna. apply filter_none.
  eapply Forall_impl; [done|]. intros v -> Hne. done.
Qed.

Lemma dropna_some_value gc :
  ¬ Forall (λ v, v = VNull) gc → ∃ g rest, unique (dropna gc) = g :: rest.
Proof.
  intros Hnot. destruct (unique (dropna gc)) as [|g rest] eqn:Hu; [|eauto].
  destruct Hnot. apply Forall_forall. intros v Hin.
  destruct (decide (v = VNull)) as [|Hne]; [done|].
  assert (v ∈ unique (dropna gc)) as Hv.
  { apply elem_of_unique. unfold dropna. by apply list_elem_of_filter. }
  rewrite Hu in Hv. by apply elem_of_nil in Hv.
Qed.

(** X11.  What [calculate_stats] answers when a column is missing.  Without
    the grouping column the answer is the error.  Without the outcome
    column the answer is the error as soon as one record has a group; when
    no record has one, the missing column is never looked up and the answer
    is that the groups are insufficient. *)
Theorem stats_missing_columns `{Lib} (df : DataFrame) (group_col target_col : string) :
  (column df group_col = None →
   calculate_stats df group_col target_col
   = ret (Stats_none "Error calculating stats"))
  ∧ (∀ gc, column df group_col = Some gc → column df target_col = None →
       calculate_stats df group_col target_col
       = ret (Stats_none (if decide (Forall (λ v, v = VNull) gc)
                          then "Insufficient groups"
                          else "Error calculating stats"))).
Proof.
  split.
  - intros Hg. unfold calculate_stats, getitem. unfold column in Hg.
    by rewrite Hg.
  - intros gc Hg Ht. unfold calculate_stats.
    rewrite (getitem_column _ _ _ Hg), bind_ret.
    destruct (decide (Forall (λ v, v = VNull) gc)) as [Hall|Hsome].
    + rewrite (dropna_all_null gc Hall). done.
    + destruct (dropna_some_value gc Hsome) as (g & rest & ->).
      cbn [mapM]. rewrite bind_ret.
      assert (getitem (filter_rows df (series_eq gc g)) target_col
              = raise (KeyError target_col)) as ->.
      { unfold getitem.
        change (lookup_col (cols (filter_rows df (series_eq gc g))) target_col)
          with (column (filter_rows df (series_eq gc g)) target_col).
        by rewrite column_filter_rows, Ht. }
      done.
Qed.

(** ** Enrichment: every way it ends *)

Lemma mapM_ret_or_raise {A B} (f : A → Py B) (g : A → B) (P : A → Prop) e
    (l : list A) :
  (∀ x, P x → f x = ret (g x)) → (∀ x, ¬ P x → f x = raise e) →
  (∀ x, P x ∨ ¬ P x) →
  (Forall P l → mapM f l = ret (g <$> l))
  ∧ (¬ Forall P l → mapM f l = raise e).
Proof.
  intros Hok Hbad Hdec. split.
  - intros Hall. apply mapM_pure. eapply Forall_impl; [done|]. auto.
  - induction l as [|x l IH]; intros Hnot; [by destruct Hnot|].
    cbn [mapM]. destruct (Hdec x) as [Hx|Hx].
    + rewrite (Hok x Hx), bind_ret, IH; [done|].
      intros Hl. apply Hnot. by constructor.
    + by rewrite (Hbad x Hx).
Qed.

Lemma float_cell_cases v : float_cell v ∨ ¬ float_cell v.
Proof. destruct v; simpl; tauto. Qed.

Lemma map_quintile_not_float v : ¬ float_cell v → map_quintile v = raise TypeError.
Proof. destruct v; simpl; try done; intros Hn; by destruct Hn. Qed.

Lemma getitem_missing df c : c ∉ columns df → getitem df c = raise (KeyError c).
Proof.
  intros Hno. unfold getitem. apply lookup_col_None in Hno. by rewrite Hno.
Qed.

Lemma column_None df c : column df c = None ↔ c ∉ columns df.
Proof. apply lookup_col_None. Qed.

Lemma merge_with_imd_data_cases (df imd : DataFrame) :
  is_empty imd = false →
  (column imd "Join_Key" = None →
   merge_with_imd_data df (Some imd) = raise (KeyError "Join_Key"))
  ∧ (∀ rk, column imd "Join_Key" = Some rk →
       (column imd "IMD_Decile" = None →
        merge_with_imd_data df (Some imd) = raise (KeyError "IMD_Decile"))
       ∧ ∀ dec, column imd "IMD_Decile" = Some dec →
           (column df "Join_Key" = None →
            merge_with_imd_data df (Some imd) = raise (KeyError "Join_Key"))
           ∧ ∀ lk, column df "Join_Key" = Some lk →
               ("IMD_Decile" ∈ columns df →
                merge_with_imd_data df (Some imd) = raise (KeyError "IMD_Decile"))
               ∧ (("IMD_Decile" ∉ columns df) →
                  let joined := take_opt dec (merge_pairs lk rk).*2 in
                  (Forall float_cell joined →
                   merge_with_imd_data df (Some imd) = ret (enriched df lk rk dec))
                  ∧ (¬ Forall float_cell joined →
                     merge_with_imd_data df (Some imd) = raise TypeError))).
Proof.
  intros Hne. unfold merge_with_imd_data. rewrite Hne. cbn [negb].
  unfold select. cbn [mapM].
  split.
  { intros Hrk. apply column_None in Hrk. by rewrite (getitem_missing _ _ Hrk). }
  intros rk Hrk. rewrite (getitem_column _ _ _ Hrk), !bind_ret.
  split.
  { intros Hdec. apply column_None in Hdec. by rewrite (getitem_missing _ _ Hdec). }
  intros dec Hdec. rewrite (getitem_column _ _ _ Hdec), !bind_ret.
  unfold merge_left.
  split.
  { intros Hlk. apply column_None in Hlk. by rewrite (getitem_missing _ _ Hlk). }
  intros lk Hlk. rewrite (getitem_column _ _ _ Hlk), bind_ret.
  rewrite (getitem_column (mkDataFrame _ _) "Join_Key" rk), !bind_ret
    by reflexivity.
  cbn [cols columns].
  rewrite !filter_cons, filter_nil. cbn [fst snd].
  rewrite decide_False by (by intros ?).
  rewrite decide_True by done.
  set (pairs := merge_pairs lk rk).
  split.
  - intros Hin. csimpl.
    rewrite bool_decide_eq_true_2.
    2:{ split; [done|]. split; [done|].
        apply list_elem_of_fmap. exists ("IMD_Decile", dec). split; [done|].
        cbn [cols]. set_solver. }
    rewrite getitem_missing; [done|].
    unfold columns. cbn [cols]. rewrite fmap_app. apply not_elem_of_app. split.
    + intros Hx. apply list_elem_of_fmap_1 in Hx as [[n' s'] [Heq Hx]].
      apply list_elem_of_fmap_1 in Hx as [[n s] [Heq' Hns]].
      simplify_eq. cbn [fst snd] in Heq.
      assert (n ∈ (cols df).*1) as Hn by (apply list_elem_of_fmap; by exists (n, s)).
      case_bool_decide as Hsh.
      * destruct Hsh as (Hk & _ & Hsel).
        apply list_elem_of_fmap_1 in Hsel as [[m sm] [Hm Hsel]]. cbn in Hm. subst m.
        cbn [cols] in Hsel.
        apply elem_of_cons in Hsel as [Hsel|Hsel]; [by simplify_eq|].
        apply elem_of_cons in Hsel as [Hsel|Hsel]; [by simplify_eq|].
        by apply elem_of_nil in Hsel.
      * subst n. apply Hsh. split; [done|]. split; [done|].
        apply list_elem_of_fmap. exists ("IMD_Decile", dec). split; [done|].
        cbn [cols]. set_solver.
    + csimpl. intros Hx. apply elem_of_cons in Hx as [Hx|Hx]; [done|].
      by apply elem_of_nil in Hx.
  - intros Hfresh.
    assert (∀ c, c ∈ columns df →
              bool_decide (c ≠ "Join_Key" ∧ c ∈ columns df
                           ∧ c ∈ (([("Join_Key", rk); ("IMD_Decile", dec)]).*1 : list string))
              = false) as Hshared.
    { intros c Hc. apply bool_decide_eq_false_2. intros (Hk & _ & Hin).
      csimpl in Hin. apply elem_of_cons in Hin as [->|Hin]; [done|].
      apply elem_of_cons in Hin as [->|Hin]; [done|]. by apply elem_of_nil in Hin. }
    rewrite (list_fmap_ext _ (λ c, (c.1, take c.2 pairs.*1)) (cols df)).
    2:{ intros i [n s] Hi. cbn [fst snd]. rewrite Hshared; [done|].
        apply list_elem_of_fmap. exists (n, s). split; [done|].
        by eapply list_elem_of_lookup_2. }
    csimpl.
    rewrite bool_decide_eq_false_2 by (intros (_ & Hin & _); done).
    rewrite (getitem_column _ "IMD_Decile" (take_opt dec pairs.*2)).
    2:{ unfold column. cbn [cols]. rewrite lookup_col_app.
        rewrite (lookup_col_fmap (λ s, take s pairs.*1)).
        apply lookup_col_None in Hfresh. by rewrite Hfresh. }
    rewrite bind_ret.
    destruct (mapM_ret_or_raise map_quintile quintile_of float_cell TypeError
                (take_opt dec pairs.*2)
                map_quintile_float map_quintile_not_float float_cell_cases)
      as [Hall Hsome].
    split.
    + intros Hj. rewrite (Hall Hj), bind_ret. reflexivity.
    + intros Hj. by rewrite (Hsome Hj).
Qed.

(** X12.  With reference data that is not empty, [merge_with_imd_data]
    ends in one of six ways, decided in this order: [KeyError] when the
    reference table has no [Join_Key] or no [IMD_Decile] column, or the
    patient table no [Join_Key]; [KeyError] on [IMD_Decile] when the patient
    table already has a column of that name, because the join then gives
    both columns a suffix; [TypeError] when a decile that is joined to some
    record is not a number; and otherwise the enriched table.  A decile
    that is not a number in an entry no record matches does no harm. *)
Theorem enrichment_outcome (df imd : DataFrame) :
  is_empty imd = false →
  (column imd "Join_Key" = None →
   merge_with_imd_data df (Some imd) = raise (KeyError "Join_Key"))
  ∧ (∀ rk, column imd "Join_Key" = Some rk →
       (column imd "IMD_Decile" = None →
        merge_with_imd_data df (Some imd) = raise (KeyError "IMD_Decile"))
       ∧ ∀ dec, column imd "IMD_Decile" = Some dec →
           (column df "Join_Key" = None →
            merge_with_imd_data df (Some imd) = raise (KeyError "Join_Key"))
           ∧ ∀ lk, column df "Join_Key" = Some lk →
               ("IMD_Decile" ∈ columns df →
                merge_with_imd_data df (Some imd) = raise (KeyError "IMD_Decile"))
               ∧ (("IMD_Decile" ∉ columns df) →
                  let joined := take_opt dec (merge_pairs lk rk).*2 in
                  (Forall float_cell joined →
                   merge_with_imd_data df (Some imd) = ret (enriched df lk rk dec))
                  ∧ (¬ Forall float_cell joined →
                     merge_with_imd_data df (Some imd) = raise TypeError))).
Proof. apply merge_with_imd_data_cases. Qed.

Lemma enrichment_outcome_witness :
  let df := keyed_patient "AB1 2CD" "AB12CD" in
  let imd := reference [("AB12CD", 3)] in
  is_empty imd = false
  ∧ ((column imd "Join_Key" = None →
   merge_with_imd_data df (Some imd) = raise (KeyError "Join_Key"))
  ∧ (∀ rk, column imd "Join_Key" = Some rk →
       (column imd "IMD_Decile" = None →
        merge_with_imd_data df (Some imd) = raise (KeyError "IMD_Decile"))
       ∧ ∀ dec, column imd "IMD_Decile" = Some dec →
           (column df "Join_Key" = None →
            merge_with_imd_data df (Some imd) = raise (KeyError "Join_Key"))
           ∧ ∀ lk, column df "Join_Key" = Some lk →
               ("IMD_Decile" ∈ columns df →
                merge_with_imd_data df (Some imd) = raise (KeyError "IMD_Decile"))
               ∧ (("IMD_Decile" ∉ columns df) →
                  let joined := take_opt dec (merge_pairs lk rk).*2 in
                  (Forall float_cell joined →
                   merge_with_imd_data df (Some imd) = ret (enriched df lk rk dec))
                  ∧ (¬ Forall float_cell joined →
                     merge_with_imd_data df (Some imd) = raise TypeError)))).
Proof.
  intros df imd. split; [reflexivity|].
  apply (enrichment_outcome df imd). reflexivity.
Defined.

(** Membership in a list of names that is written out. *)
Ltac name_in_list :=
  repeat first [apply list_elem_of_here | apply list_elem_of_further].

Ltac name_not_in_list :=
  let Hin := fresh "Hin" in
  intros Hin;
  repeat (apply elem_of_cons in Hin as [Hin|Hin]; [done|]);
  by apply elem_of_nil in Hin.

Ltac names_of H :=
  repeat (apply elem_of_cons in H as [->|H]); try (by apply elem_of_nil in H).

(** ** The pipeline on a complete export *)






(** ** Every way the pipeline ends *)

Lemma bind_inv_ret {A B} (m : Py A) (f : A → Py B) b :
  (x ← m; f x) = ret b → ∃ a, m = ret a ∧ f a = ret b.
Proof.
  destruct m as [pr [a|e]]; [|done]. rewrite bind_ok.
  intros Heq. assert (pr = [] ∧ printed (f a) = []) as [-> Hpr].
  { apply app_eq_nil. by injection Heq. }
  exists a. split; [done|]. destruct (f a) as [pr' o']. simpl in *.
  injection Heq as _ ->. by subst pr'.
Qed.

Lemma getitem_inv_ret df c s : getitem df c = ret s → column df c = Some s.
Proof.
  unfold getitem, column. destruct (lookup_col (cols df) c); [|done].
  by intros [= ->].
Qed.

Lemma ret_inj {A} (a b : A) : ret a = ret b → a = b.
Proof. by intros [= ->]. Qed.

Lemma silent_le_num v k : silent (le_num v k).
Proof. by destruct v. Qed.

Lemma silent_gt_num v k : silent (gt_num v k).
Proof. by destruct v. Qed.

Ltac silence :=
  repeat first
    [ done
    | apply silent_getitem
    | apply silent_le_num
    | apply silent_gt_num
    | apply silent_mapM; intros
    | apply silent_bind; [|intros] ].

Lemma silent_map_quintile v : silent (map_quintile v).
Proof.
  unfold map_quintile. destruct (isna v); [done|].
  repeat (apply silent_bind; [apply silent_le_num|intros []; [done|]]). done.
Qed.

Lemma silent_merge_with_imd_data df imd_df : silent (merge_with_imd_data df imd_df).
Proof.
  unfold merge_with_imd_data. destruct imd_df as [imd|]; [|done].
  destruct (negb (is_empty imd)); [|done].
  unfold select, merge_left. silence. apply silent_map_quintile.
Qed.

Lemma silent_create_join_keys `{Lib} df : silent (create_join_keys df).
Proof. unfold create_join_keys. silence. Qed.

Lemma silent_report_month `{Lib} v : silent (report_month v).
Proof. by destruct v. Qed.

Lemma silent_set_interval df c a b : silent (set_interval df c a b).
Proof.
  unfold set_interval, series_minutes_between. silence.
  by destruct (_ : cell * cell) as [[] []].
Qed.

Lemma silent_calculate_pain_scores df : silent (calculate_pain_scores df).
Proof.
  unfold calculate_pain_scores. silence.
  by destruct (_ : cell * cell) as [[] []].
Qed.

Lemma silent_create_age_groups `{Lib} df : silent (create_age_groups df).
Proof.
  unfold create_age_groups. silence.
  match goal with |- silent (cut _ _ ?v) => destruct v; simpl; try done end.
  by case_match.
Qed.

Lemma silent_calculate_best_practice df : silent (calculate_best_practice df).
Proof. unfold calculate_best_practice, series_le, series_gt. silence. Qed.

Lemma Forall_float_cases l : Forall float_cell l ∨ ¬ Forall float_cell l.
Proof.
  induction l as [|v l IH]; [left; constructor|].
  destruct (float_cell_cases v) as [Hv|Hv].
  - destruct IH as [Hl|Hl]; [left; by constructor|].
    right. intros Hc. apply Hl. by inversion Hc.
  - right. intros Hc. apply Hv. by inversion Hc.
Qed.

Lemma merge_with_imd_data_inv_ret df imd_df out :
  merge_with_imd_data df imd_df = ret out →
  out = unenriched df
  ∨ ∃ lk rk dec,
      column df "Join_Key" = Some lk ∧ ("IMD_Decile" ∉ columns df)
      ∧ out = enriched df lk rk dec.
Proof.
  intros Hout. destruct imd_df as [imd|]; [|left; by apply ret_inj in Hout].
  destruct (is_empty imd) eqn:Hempty.
  { left. simpl in Hout. rewrite Hempty in Hout. by apply ret_inj in Hout. }
  destruct (merge_with_imd_data_cases df imd Hempty) as [H1 H2].
  destruct (column imd "Join_Key") as [rk|] eqn:Hrk; [|by rewrite H1 in Hout].
  destruct (H2 rk eq_refl) as [H3 H4].
  destruct (column imd "IMD_Decile") as [dec|] eqn:Hdec; [|by rewrite H3 in Hout].
  destruct (H4 dec eq_refl) as [H5 H6].
  destruct (column df "Join_Key") as [lk|] eqn:Hlk; [|by rewrite H5 in Hout].
  destruct (H6 lk eq_refl) as [H7 H8].
  destruct (decide ("IMD_Decile" ∈ columns df)) as [Hin|Hfresh];
    [by rewrite H7 in Hout|].
  destruct (H8 Hfresh) as [H9 H10].
  destruct (Forall_float_cases (take_opt dec (merge_pairs lk rk).*2)) as [Hf|Hf];
    [|by rewrite H10 in Hout].
  rewrite H9 in Hout by done. apply ret_inj in Hout as <-.
  right. by exists lk, rk, dec.
Qed.

Lemma merge_with_imd_data_columns df imd_df out :
  merge_with_imd_data df imd_df = ret out →
  (∀ c, c ∈ columns out →
        c ∈ columns df ∨ c = "IMD_Decile" ∨ c = "IMD_Quintile")
  ∧ (∀ c, c ∈ columns df → c ∉ join_columns → c ∈ columns out)
  ∧ "IMD_Quintile" ∈ columns out.
Proof.
  intros Hout.
  destruct (merge_with_imd_data_inv_ret df imd_df out Hout)
    as [->|(lk & rk & dec & _ & _ & ->)].
  - unfold unenriched, setitem_scalar. split; [|split].
    + intros c [->|?]%columns_setitem; auto.
    + intros c Hc _. apply columns_setitem. by right.
    + apply columns_setitem. by left.
  - split; [|split].
    + intros c Hc. by apply enriched_columns in Hc as [? _].
    + intros c Hc Hj. apply enriched_columns. split; [by left|done].
    + apply enriched_columns. split; [auto|]. name_not_in_list.
Qed.

Lemma set_interval_inv_ret df c a b out :
  set_interval df c a b = ret out → ∃ d, out = setitem df c d.
Proof.
  unfold set_interval. intros Hout.
  apply bind_inv_ret in Hout as (sa & _ & Hout).
  apply bind_inv_ret in Hout as (sb & _ & Hout).
  apply bind_inv_ret in Hout as (d & _ & Hout).
  apply ret_inj in Hout. eauto.
Qed.

Lemma calculate_time_intervals_cases df :
  (∃ missing,
      missing ≠ []
      ∧ missing = filter (λ col, col ∉ columns df) required_date_cols
      ∧ calculate_time_intervals df
        = mkPy [Warning_missing_date_columns missing] (Ok df))
  ∨ ((∀ c, c ∈ required_date_cols → c ∈ columns df)
     ∧ silent (calculate_time_intervals df)
     ∧ ∀ out, calculate_time_intervals df = ret out →
         ∀ c, c ∈ columns out ↔ c ∈ columns df ∨ c ∈ interval_names).
Proof.
  unfold calculate_time_intervals.
  destruct (decide (filter (λ col, col ∉ columns df) required_date_cols = []))
    as [Hnil|Hne].
  - right. rewrite bool_decide_eq_false_2 by (intros Hc; by apply Hc).
    assert (∀ c, c ∈ required_date_cols → c ∈ columns df) as Hall.
    { intros c Hc. destruct (decide (c ∈ columns df)) as [|Hno]; [done|].
      by destruct (filter_nil_not_elem_of _ _ c Hnil Hno). }
    split; [done|].
    rewrite bool_decide_eq_true_2
      by (apply Hall; unfold required_date_cols; name_in_list).
    split; [repeat (apply silent_bind; [apply silent_set_interval|intros]); done|].
    intros out Hout.
    repeat (apply bind_inv_ret in Hout as (? & [? ->]%set_interval_inv_ret & Hout)).
    apply ret_inj in Hout as <-. intros c. rewrite !columns_setitem.
    unfold interval_names, interval_columns. csimpl.
    rewrite !elem_of_cons, elem_of_nil. tauto.
  - left. eexists. split; [exact Hne|]. split; [done|].
    by rewrite bool_decide_eq_true_2.
Qed.

Lemma calculate_pain_scores_inv_ret df out :
  calculate_pain_scores df = ret out →
  "First Pain Score" ∈ columns df ∧ "Second Pain Score" ∈ columns df
  ∧ ∀ c, c ∈ columns out ↔
         c ∈ columns df
         ∨ c ∈ ["First_Score_Num"; "Second_Score_Num"; "Pain_Score_Improvement"].
Proof.
  intros Hout.
  destruct (column df "First Pain Score") as [first|] eqn:Hf.
  2:{ apply column_None in Hf. unfold calculate_pain_scores in Hout.
      by rewrite (getitem_missing _ _ Hf) in Hout. }
  destruct (column df "Second Pain Score") as [second|] eqn:Hs.
  2:{ unfold calculate_pain_scores in Hout.
      rewrite (getitem_column _ _ _ Hf), bind_ret in Hout.
      rewrite getitem_missing in Hout; [done|].
      apply column_None. by rewrite column_setitem_ne. }
  rewrite (calculate_pain_scores_run df first second Hf Hs) in Hout.
  apply ret_inj in Hout as <-.
  split; [apply column_is_Some; eauto|]. split; [apply column_is_Some; eauto|].
  intros c. unfold with_scores. cbv zeta. rewrite !columns_setitem.
  rewrite !elem_of_cons, elem_of_nil. tauto.
Qed.

Lemma create_age_groups_inv_ret `{Lib} df out :
  create_age_groups df = ret out →
  "Age" ∈ columns df
  ∧ ∀ c, c ∈ columns out ↔ c ∈ columns df ∨ c = "Age_Group".
Proof.
  unfold create_age_groups. intros Hout.
  apply bind_inv_ret in Hout as (age & Hage%getitem_inv_ret & Hout).
  apply bind_inv_ret in Hout as (age' & _ & Hout).
  apply bind_inv_ret in Hout as (g & _ & Hout).
  apply ret_inj in Hout as <-.
  assert ("Age" ∈ columns df) as Hin by (apply column_is_Some; eauto).
  split; [done|]. intros c. rewrite !columns_setitem.
  split; [intros [Hc|[Hc|Hc]]; subst; auto|intros [Hc|Hc]; subst; auto].
Qed.

Lemma calculate_best_practice_inv_ret df out sk :
  calculate_best_practice df = ret (out, sk) →
  (∀ c, c ∈ ["First Pain Score"; "Time_to_A1_Mins"; "A1_to_PS2_Mins";
             "Time_to_PS1_Mins"] → c ∈ columns df)
  ∧ total_patients sk = Z.of_nat (nrows df)
  ∧ ∃ bp, out = setitem df "Best_Practice" bp.
Proof.
  unfold calculate_best_practice. intros Hout.
  apply bind_inv_ret in Hout as (fps & Hfps%getitem_inv_ret & Hout).
  apply bind_inv_ret in Hout as (a1 & Ha1%getitem_inv_ret & Hout).
  apply bind_inv_ret in Hout as (a1_le_15 & _ & Hout).
  apply bind_inv_ret in Hout as (a1ps2 & Ha1ps2%getitem_inv_ret & Hout).
  apply bind_inv_ret in Hout as (a1ps2_le_30 & _ & Hout).
  apply bind_inv_ret in Hout as (a1ps2_gt_0 & _ & Hout).
  apply bind_inv_ret in Hout as (a1ps2_le_15 & _ & Hout).
  apply bind_inv_ret in Hout as (ps1 & Hps1%getitem_inv_ret & Hout).
  apply bind_inv_ret in Hout as (ps1_le_15 & _ & Hout).
  apply bind_inv_ret in Hout as (bp & _ & Hout).
  apply ret_inj in Hout. injection Hout as <- <-.
  split; [|split; [done|eauto]].
  intros c Hc. names_of Hc; apply column_is_Some; eauto.
Qed.

Lemma calculate_time_intervals_ends df :
  ∃ pr, warnings_only pr
    ∧ ((∃ out, calculate_time_intervals df = mkPy pr (Ok out))
       ∨ ∃ e, calculate_time_intervals df = mkPy pr (Raise e)).
Proof.
  destruct (calculate_time_intervals_cases df)
    as [(missing & _ & _ & Hcti)|(_ & Hsil & _)].
  - exists [Warning_missing_date_columns missing]. split; [|eauto].
    constructor; [eauto|constructor].
  - exists []. split; [constructor|].
    destruct (silent_cases _ Hsil) as [[out ->]|[e ->]]; eauto.
Qed.

Lemma process_monthly_data_cases `{Lib} file imd_df :
  (∃ pr e,
      process_monthly_data file imd_df
      = mkPy (pr ++ [Error_processing_file e]) (Ok PyNone)
      ∧ warnings_only pr)
  ∨ (∃ t df0 pc df2 df3,
       file = Ok t
       ∧ load_and_clean_pain_data file = ret df0
       ∧ column df0 "Postcode" = Some pc
       ∧ merge_with_imd_data (setitem df0 "Join_Key" (join_key <$> pc)) imd_df
         = ret df2
       ∧ convert_date_columns df2 required_date_cols = ret df3
       ∧ columns df3 = columns df2
       ∧ (("Arrival DTTM" ∉ columns df3)
          ∧ process_monthly_data file imd_df = ret (PyFrame df3)
          ∨ "Arrival DTTM" ∈ columns df3
            ∧ ∃ month pr df5 df6 df7 out sk,
                warnings_only pr
                ∧ calculate_time_intervals (setitem df3 "Report_Month" month)
                  = mkPy pr (Ok df5)
                ∧ calculate_pain_scores df5 = ret df6
                ∧ create_age_groups df6 = ret df7
                ∧ calculate_best_practice df7 = ret (out, sk)
                ∧ process_monthly_data file imd_df
                  = mkPy pr (Ok (PyTuple out sk)))).
Proof.
  unfold process_monthly_data.
  destruct file as [t|e]; [|left; exists [], e; split; [done|constructor]].
  assert (∃ df0, load_and_clean_pain_data (Ok t) = ret df0) as [df0 Hload]
    by (eexists; reflexivity).
  rewrite Hload, bind_ret. unfold create_join_keys.
  destruct (column df0 "Postcode") as [pc|] eqn:Hpc.
  2:{ left. apply column_None in Hpc. rewrite (getitem_missing _ _ Hpc).
      exists [], (KeyError "Postcode"). split; [done|constructor]. }
  rewrite (getitem_column _ _ _ Hpc), !bind_ret.
  destruct (silent_cases _ (silent_merge_with_imd_data
                              (setitem df0 "Join_Key" (join_key <$> pc)) imd_df))
    as [[df2 Hm]|[e Hm]]; rewrite Hm.
  2:{ left. exists [], e. split; [done|constructor]. }
  rewrite bind_ret.
  destruct (convert_date_columns_run required_date_cols df2)
    as (df3 & Hconv & Hcols3 & _).
  rewrite Hconv, bind_ret.
  case_bool_decide as Harr.
  2:{ right. exists t, df0, pc, df2, df3. do 6 (split; [done|]).
      left. split; [done|]. apply try_except_ret. }
  destruct (proj2 (column_is_Some df3 "Arrival DTTM") Harr) as [arrival Ha].
  rewrite (getitem_column _ _ _ Ha), bind_ret.
  destruct (silent_cases (mapM report_month arrival)) as [[month Hmo]|[e Hmo]];
    [apply silent_mapM; intros; apply silent_report_month| |]; rewrite Hmo.
  2:{ left. exists [], e. split; [done|constructor]. }
  rewrite bind_ret. cbv zeta.
  set (df4 := setitem df3 "Report_Month" month).
  destruct (calculate_time_intervals_ends df4) as (pr & Hpr & [[df5 Hc]|[e Hc]]);
    rewrite Hc.
  2:{ left. exists pr, e. split; [done|done]. }
  rewrite bind_ok.
  destruct (silent_cases _ (silent_calculate_pain_scores df5))
    as [[df6 Hp]|[e Hp]]; rewrite Hp.
  2:{ left. exists pr, e. split; [|done].
      rewrite bind_raise. unfold try_except. simpl. by rewrite app_nil_r. }
  rewrite bind_ret.
  destruct (silent_cases _ (silent_create_age_groups df6))
    as [[df7 Hg]|[e Hg]]; rewrite Hg.
  2:{ left. exists pr, e. split; [|done].
      rewrite bind_raise. unfold try_except. simpl. by rewrite app_nil_r. }
  rewrite bind_ret.
  destruct (silent_cases _ (silent_calculate_best_practice df7))
    as [[[out sk] Hb]|[e Hb]]; rewrite Hb.
  2:{ left. exists pr, e. split; [|done].
      rewrite bind_raise. unfold try_except. simpl. by rewrite app_nil_r. }
  rewrite bind_ret.
  right. exists t, df0, pc, df2, df3. do 6 (split; [done|]).
  right. split; [done|]. exists month, pr, df5, df6, df7, out, sk.
  do 5 (split; [done|]).
  unfold try_except. simpl. by rewrite app_nil_r.
Qed.

Lemma load_and_clean_columns `{Lib} t df0 :
  load_and_clean_pain_data (Ok t) = ret df0 →
  ∀ c, c ∈ columns df0 ↔ c ∈ headers t ∧ c ∉ COLS_TO_DROP.
Proof.
  unfold load_and_clean_pain_data. change (lift (Ok t)) with (ret t).
  rewrite bind_ret. intros Heq c. apply ret_inj in Heq. subst df0.
  rewrite columns_drop.
  assert (columns (rename_columns str_strip t) = headers t) as Hcols.
  { unfold headers, columns, rename_columns. cbn [cols].
    rewrite <-!list_fmap_compose. apply list_fmap_ext. by intros i [n s] _. }
  rewrite !Hcols.
  split; intros [Hc Hd]; (split; [done|]); intros Hin; apply Hd.
  - by apply list_elem_of_filter.
  - by apply list_elem_of_filter in Hin as [_ ?].
Qed.

Lemma calculate_time_intervals_columns df pr out :
  calculate_time_intervals df = mkPy pr (Ok out) →
  (∀ c, c ∈ columns out → c ∈ columns df ∨ c ∈ interval_names)
  ∧ (∀ c, c ∈ columns df → c ∈ columns out)
  ∧ (∀ c, c ∈ required_date_cols → c ∉ columns df → out = df).
Proof.
  intros Hout.
  destruct (calculate_time_intervals_cases df)
    as [(missing & _ & _ & Hcti)|(Hall & Hsil & Hcols)].
  - rewrite Hcti in Hout. injection Hout as _ <-. auto.
  - assert (pr = []) as ->.
    { unfold silent in Hsil. by rewrite Hout in Hsil. }
    specialize (Hcols out Hout). split; [|split].
    + intros c Hc. by apply Hcols.
    + intros c Hc. apply Hcols. by left.
    + intros c Hc Hno. by destruct Hno; apply Hall.
Qed.

(** Where the columns of the table come from, up to the conversion of the
    dates. *)
Lemma converted_columns `{Lib} t df0 pc imd_df df2 df3 :
  load_and_clean_pain_data (Ok t) = ret df0 →
  column df0 "Postcode" = Some pc →
  merge_with_imd_data (setitem df0 "Join_Key" (join_key <$> pc)) imd_df = ret df2 →
  columns df3 = columns df2 →
  (∀ c, c ∈ columns df3 →
        c ∈ ["Join_Key"; "IMD_Decile"; "IMD_Quintile"]
        ∨ c ∈ headers t ∧ c ∉ COLS_TO_DROP)
  ∧ (∀ c, c ∈ headers t → c ∉ COLS_TO_DROP → c ∉ join_columns → c ∈ columns df3)
  ∧ "IMD_Quintile" ∈ columns df3.
Proof.
  intros Hload Hpc Hm Hcols3.
  pose proof (load_and_clean_columns t df0 Hload) as H0.
  destruct (merge_with_imd_data_columns _ _ _ Hm) as (Hfrom & Hkeep & Hq).
  rewrite Hcols3. split; [|split; [|done]].
  - intros c Hc. destruct (Hfrom c Hc) as [Hc1|[->| ->]].
    + apply columns_setitem in Hc1 as [->|Hc0].
      * left. name_in_list.
      * right. by apply H0.
    + left. name_in_list.
    + left. name_in_list.
  - intros c Hc Hd Hj. apply Hkeep; [|done].
    apply columns_setitem. right. by apply H0.
Qed.

(** X14.  [process_monthly_data] never raises, whatever the file, the
    reader and the reference data are.  It returns [None] exactly when it
    has printed the error line; the only other line it can print is the
    warning about missing date columns; a run that returns a table alone
    has printed nothing; and an exception of the reader is the error
    printed. *)
Theorem pipeline_never_raises `{Lib} (file : res DataFrame)
    (imd_df : option DataFrame) :
  ∃ r,
    outcome (process_monthly_data file imd_df) = Ok r
    ∧ (r = PyNone ↔
       ∃ e, Error_processing_file e ∈ printed (process_monthly_data file imd_df))
    ∧ (∀ m, m ∈ printed (process_monthly_data file imd_df) →
         (∃ e, m = Error_processing_file e)
         ∨ ∃ missing, m = Warning_missing_date_columns missing)
    ∧ (∀ df, r = PyFrame df → printed (process_monthly_data file imd_df) = [])
    ∧ (∀ e, file = Raise e →
         process_monthly_data file imd_df
         = mkPy [Error_processing_file e] (Ok PyNone)).
Proof.
  assert (∀ pr e, warnings_only pr → Error_processing_file e ∈ pr → False) as Hwarn.
  { intros pr e Hpr Hin.
    destruct (proj1 (Forall_forall _ _) Hpr _ Hin) as [missing Heq]. done. }
  assert (∀ e, file = Raise e →
            process_monthly_data file imd_df
            = mkPy [Error_processing_file e] (Ok PyNone)) as Hreader.
  { by intros e ->. }
  destruct (process_monthly_data_cases file imd_df)
    as [(pr & e & Hp & Hpr)
       |(t & df0 & pc & df2 & df3 & _ & _ & _ & _ & _ & _ &
         [[_ Hp]|[_ (month & pr & df5 & df6 & df7 & out & sk & Hpr & _ & _ & _ & _ & Hp)]])].
  - exists PyNone. rewrite Hp in *. cbn [outcome printed]. split; [done|]. split; [|split; [|split]].
    + split; [|done]. intros _. exists e. apply elem_of_app. right. name_in_list.
    + intros m [Hm|Hm]%elem_of_app.
      * right. exact (proj1 (Forall_forall _ _) Hpr m Hm).
      * left. exists e. by apply list_elem_of_singleton in Hm.
    + done.
    + done.
  - exists (PyFrame df3). rewrite Hp in *. cbn [outcome printed ret].
    split; [done|]. split; [|split; [|split]]; try done.
    + split; [done|]. intros [e He]. by apply elem_of_nil in He.
    + intros m Hm. by apply elem_of_nil in Hm.
  - exists (PyTuple out sk). rewrite Hp in *. cbn [outcome printed].
    split; [done|]. split; [|split; [|split]]; try done.
    + split; [done|]. intros [e He]. by destruct (Hwarn pr e).
    + intros m Hm. right. exact (proj1 (Forall_forall _ _) Hpr m Hm).
Qed.

(** Where the columns of the table come from, after the conversion of the
    dates. *)
Lemma derived_columns_chain `{Lib} df4 pr df5 df6 df7 out sk :
  calculate_time_intervals df4 = mkPy pr (Ok df5) →
  calculate_pain_scores df5 = ret df6 →
  create_age_groups df6 = ret df7 →
  calculate_best_practice df7 = ret (out, sk) →
  (∀ c, c ∈ columns out →
        c ∈ columns df4 ∨ c ∈ interval_names
        ∨ c ∈ ["First_Score_Num"; "Second_Score_Num"; "Pain_Score_Improvement";
               "Age_Group"; "Best_Practice"])
  ∧ (∀ c, c ∈ columns df4 → c ∈ columns out)
  ∧ (∀ c, c ∈ required_date_cols → c ∉ columns df4 →
       ∀ i, i ∈ ["Time_to_A1_Mins"; "A1_to_PS2_Mins"; "Time_to_PS1_Mins"] →
            i ∈ columns df4).
Proof.
  intros Hc Hp Hg Hb.
  destruct (calculate_time_intervals_columns _ _ _ Hc) as (H5a & H5b & H5c).
  destruct (calculate_pain_scores_inv_ret _ _ Hp) as (_ & _ & H6).
  destruct (create_age_groups_inv_ret _ _ Hg) as (_ & H7).
  destruct (calculate_best_practice_inv_ret _ _ _ Hb) as (H8a & _ & bp & ->).
  split; [|split].
  - intros c [->|Hc7]%columns_setitem; [right; right; name_in_list|].
    apply H7 in Hc7 as [Hc6| ->]; [|right; right; name_in_list].
    apply H6 in Hc6 as [Hc5|Hn].
    + destruct (H5a c Hc5); auto.
    + right. right. names_of Hn; name_in_list.
  - intros c Hc4. apply columns_setitem. right. apply H7. left.
    apply H6. left. by apply H5b.
  - intros c Hreq Hno i Hi. rewrite <-(H5c c Hreq Hno).
    assert (i ∈ columns df7) as Hi7.
    { apply H8a. names_of Hi; name_in_list. }
    apply H7 in Hi7 as [Hi6|Heq]; [|by names_of Hi].
    apply H6 in Hi6 as [Hi5|Hn]; [done|].
    names_of Hi; exfalso; revert Hn; name_not_in_list.
Qed.

Lemma interval_names_pipeline c : c ∈ interval_names → c ∈ pipeline_names.
Proof.
  intros Hc. unfold pipeline_names, added_columns.
  do 3 apply list_elem_of_further. apply elem_of_app. by right.
Qed.

(** X15.  Where the columns of a table the pipeline returns come from.
    Every column is one the pipeline names itself, or a column of the
    export under its stripped header; a column whose stripped header is
    [Surname] or [Forename] never comes through, and neither name is one
    the pipeline gives.  In the other direction every column of the export
    comes through, but the two identifiers and the columns of the join;
    and [IMD_Quintile] is always there. *)
Theorem pipeline_columns `{Lib} (file : res DataFrame)
    (imd_df : option DataFrame) (r : py_result) (out : DataFrame) :
  outcome (process_monthly_data file imd_df) = Ok r →
  table_of r = Some out →
  ∃ t,
    file = Ok t
    ∧ (∀ c, c ∈ columns out →
            c ∈ pipeline_names ∨ c ∈ headers t ∧ c ∉ COLS_TO_DROP)
    ∧ (∀ c, c ∈ headers t → c ∉ COLS_TO_DROP → c ∉ join_columns →
            c ∈ columns out)
    ∧ ("Surname" ∉ columns out)
    ∧ ("Forename" ∉ columns out)
    ∧ "IMD_Quintile" ∈ columns out.
Proof.
  intros Hr Hout.
  assert (∃ t,
    file = Ok t
    ∧ (∀ c, c ∈ columns out →
            c ∈ pipeline_names ∨ c ∈ headers t ∧ c ∉ COLS_TO_DROP)
    ∧ (∀ c, c ∈ headers t → c ∉ COLS_TO_DROP → c ∉ join_columns →
            c ∈ columns out)
    ∧ "IMD_Quintile" ∈ columns out) as (t & Ht & Hfrom & Hkeep & Hq).
  { destruct (process_monthly_data_cases file imd_df)
      as [(pr & e & Hp & Hpr)
         |(t & df0 & pc & df2 & df3 & -> & Hload & Hpc & Hm & _ & Hcols3 &
           [[_ Hp]|[_ (month & pr & df5 & df6 & df7 & out' & sk & Hpr
                       & Hc & Hps & Hg & Hb & Hp)]])];
      rewrite Hp in Hr; cbn [outcome ret] in Hr; injection Hr as <-;
      cbn [table_of] in Hout; [done|injection Hout as ->..].
    - destruct (converted_columns t df0 pc imd_df df2 out Hload Hpc Hm Hcols3)
        as (H3a & H3b & H3c).
      exists t. split; [done|]. split; [|done].
      intros c Hc. destruct (H3a c Hc) as [Hn|?]; [left|by right].
      unfold pipeline_names, added_columns. names_of Hn; name_in_list.
    - destruct (converted_columns t df0 pc imd_df df2 df3 Hload Hpc Hm Hcols3)
        as (H3a & H3b & H3c).
      destruct (derived_columns_chain _ _ _ _ _ _ _ Hc Hps Hg Hb)
        as (H4a & H4b & _).
      exists t. split; [done|]. split; [|split].
      + intros c Hcout. destruct (H4a c Hcout) as [Hc4|[Hi|Hn]].
        * apply columns_setitem in Hc4 as [->|Hc3].
          { left. unfold pipeline_names, added_columns, derived_columns.
            cbn [app]. name_in_list. }
          destruct (H3a c Hc3) as [Hn|?]; [left|by right].
          unfold pipeline_names, added_columns. names_of Hn; name_in_list.
        * left. by apply interval_names_pipeline.
        * left. unfold pipeline_names, added_columns, derived_columns.
          cbn [app]. names_of Hn; name_in_list.
      + intros c Hc0 Hd Hj. apply H4b, columns_setitem. right. by apply H3b.
      + apply H4b, columns_setitem. by right. }
  exists t. split; [done|]. split; [done|]. split; [done|].
  assert (∀ c, c ∈ COLS_TO_DROP → c ∉ columns out) as Hid.
  { intros c Hc Hin. destruct (Hfrom c Hin) as [Hn|[_ ?]]; [|done].
    revert Hn. unfold pipeline_names, added_columns, derived_columns,
      interval_names, interval_columns. csimpl.
    unfold COLS_TO_DROP in Hc. names_of Hc; name_not_in_list. }
  split; [apply Hid; unfold COLS_TO_DROP; name_in_list|].
  split; [apply Hid; unfold COLS_TO_DROP; name_in_list|done].
Qed.

(** X16.  An export with the arrival timestamp but without one of the
    other four is rejected as a whole.  [calculate_time_intervals] only
    warns and leaves the table as it is, but the compliance classifier that
    follows reads the interval columns: unless the export itself brings all
    three of them, the run ends in the error and [None], whatever the
    reference data. *)
Theorem partial_dates_rejected `{Lib} (t : DataFrame)
    (imd_df : option DataFrame) (c i : string) :
  "Arrival DTTM" ∈ headers t →
  c ∈ required_date_cols → c ∉ headers t →
  i ∈ ["Time_to_A1_Mins"; "A1_to_PS2_Mins"; "Time_to_PS1_Mins"] → i ∉ headers t →
  ∃ pr e,
    process_monthly_data (Ok t) imd_df
    = mkPy (pr ++ [Error_processing_file e]) (Ok PyNone).
Proof.
  intros Harr Hc Hcno Hi Hino.
  destruct (process_monthly_data_cases (Ok t) imd_df)
    as [(pr & e & Hp & Hpr)
       |(t' & df0 & pc & df2 & df3 & [= <-] & Hload & Hpc & Hm & _ & Hcols3 &
         [[Hno Hp]|[_ (month & pr & df5 & df6 & df7 & out & sk & Hpr
                       & Hcti & Hps & Hg & Hb & Hp)]])]; [eauto|exfalso..].
  - destruct (converted_columns t df0 pc imd_df df2 df3 Hload Hpc Hm Hcols3)
      as (_ & H3b & _).
    apply Hno, H3b; [done|..]; unfold COLS_TO_DROP, join_columns;
      name_not_in_list.
  - destruct (converted_columns t df0 pc imd_df df2 df3 Hload Hpc Hm Hcols3)
      as (H3a & _ & _).
    destruct (derived_columns_chain _ _ _ _ _ _ _ Hcti Hps Hg Hb)
      as (_ & _ & H4c).
    assert (∀ x, x ∈ columns (setitem df3 "Report_Month" month) →
                 x ∉ ["Report_Month"; "Join_Key"; "IMD_Decile"; "IMD_Quintile"] →
                 x ∈ headers t) as Hback.
    { intros x [->|Hx3]%columns_setitem Hx; [destruct Hx; name_in_list|].
      destruct (H3a x Hx3) as [Hn|[? _]]; [|done].
      destruct Hx. names_of Hn; name_in_list. }
    apply Hino, Hback.
    + apply (H4c c Hc); [|done]. intros Hin. apply Hcno, Hback; [done|].
      unfold required_date_cols in Hc. names_of Hc; name_not_in_list.
    + names_of Hi; name_not_in_list.
Qed.

Lemma pipeline_columns_witness :
  let file := Ok (patient_file (VStr "ab1 2cd")) in
  let out := processed_patient_file in
  outcome (process_monthly_data (H := Sample.lib) file None) = Ok (PyFrame out)
  ∧ ∃ t,
      file = Ok t
      ∧ (∀ c, c ∈ columns out →
              c ∈ pipeline_names
              ∨ c ∈ headers (H := Sample.lib) t ∧ c ∉ COLS_TO_DROP)
      ∧ (∀ c, c ∈ headers (H := Sample.lib) t → c ∉ COLS_TO_DROP →
              c ∉ join_columns → c ∈ columns out)
      ∧ ("Surname" ∉ columns out)
      ∧ ("Forename" ∉ columns out)
      ∧ "IMD_Quintile" ∈ columns out.
Proof.
  intros file out.
  assert (outcome (process_monthly_data (H := Sample.lib) file None)
          = Ok (PyFrame out)) as Hrun by (vm_compute; reflexivity).
  split; [exact Hrun|].
  exact (pipeline_columns (H := Sample.lib) file None (PyFrame out) out
           Hrun eq_refl).
Defined.

Lemma partial_dates_rejected_witness :
  ∃ pr e,
    process_monthly_data (H := Sample.lib) (Ok export_without_second_score_time) None
    = mkPy (pr ++ [Error_processing_file e]) (Ok PyNone).
Proof.
  apply (partial_dates_rejected (H := Sample.lib) export_without_second_score_time
           None "Second Pain Score DTTM" "Time_to_A1_Mins").
  - vm_compute. name_in_list.
  - unfold required_date_cols. name_in_list.
  - vm_compute. name_not_in_list.
  - name_in_list.
  - vm_compute. name_not_in_list.
Defined.

(** ** The rows of the enriched table *)

Lemma take_seq s n : length s = n → take s (seq 0 n) = s.
Proof.
  intros Hlen. unfold take. apply list_eq. intros i.
  rewrite list_lookup_fmap.
  destruct (decide (i < n)%nat) as [Hi|Hi].
  - rewrite lookup_seq_lt by done. simpl.
    destruct (lookup_lt_is_Some_2 s i) as [x Hx]; [lia|]. by rewrite Hx.
  - rewrite (lookup_ge_None_2 (seq 0 n)) by (rewrite length_seq; lia).
    rewrite lookup_ge_None_2 by lia. done.
Qed.

Lemma sorted_seq j n : StronglySorted le (seq j n).
Proof.
  revert j. induction n as [|n IH]; intros j; simpl; constructor; [apply IH|].
  apply Forall_forall. intros k Hk%elem_of_seq. lia.
Qed.

Lemma sorted_constant (n : nat) (l : list nat) :
  Forall (λ x, x = n) l → StronglySorted le l.
Proof.
  induction 1 as [|x l -> Hl IH]; constructor; [done|].
  eapply Forall_impl; [exact Hl|]. intros y ->. done.
Qed.

Lemma sorted_blocks {A B} (l : list A) :
  ∀ (f : nat → A → list (nat * B)) (n : nat),
    (∀ i x p, l !! i = Some x → p ∈ f i x → p.1 = (n + i)%nat) →
    StronglySorted le ((imap f l ≫= id).*1)
    ∧ Forall (le n) ((imap f l ≫= id).*1).
Proof.
  induction l as [|x l IH]; intros f n Hf.
  { split; constructor. }
  rewrite imap_cons, bind_cons, fmap_app. cbn [id].
  destruct (IH (f ∘ S) (S n)) as [Hs Hge].
  { intros i y p Hi Hp. rewrite (Hf (S i) y p Hi Hp). lia. }
  assert (Forall (λ k, k = n) (f 0%nat x).*1) as Hblock.
  { apply Forall_forall. intros k [p [-> Hp]]%list_elem_of_fmap_1.
    rewrite (Hf 0%nat x p eq_refl Hp). lia. }
  split.
  - apply StronglySorted_app_2; [|by eapply sorted_constant|done].
    intros k1 k2 Hk1 Hk2.
    rewrite (proj1 (Forall_forall _ _) Hblock k1 Hk1).
    pose proof (proj1 (Forall_forall _ _) Hge k2 Hk2). lia.
  - apply Forall_app. split.
    + eapply Forall_impl; [exact Hblock|]. intros k ->. done.
    + eapply Forall_impl; [exact Hge|]. intros k Hk. simpl in Hk. lia.
Qed.

Lemma rows_of_left rk i k p : p ∈ rows_of rk i k → p.1 = i.
Proof.
  unfold rows_of. destruct (matches rk k) as [|j js].
  - by intros ->%list_elem_of_singleton.
  - by intros [j' [-> _]]%list_elem_of_fmap_1.
Qed.

Lemma merge_pairs_sorted lk rk : StronglySorted le (merge_pairs lk rk).*1.
Proof.
  rewrite merge_pairs_rows.
  apply (sorted_blocks lk (rows_of rk) 0%nat).
  intros i k p _ Hp. by apply rows_of_left in Hp.
Qed.

Lemma merge_pairs_left lk rk i :
  i ∈ (merge_pairs lk rk).*1 ↔ (i < length lk)%nat.
Proof.
  split.
  - intros [[i' oj] [-> Hp]]%list_elem_of_fmap_1.
    apply elem_of_merge_pairs in Hp as (k & Hk & _).
    by apply lookup_lt_Some in Hk.
  - intros Hi. destruct (lookup_lt_is_Some_2 lk i Hi) as [k Hk].
    destruct (merge_pairs_total lk rk i k Hk) as [oj Hp].
    apply list_elem_of_fmap. by exists (i, oj).
Qed.

(** X17.  Enrichment never loses a record and never reorders.  Whatever
    the reference data, the rows of the table returned are rows of the
    patient table, taken in its order, each one at least once (more than
    once where several reference entries have its key): every column that
    is kept holds the values of the rows so taken. *)
Theorem enrichment_keeps_every_record (df : DataFrame)
    (imd_df : option DataFrame) (out : DataFrame) :
  well_formed df →
  merge_with_imd_data df imd_df = ret out →
  ∃ idx : list nat,
    nrows out = length idx
    ∧ StronglySorted le idx
    ∧ (∀ i, i ∈ idx ↔ (i < nrows df)%nat)
    ∧ ∀ c s, column df c = Some s → c ∉ "IMD_Quintile" :: join_columns →
        column out c = Some (take s idx).
Proof.
  intros Hwf Hout.
  destruct (merge_with_imd_data_inv_ret df imd_df out Hout)
    as [->|(lk & rk & dec & Hlk & _ & ->)].
  - exists (seq 0 (nrows df)). split; [by rewrite length_seq|].
    split; [apply sorted_seq|]. split.
    + intros i. rewrite elem_of_seq. lia.
    + intros c s Hs Hc. unfold unenriched, setitem_scalar.
      rewrite column_setitem_ne by (intros <-; apply Hc; name_in_list).
      rewrite take_seq; [done|]. by eapply column_length.
  - exists (merge_pairs lk rk).*1. split; [by rewrite length_fmap|].
    split; [apply merge_pairs_sorted|]. split.
    + intros i. rewrite merge_pairs_left.
      by rewrite (column_length df "Join_Key" lk Hwf Hlk).
    + intros c s Hs Hc. apply enriched_patient_column; [done|..].
      * intros Hin. apply Hc. by right.
      * intros ->. apply Hc. name_in_list.
Qed.

Lemma enrichment_keeps_every_record_witness :
  let df := keyed_patient "AB1 2CD" "AB12CD" in
  let imd_df := Some (reference [("AB12CD", 3); ("AB12CD", 4)]) in
  ∃ out idx,
    merge_with_imd_data df imd_df = ret out
    ∧ nrows out = length idx
    ∧ StronglySorted le idx
    ∧ (∀ i, i ∈ idx ↔ (i < nrows df)%nat)
    ∧ ∀ c s, column df c = Some s → c ∉ "IMD_Quintile" :: join_columns →
        column out c = Some (take s idx).
Proof.
  intros df imd_df.
  assert (∃ out, merge_with_imd_data df imd_df = ret out) as [out Hout].
  { eexists. vm_compute. reflexivity. }
  exists out.
  destruct (enrichment_keeps_every_record df imd_df out) as [idx Hidx].
  - repeat constructor.
  - exact Hout.
  - exists idx. split; [exact Hout|exact Hidx].
Defined.
